(** * Databento scripts: trading-session filter and data-quality validator

    A shallow embedding of [databento/scripts/session_filter.py] and
    [databento/scripts/validate_data.py], and the properties of the two
    components that the specification states (Part III), followed by
    further properties of the same code (Part IV).

    Conventions of the embedding:
    - a record (a Python [dict] loaded from JSON) is a [gmap string pyval];
    - Python [int] is [Z]; Python [float] is an IEEE-754 binary64 value,
      a [spec_float] computed with the Standard Library's bit-exact
      operations ([SFadd], [SFdiv], ...);
    - code that can raise returns a [res]; the validator, which also
      appends to [self.issues], runs in the monad [M];
    - [print] calls produce console output only and are left out; where
      the argument of a [print] or an f-string can raise, the exception is
      kept. *)

From Stdlib Require Import ZArith Lia Ascii.
From Stdlib Require Import Floats.SpecFloat.
From stdpp Require Import base option list sorting gmap strings pretty.

#[local] Set Warnings "-register-all".
#[local] Open Scope Z_scope.

(* ================================================================= *)
(** * Part I: the programs *)
(* ================================================================= *)

(** ** Python values, exceptions *)

Module Py.

(** The exceptions the two scripts can raise.  [RangeError] stands for
    the error [datetime] raises for an instant outside the years 1..9999
    ([ValueError], [OverflowError] or [OSError], depending on how far
    outside): nothing in the scripts catches or tells them apart. *)
Inductive exn :=
| KeyError | TypeError | ValueError | OverflowError | ZeroDivisionError
| RangeError.

Inductive res (A : Type) :=
| Ok (x : A)
| Raise (e : exn).

(** What a call into the C library leaves in [errno]: [0], [ERANGE] or
    another error code. *)
Inductive errno := no_error | ERANGE | other_error.
Arguments Ok {A} x.
Arguments Raise {A} e.

(** Sequencing: the rest runs only if the first part did not raise. *)
Definition bind {A B} (c : res A) (k : A -> res B) : res B :=
  match c with
  | Ok x => k x
  | Raise e => Raise e
  end.

Declare Scope res_scope.
Delimit Scope res_scope with res.
Notation "x <- c ;; k" := (bind c (fun x => k))
  (at level 100, c at next level, right associativity) : res_scope.
#[local] Open Scope res_scope.

(** What [json.load] produces. *)
Inductive pyval :=
| VNone
| VBool (b : bool)
| VInt (z : Z)
| VFloat (f : spec_float)
| VStr (s : string)
| VList (l : list pyval)
| VDict (d : gmap string pyval).

Abbreviation record := (gmap string pyval).

(** [bool(v)] *)
Definition truthy (v : pyval) : bool :=
  match v with
  | VNone => false
  | VBool b => b
  | VInt z => negb (z =? 0)
  | VFloat (S754_zero _) => false
  | VFloat _ => true
  | VStr s => match s with EmptyString => false | String _ _ => true end
  | VList l => match l with [] => false | _ => true end
  | VDict d => negb (bool_decide (d = ∅))
  end.

(** [record.get(key)] *)
Definition get (r : record) (key : string) : pyval :=
  default VNone (r !! key).

(** [a or b], with [b] evaluated only when [a] is falsy *)
Definition por (a : pyval) (b : pyval) : pyval :=
  if truthy a then a else b.

(** [[f(x) for x in l]] where [f] can raise *)
Fixpoint map_res {A B} (f : A -> res B) (l : list A) : res (list B) :=
  match l with
  | [] => Ok []
  | x :: l' => y <- f x ;; ys <- map_res f l' ;; Ok (y :: ys)
  end.

(** [sub in s] on strings *)
Fixpoint str_contains (sub s : string) : bool :=
  String.prefix sub s ||
  match s with
  | EmptyString => false
  | String _ s' => str_contains sub s'
  end.

End Py.
Export Py.

(** ** binary64 arithmetic as Python performs it *)

Module F64.
#[local] Open Scope res_scope.

Definition prec : Z := 53.
Definition emax : Z := 1024.

Abbreviation float := spec_float.

Definition add := SFadd prec emax.
Definition sub := SFsub prec emax.
Definition mul := SFmul prec emax.
Definition div := SFdiv prec emax.
Definition sqrt := SFsqrt prec emax.
Definition ltb := SFltb.
Definition leb := SFleb.
Definition eqb := SFeqb.
Definition abs := SFabs.

(** The integer [z] as an (unnormalised) exact operand. *)
Definition exact (z : Z) : float :=
  match z with
  | Z0 => S754_zero false
  | Zpos p => S754_finite false p 0
  | Zneg p => S754_finite true p 0
  end.

(** The double nearest to [z] (ties to even); infinite beyond the range. *)
Definition nearest (z : Z) : float := binary_normalize prec emax z 0 false.

Definition is_inf (f : float) : bool :=
  match f with S754_infinity _ => true | _ => false end.

(** [float(z)] for an [int] *)
Definition of_int (z : Z) : res float :=
  let f := nearest z in if is_inf f then Raise OverflowError else Ok f.

(** [a / b] for two [int]s: the correctly rounded quotient. *)
Definition int_truediv (a b : Z) : res float :=
  if b =? 0 then Raise ZeroDivisionError
  else let f := div (exact a) (exact b) in
       if is_inf f then Raise OverflowError else Ok f.

(** [x / y] for two [float]s *)
Definition truediv (x y : float) : res float :=
  match y with
  | S754_zero _ => Raise ZeroDivisionError
  | _ => Ok (div x y)
  end.

(** A finite double as [n * 2^e] with [n] signed. *)
Definition scaled (f : float) : option (Z * Z) :=
  match f with
  | S754_zero _ => Some (0, 0)
  | S754_finite s m e => Some (cond_Zopp s (Z.pos m), e)
  | _ => None
  end.

(** Exact comparison of a [float] with an [int], as Python's mixed
    comparison does it; [None] for NaN. *)
Definition compare_int (f : float) (z : Z) : option comparison :=
  match f with
  | S754_nan => None
  | S754_infinity s => Some (if s then Lt else Gt)
  | S754_zero _ => Some (0 ?= z)
  | S754_finite s m e =>
      let n := cond_Zopp s (Z.pos m) in
      Some (if 0 <=? e then (n * 2 ^ e ?= z) else (n ?= z * 2 ^ (- e)))
  end.

(** [f > z] *)
Definition gt_int (f : float) (z : Z) : bool :=
  match compare_int f z with Some Gt => true | _ => false end.

(** [z > f] *)
Definition int_gt (z : Z) (f : float) : bool :=
  match compare_int f z with Some Lt => true | _ => false end.

(** C [trunc]: the integer part, rounding toward zero. *)
Definition trunc (f : float) : option Z :=
  match scaled f with
  | Some (n, e) => Some (if 0 <=? e then n * 2 ^ e else Z.quot n (2 ^ (- e)))
  | None => None
  end.

(** The fractional part left by C [modf]; exact, with the sign of [f]. *)
Definition frac (f : float) : float :=
  match scaled f with
  | Some (n, e) =>
      if 0 <=? e then S754_zero false
      else binary_normalize prec emax (Z.rem n (2 ^ (- e))) e false
  | None => f
  end.

(** Round to the nearest integer, ties to even ([_PyTime_RoundHalfEven]). *)
Definition round_half_even (f : float) : option Z :=
  match scaled f with
  | Some (n, e) =>
      Some (if 0 <=? e then n * 2 ^ e
            else let d := 2 ^ (- e) in
                 let q := n `div` d in
                 let r := n `mod` d in
                 match 2 * r ?= d with
                 | Lt => q
                 | Gt => q + 1
                 | Eq => if Z.even q then q else q + 1
                 end)
  | None => None
  end.

(** [int(f)] for a [float] *)
Definition to_int (f : float) : res Z :=
  match f with
  | S754_nan => Raise ValueError
  | S754_infinity _ => Raise OverflowError
  | _ => match trunc f with Some z => Ok z | None => Raise ValueError end
  end.

(** [fexp] at binary64: the exponent of the last place of a double whose
    value has [d] binary digits before the point. *)
Definition fexp64 : Z -> Z := fexp 53 1024.

End F64.

(** ** The parts of the Python runtime that depend on the host *)

(** These are not part of the scripts:
    - [int(s)] and [float(s)] on a [str], CPython's parsers;
    - the local time zone used by a naive [datetime.fromtimestamp(t)]:
      [local_strftime sec] is
      [fromtimestamp(sec).strftime("%Y-%m-%d %H:%M:%S")] in the host's zone;
    - the [pow] of the C library: [libm_pow x y] is the value of C
      [pow(x, y)] and what the call leaves in [errno]; the value is not
      correctly rounded in general and differs between libraries; CPython
      calls it for finite [x] and [y] with [x > 0], [x <> 1] and [y <> 0]
      only;
    - the way the built-in [sum] adds floats: [sum_compensates] holds from
      CPython 3.12 on, where the rounding errors of the partial sums are
      carried along and added at the end. *)
Class Host := {
  int_of_str : string -> res Z;
  float_of_str : string -> res F64.float;
  local_strftime : Z -> res string;
  libm_pow : F64.float -> F64.float -> F64.float * errno;
  sum_compensates : bool;
}.

Module Conv.

(** [int(v)] *)
Definition py_int `{Host} (v : pyval) : res Z :=
  match v with
  | VInt z => Ok z
  | VBool b => Ok (if b then 1 else 0)
  | VFloat f => F64.to_int f
  | VStr s => int_of_str s
  | VNone | VList _ | VDict _ => Raise TypeError
  end.

(** [float(v)] *)
Definition py_float `{Host} (v : pyval) : res F64.float :=
  match v with
  | VInt z => F64.of_int z
  | VBool b => Ok (F64.nearest (if b then 1 else 0))
  | VFloat f => Ok f
  | VStr s => float_of_str s
  | VNone | VList _ | VDict _ => Raise TypeError
  end.

End Conv.
Export Conv.

(** ** [float ** float]

    [float_pow] of CPython settles the special cases itself and passes
    the others to C [pow].  The validator raises to the powers [2] and
    [0.5] only, so the cases are written out for those two exponents. *)

Module FloatPow.

Definition one : F64.float := F64.nearest 1.
Definition two : F64.float := F64.nearest 2.
(** [0.5] *)
Definition half : F64.float := S754_finite false 4503599627370496 (-53).

(** The end of [float_pow], for a finite [x > 0]: [1.0 ** y] is [1.0];
    otherwise C [pow] is called with [errno] cleared.  An infinite result
    counts as [ERANGE] even if the library did not say so, and [ERANGE]
    with a zero result is no error ([_Py_ADJUST_ERANGE1]); [ERANGE] is an
    [OverflowError], any other error a [ValueError]. *)
Definition call_pow `{Host} (x y : F64.float) : res F64.float :=
  if F64.eqb x one then Ok one
  else
    let '(ix, e) := libm_pow x y in
    let e :=
      match e with
      | no_error => if F64.is_inf ix then ERANGE else no_error
      | ERANGE => match ix with S754_zero _ => no_error | _ => ERANGE end
      | other_error => other_error
      end in
    match e with
    | no_error => Ok ix
    | ERANGE => Raise OverflowError
    | other_error => Raise ValueError
    end.

(** [x ** 2]: [nan] for [nan], [inf] for an infinity, [0.0] for a zero;
    the exponent being an even integer, a negative [x] is replaced by its
    absolute value. *)
Definition pow2 `{Host} (x : F64.float) : res F64.float :=
  match x with
  | S754_nan => Ok S754_nan
  | S754_infinity _ => Ok (S754_infinity false)
  | S754_zero _ => Ok (S754_zero false)
  | S754_finite _ m e => call_pow (S754_finite false m e) two
  end.

(** [x ** 0.5]: [nan] for [nan], [inf] for an infinity of either sign,
    [0.0] for a zero.  A negative [x] gives a [complex]; the validator
    next compares a float with a multiple of it, which is the
    [TypeError] raised here. *)
Definition pow_half `{Host} (x : F64.float) : res F64.float :=
  match x with
  | S754_nan => Ok S754_nan
  | S754_infinity _ => Ok (S754_infinity false)
  | S754_zero _ => Ok (S754_zero false)
  | S754_finite true _ _ => Raise TypeError
  | S754_finite false _ _ => call_pow x half
  end.

End FloatPow.
Export FloatPow.

(** ** [sum] over floats

    [sum] adds the items from left to right onto the int [0].  Up to
    CPython 3.11 the floats are added as they come.  From 3.12 on the
    first float is added to the int counted so far, and for every further
    float the rounding error of the addition goes into a compensation
    term (Neumaier's summation), which is added to the sum at the end
    unless it is zero or not finite. *)

Module FloatSum.

(** The running sum [f_result] and the compensation [c]. *)
Definition sum_state : Type := F64.float * F64.float.

(** The first float, added to the int [0]. *)
Definition sum_first (x : F64.float) : sum_state :=
  (F64.add (S754_zero false) x, S754_zero false).

(** One more float. *)
Definition sum_step `{Host} (st : sum_state) (x : F64.float) : sum_state :=
  let '(f_result, c) := st in
  let t := F64.add f_result x in
  if sum_compensates then
    if F64.leb (F64.abs x) (F64.abs f_result)
    then (t, F64.add c (F64.add (F64.sub f_result t) x))
    else (t, F64.add c (F64.add (F64.sub x t) f_result))
  else (t, c).

(** The end of the items. *)
Definition sum_end (st : sum_state) : F64.float :=
  let '(f_result, c) := st in
  match c with
  | S754_finite _ _ _ => F64.add f_result c
  | _ => f_result
  end.

(** [sum(l)] for a list of floats; for the empty list the int [0] is
    given as [0.0]. *)
Definition fsum `{Host} (l : list F64.float) : F64.float :=
  match l with
  | [] => S754_zero false
  | x :: rest => sum_end (fold_left sum_step rest (sum_first x))
  end.

End FloatSum.
Export FloatSum.

(** ** [datetime] *)

Module Datetime.
#[local] Open Scope res_scope.

(** An instant on the proleptic Gregorian calendar, kept as whole
    seconds since 1970-01-01T00:00:00 and microseconds in [0, 10^6). The
    wall-clock fields are functions of it. *)
Record datetime := { dt_sec : Z; dt_us : Z }.

(** 0001-01-01T00:00:00 and 9999-12-31T23:59:59 *)
Definition min_sec : Z := -62135596800.
Definition max_sec : Z := 253402300799.

Definition in_range (sec : Z) : bool := (min_sec <=? sec) && (sec <=? max_sec).

(** [_PyTime_ObjectToTimeval(t, ROUND_HALF_EVEN)]: split a float
    timestamp into seconds and microseconds. *)
Definition to_timeval (t : F64.float) : res (Z * Z) :=
  match t with
  | S754_nan => Raise ValueError
  | S754_infinity _ => Raise OverflowError
  | _ =>
      match F64.trunc t, F64.round_half_even (F64.mul (F64.frac t) (F64.nearest 1000000)) with
      | Some intpart, Some floatpart =>
          if 1000000 <=? floatpart then Ok (intpart + 1, floatpart - 1000000)
          else if floatpart <? 0 then Ok (intpart - 1, floatpart + 1000000)
          else Ok (intpart, floatpart)
      | _, _ => Raise ValueError
      end
  end.

(** [datetime.fromtimestamp(t, tz=timezone.utc)] *)
Definition fromtimestamp_utc (t : F64.float) : res datetime :=
  tv <- to_timeval t ;;
  let '(sec, us) := tv in
  if in_range sec then Ok {| dt_sec := sec; dt_us := us |} else Raise RangeError.

(** [dt + timedelta(hours=h)] *)
Definition add_hours (dt : datetime) (h : Z) : res datetime :=
  let sec := dt_sec dt + h * 3600 in
  if in_range sec then Ok {| dt_sec := sec; dt_us := dt_us dt |} else Raise RangeError.

(** [dt.hour] *)
Definition hour (dt : datetime) : Z := (dt_sec dt `div` 3600) `mod` 24.

(** [dt.replace(hour=h, minute=0, second=0, microsecond=0)] *)
Definition replace_hour (dt : datetime) (h : Z) : datetime :=
  {| dt_sec := (dt_sec dt `div` 86400) * 86400 + h * 3600; dt_us := 0 |}.

(** A [timedelta], in microseconds. *)
Definition timedelta := Z.

(** [timedelta(minutes=m)]; the day count must stay within 999999999. *)
Definition timedelta_minutes (m : Z) : res timedelta :=
  let us := m * 60000000 in
  let days := us `div` 86400000000 in
  if (-999999999 <=? days) && (days <=? 999999999) then Ok us else Raise OverflowError.

(** [a - b] *)
Definition diff (a b : datetime) : timedelta :=
  (dt_sec a - dt_sec b) * 1000000 + (dt_us a - dt_us b).

(** [td.total_seconds()] *)
Definition total_seconds (td : timedelta) : res F64.float :=
  F64.int_truediv td 1000000.

End Datetime.

(** ** session_filter.py *)

Module SessionFilter.
Import Datetime.
#[local] Open Scope res_scope.

(** [class TradingSession(Enum)]: the session windows, in ET hours. *)
Inductive TradingSession := ASIAN | LONDON | NY.

(** [session.value] *)
Definition value (session : TradingSession) : string * Z * Z :=
  match session with
  | ASIAN => ("Asian", 18, 2)
  | LONDON => ("London", 2, 8)
  | NY => ("NY", 8, 16)
  end.

(** The name a session carries in its [value]. *)
Definition name (session : TradingSession) : string := (value session).1.1.

(** [self.sessions], set by [__init__] *)
Definition sessions : gmap string TradingSession :=
  {[ "Asian" := ASIAN; "London" := LONDON; "NY" := NY ]}.

(** [self.sessions[s]] *)
Definition sessions_getitem (s : string) : res TradingSession :=
  match sessions !! s with
  | Some session => Ok session
  | None => Raise KeyError
  end.

(** The session test of [get_current_session] on the ET hour. *)
Definition session_of_et_hour (et_hour : Z) : string :=
  if (18 <=? et_hour) || (et_hour <? 2) then "Asian"
  else if (2 <=? et_hour) && (et_hour <? 8) then "London"
  else "NY".

(** [get_current_session], from [dt.hour] of the parsed (or current) UTC
    time on: only that field of [dt] is read. *)
Definition get_current_session (dt_hour : Z) : string :=
  let et_hour := (dt_hour - 5) `mod` 24 in
  session_of_et_hour et_hour.

(** The window test of [is_in_session] on the ET hour. *)
Definition hour_in_session (hour : Z) (session : TradingSession) : bool :=
  let '(_, start_hour, end_hour) := value session in
  if start_hour <? end_hour
  then (start_hour <=? hour) && (hour <? end_hour)
  else (start_hour <=? hour) || (hour <? end_hour).

(** [dt_et] as [is_in_session] and [filter_session_transitions] compute
    it from a nanosecond timestamp. *)
Definition to_et (timestamp_ns : Z) : res datetime :=
  ts_seconds <- F64.int_truediv timestamp_ns 1000000000 ;;
  dt <- fromtimestamp_utc ts_seconds ;;
  add_hours dt (-5).

Definition is_in_session (timestamp_ns : Z) (session : TradingSession) : res bool :=
  dt_et <- to_et timestamp_ns ;;
  Ok (hour_in_session (hour dt_et) session).

(** [record.get("ts_event") or record.get("ts_recv") or record.get("timestamp")] *)
Definition derived_ts (r : record) : pyval :=
  por (por (get r "ts_event") (get r "ts_recv")) (get r "timestamp").

Section WithHost.
Context `{Host}.

(** The inner loop of [filter_by_session]: is the record in one of the
    requested sessions?  [int(ts_ns)] is evaluated once per session tried. *)
Fixpoint in_any_session (ts_ns : pyval) (session_enums : list TradingSession) : res bool :=
  match session_enums with
  | [] => Ok false
  | session :: rest =>
      t <- py_int ts_ns ;;
      b <- is_in_session t session ;;
      if b then Ok true else in_any_session ts_ns rest
  end.

(** The loop over [data], with [filtered] as accumulator. *)
Fixpoint filter_by_session_loop (session_enums : list TradingSession)
    (data : list record) (filtered : list record) : res (list record) :=
  match data with
  | [] => Ok filtered
  | r :: rest =>
      let ts_ns := derived_ts r in
      if negb (truthy ts_ns) then filter_by_session_loop session_enums rest filtered
      else
        keep <- in_any_session ts_ns session_enums ;;
        filter_by_session_loop session_enums rest
          (if keep then filtered ++ [r] else filtered)
  end.

(** [len(filtered)/len(data)*100], the percentage printed at the end. *)
Definition kept_percentage (filtered data : list record) : res F64.float :=
  q <- F64.int_truediv (Z.of_nat (length filtered)) (Z.of_nat (length data)) ;;
  Ok (F64.mul q (F64.nearest 100)).

Definition filter_by_session (data : list record) (sessions : list string)
    : res (list record) :=
  session_enums <- map_res sessions_getitem sessions ;;
  filtered <- filter_by_session_loop session_enums data [] ;;
  _ <- kept_percentage filtered data ;;
  Ok filtered.

(** [transitions], the ET hours of the four handoffs *)
Definition transitions : list Z := [2; 8; 16; 18].

(** The inner loop of [filter_session_transitions]. *)
Fixpoint near_any_transition (dt_et : datetime) (transition_window : timedelta)
    (hours : list Z) : res bool :=
  match hours with
  | [] => Ok false
  | transition_hour :: rest =>
      let transition_dt := replace_hour dt_et transition_hour in
      d <- total_seconds (diff dt_et transition_dt) ;;
      let time_diff := F64.abs d in
      w <- total_seconds transition_window ;;
      if F64.leb time_diff w then Ok true
      else near_any_transition dt_et transition_window rest
  end.

Fixpoint filter_session_transitions_loop (transition_window : timedelta)
    (data : list record) (filtered : list record) : res (list record) :=
  match data with
  | [] => Ok filtered
  | r :: rest =>
      let ts_ns := derived_ts r in
      if negb (truthy ts_ns) then filter_session_transitions_loop transition_window rest filtered
      else
        t <- py_int ts_ns ;;
        dt_et <- to_et t ;;
        keep <- near_any_transition dt_et transition_window transitions ;;
        filter_session_transitions_loop transition_window rest
          (if keep then filtered ++ [r] else filtered)
  end.

Definition filter_session_transitions (data : list record)
    (minutes_before minutes_after : Z) : res (list record) :=
  transition_window <- timedelta_minutes (minutes_before + minutes_after) ;;
  filter_session_transitions_loop transition_window data [].

End WithHost.

End SessionFilter.

(** ** session_filter.py: [calculate_session_stats] *)

Module SessionStats.
Import Datetime SessionFilter.
#[local] Open Scope res_scope.

(** What a ["volume"] or ["percentage"] entry holds: an [int] or a [float]. *)
Inductive number :=
| NInt (z : Z)
| NFloat (f : F64.float).

(** [acc + v] for a number [acc] and a JSON value [v]: [bool]s count as
    ints, an int meeting a float is converted to a float first, anything
    else is a [TypeError]. *)
Definition add_value (acc : number) (v : pyval) : res number :=
  match acc, v with
  | NInt a, VInt b => Ok (NInt (a + b))
  | NInt a, VBool b => Ok (NInt (a + (if b then 1 else 0)))
  | NInt a, VFloat g => f <- F64.of_int a ;; Ok (NFloat (F64.add f g))
  | NFloat f, VInt b => g <- F64.of_int b ;; Ok (NFloat (F64.add f g))
  | NFloat f, VBool b => Ok (NFloat (F64.add f (F64.nearest (if b then 1 else 0))))
  | NFloat f, VFloat g => Ok (NFloat (F64.add f g))
  | _, (VNone | VStr _ | VList _ | VDict _) => Raise TypeError
  end.

(** One inner dict of [stats]; the ["percentage"] key is absent until
    the last loop sets it. *)
Record session_stats := {
  count : Z;
  volume : number;
  trades : Z;
  percentage : option number;
}.

(** [{"count": 0, "volume": 0, "trades": 0}] *)
Definition empty_stats : session_stats :=
  {| count := 0; volume := NInt 0; trades := 0; percentage := None |}.

(** [stats]: a dict whose three keys are fixed at creation, in its
    insertion order. *)
Definition stats_dict := list (string * session_stats).

Definition initial_stats : stats_dict :=
  [("Asian", empty_stats); ("London", empty_stats); ("NY", empty_stats)].

(** [self.sessions.items()], in insertion order *)
Definition sessions_items : list (string * TradingSession) :=
  [("Asian", ASIAN); ("London", LONDON); ("NY", NY)].

(** The statements that update [stats[session_name]] for a record found
    in that session. *)
Definition count_record (r : record) (s : session_stats) : res session_stats :=
  let s := {| count := count s + 1; volume := volume s; trades := trades s;
              percentage := percentage s |} in
  s <- match r !! "volume" with
       | Some v =>
           vol <- add_value (volume s) v ;;
           Ok {| count := count s; volume := vol; trades := trades s;
                 percentage := percentage s |}
       | None => Ok s
       end ;;
  Ok (match r !! "size" with
      | Some _ => {| count := count s; volume := volume s; trades := trades s + 1;
                     percentage := percentage s |}
      | None => s
      end).

(** [stats[session_name]], updated in place by [f]. *)
Fixpoint update (session_name : string) (f : session_stats -> res session_stats)
    (stats : stats_dict) : res stats_dict :=
  match stats with
  | [] => Raise KeyError
  | (k, s) :: rest =>
      if String.eqb k session_name then s' <- f s ;; Ok ((k, s') :: rest)
      else rest' <- update session_name f rest ;; Ok ((k, s) :: rest')
  end.

Section WithHost.
Context `{Host}.

(** The inner loop over the sessions, left at the first one the record
    is in. *)
Fixpoint tally_record (r : record) (ts_ns : pyval)
    (items : list (string * TradingSession)) (stats : stats_dict) : res stats_dict :=
  match items with
  | [] => Ok stats
  | (session_name, session_enum) :: rest =>
      t <- py_int ts_ns ;;
      b <- is_in_session t session_enum ;;
      if b then update session_name (count_record r) stats
      else tally_record r ts_ns rest stats
  end.

Fixpoint tally (data : list record) (stats : stats_dict) : res stats_dict :=
  match data with
  | [] => Ok stats
  | r :: rest =>
      let ts_ns := derived_ts r in
      if negb (truthy ts_ns) then tally rest stats
      else stats <- tally_record r ts_ns sessions_items stats ;; tally rest stats
  end.

(** [sum(s["count"] for s in stats.values())] *)
Definition total_count (stats : stats_dict) : Z :=
  fold_left (fun acc ks => acc + count (snd ks)) stats 0.

(** The last loop: every inner dict gets its ["percentage"]. *)
Definition set_percentage (total_count : Z) (ks : string * session_stats)
    : res (string * session_stats) :=
  let s := snd ks in
  p <- (if 0 <? total_count then
          q <- F64.int_truediv (count s) total_count ;;
          Ok (NFloat (F64.mul q (F64.nearest 100)))
        else Ok (NInt 0)) ;;
  Ok (fst ks, {| count := count s; volume := volume s; trades := trades s;
                 percentage := Some p |}).

Definition calculate_session_stats (data : list record) : res stats_dict :=
  stats <- tally data initial_stats ;;
  map_res (set_percentage (total_count stats)) stats.

End WithHost.

End SessionStats.

(** ** validate_data.py *)

Module DataValidator.
Import Datetime.

(** One entry of [gaps]: the dict [gap_info]. *)
Record gap_info := {
  index : Z;
  gap_seconds : F64.float;
  gap_minutes : F64.float;
  before : string;
  after : string;
}.

(** The dicts appended to [self.issues], one constructor per ["type"].
    The ["message"] of an issue is a rendering of its other fields and is
    not kept. *)
Inductive issue :=
| timestamp_gap (info : gap_info)
| duplicate_timestamp (timestamp : string) (count : Z)
| price_outlier (price mean std_dev : F64.float)
| negative_price (price : F64.float)
| unexpected_record_count (actual expected : Z)
| missing_field (field : string) (missing_count : Z).

(** [issue["type"]] *)
Definition issue_type (i : issue) : string :=
  match i with
  | timestamp_gap _ => "timestamp_gap"
  | duplicate_timestamp _ _ => "duplicate_timestamp"
  | price_outlier _ _ _ => "price_outlier"
  | negative_price _ => "negative_price"
  | unexpected_record_count _ _ => "unexpected_record_count"
  | missing_field _ _ => "missing_field"
  end.

(** [issue["severity"]] *)
Definition severity (i : issue) : string :=
  match i with
  | timestamp_gap _ | price_outlier _ _ _ | unexpected_record_count _ _ => "warning"
  | duplicate_timestamp _ _ | negative_price _ | missing_field _ _ => "error"
  end.

(** *** The validator's monad

    A method of [DataValidator] reads the immutable configuration and
    appends to the one list object [self.issues]; it returns or raises,
    and what it appended stays appended either way. *)
Definition M (A : Type) : Type := list issue -> res A * list issue.

Definition mret {A} (x : A) : M A := fun s => (Ok x, s).

Definition mbind {A B} (c : M A) (k : A -> M B) : M B := fun s =>
  match c s with
  | (Ok x, s') => k x s'
  | (Raise e, s') => (Raise e, s')
  end.

(** A computation that does not touch [self.issues]. *)
Definition lift {A} (c : res A) : M A := fun s => (c, s).

(** [self.issues.append(i)] *)
Definition append_issue (i : issue) : M unit := fun s => (Ok tt, s ++ [i]).

Declare Scope val_scope.
Delimit Scope val_scope with val.
Notation "x <- c ;; k" := (mbind c (fun x => k))
  (at level 100, c at next level, right associativity) : val_scope.

(** The instance fields other than [issues]. *)
Record config := {
  schema : string;
  max_gap_seconds : Z;
  price_outlier_std : F64.float;
}.

(** [__init__]: the configuration, and the initial value of [self.issues]. *)
Definition init (schema : string) (max_gap_minutes : Z) (price_outlier_std : F64.float)
    : config * list issue :=
  ({| schema := schema;
      max_gap_seconds := max_gap_minutes * 60;
      price_outlier_std := price_outlier_std |}, []).

(** The dict each check returns, one constructor per shape. *)
Inductive check_report :=
| gaps_insufficient
| gaps_report (valid : bool) (gaps_found : Z) (gaps : list gap_info) (total_gaps : Z)
| duplicates_report (valid : bool) (duplicates_found duplicate_timestamps : Z)
| price_no_data
| price_report (valid : bool) (min_price max_price mean_price std_dev : F64.float)
    (negative_prices zero_prices outliers : Z)
| record_count_report (valid : bool) (actual_count : Z) (expected_count : option Z)
| completeness_no_data
| completeness_report (valid : bool) (missing_fields : list (string * Z)).

(** [check.get("valid", True)] *)
Definition check_valid (c : check_report) : bool :=
  match c with
  | gaps_insufficient => true
  | gaps_report valid _ _ _ => valid
  | duplicates_report valid _ _ => valid
  | price_no_data => true
  | price_report valid _ _ _ _ _ _ _ => valid
  | record_count_report valid _ _ => valid
  | completeness_no_data => false
  | completeness_report valid _ => valid
  end.

(** [report["issues"] = self.issues] stores a reference to the
    validator's list, not a copy. *)
Inductive issues_ref := self_issues.

(** The dict [validate] returns; [issues = None] when the key is absent. *)
Record report := {
  total_records : Z;
  valid : bool;
  checks : list (string * check_report);
  issues : option issues_ref;
}.

(** [report["issues"]], read while the validator's list holds [s]. *)
Definition report_issues (rep : report) (s : list issue) : res (list issue) :=
  match issues rep with
  | Some self_issues => Ok s
  | None => Raise KeyError
  end.

(** [len(l)] *)
Definition len {A} (l : list A) : Z := Z.of_nat (length l).

(** [min(l)] and [max(l)] for a non-empty list: the first element that
    no later one beats under [<] (resp. [>]). *)
Definition fmin (l : list F64.float) : F64.float :=
  match l with
  | [] => S754_nan
  | x :: l' => fold_left (fun m y => if F64.ltb y m then y else m) l' x
  end.

Definition fmax (l : list F64.float) : F64.float :=
  match l with
  | [] => S754_nan
  | x :: l' => fold_left (fun m y => if F64.ltb m y then y else m) l' x
  end.

(** [timestamp_counts[ts] += 1] on a [defaultdict(int)], kept in
    insertion order. *)
Fixpoint incr {K} (eqb : K -> K -> bool) (key : K) (counts : list (K * Z)) : list (K * Z) :=
  match counts with
  | [] => [(key, 1)]
  | (k, c) :: rest =>
      if eqb k key then (k, c + 1) :: rest else (k, c) :: incr eqb key rest
  end.

Section WithHost.
Context `{Host}.

(** [datetime.fromtimestamp(ts_ns / 1_000_000_000).strftime(...)]: the
    float is split into seconds and microseconds, the local zone does the
    rest. *)
Definition _format_timestamp (ts_ns : Z) : res string :=
  (ts_seconds <- F64.int_truediv ts_ns 1000000000 ;;
   tv <- to_timeval ts_seconds ;;
   local_strftime (fst tv))%res.

Fixpoint _extract_timestamps (data : list record) : res (list Z) :=
  match data with
  | [] => Ok []
  | r :: rest =>
      let ts := por (por (get r "ts_event") (get r "ts_recv")) (get r "timestamp") in
      if truthy ts
      then (t <- py_int ts ;; l <- _extract_timestamps rest ;; Ok (t :: l))%res
      else _extract_timestamps rest
  end.

(** The fixed-point rescaling and [float(price)] of [_extract_prices]. *)
Definition to_price (price : pyval) : res F64.float :=
  match price with
  | VInt z => if 1000000 <? z then F64.int_truediv z 1000000000 else py_float price
  | _ => py_float price
  end.

Fixpoint _extract_prices (data : list record) : res (list F64.float) :=
  match data with
  | [] => Ok []
  | r :: rest =>
      match r !! "close", r !! "price" with
      | Some price, _ | None, Some price =>
          (p <- to_price price ;; l <- _extract_prices rest ;; Ok (p :: l))%res
      | None, None => _extract_prices rest
      end
  end.

Definition _estimate_expected_count (v : config) (data : list record) : option Z :=
  if str_contains "ohlcv" (schema v) then
    if str_contains "1h" (schema v) then None
    else if str_contains "1d" (schema v) then None
    else None
  else None.

Definition _get_required_fields (v : config) : list string :=
  let base_fields := ["ts_event"; "ts_recv"] in
  if str_contains "ohlcv" (schema v) then
    base_fields ++ ["open"; "high"; "low"; "close"; "volume"]
  else if String.eqb (schema v) "trades" then
    base_fields ++ ["price"; "size"]
  else if str_contains "mbp" (schema v) then
    base_fields ++ ["bid_px_00"; "ask_px_00"; "bid_sz_00"; "ask_sz_00"]
  else base_fields.


(** *** The five checks *)

#[local] Open Scope val_scope.

(** The loop of [check_timestamp_gaps] over [i] and the pair
    [sorted_ts[i]], [sorted_ts[i + 1]]; the list argument is
    [sorted_ts[i:]]. *)
Fixpoint gaps_loop (v : config) (i : Z) (sorted_ts : list Z) (gaps : list gap_info)
    : M (list gap_info) :=
  match sorted_ts with
  | [] => mret gaps
  | a :: rest =>
      match rest with
      | [] => mret gaps
      | b :: _ =>
          let gap_ns := b - a in
          gap_seconds <- lift (F64.int_truediv gap_ns 1000000000) ;;
          if F64.gt_int gap_seconds (max_gap_seconds v) then
            let gap_minutes := F64.div gap_seconds (F64.nearest 60) in
            before <- lift (_format_timestamp a) ;;
            after <- lift (_format_timestamp b) ;;
            let gap_info := {| index := i; gap_seconds := gap_seconds;
                               gap_minutes := gap_minutes;
                               before := before; after := after |} in
            _ <- append_issue (timestamp_gap gap_info) ;;
            gaps_loop v (i + 1) rest (gaps ++ [gap_info])
          else gaps_loop v (i + 1) rest gaps
      end
  end.

(** The division before the final [mret] is the one printed in
    ["Found ... gaps > {self.max_gap_seconds / 60} minutes"]. *)
Definition check_timestamp_gaps (v : config) (data : list record) : M check_report :=
  timestamps <- lift (_extract_timestamps data) ;;
  if len timestamps <? 2 then mret gaps_insufficient
  else
    let sorted_ts := merge_sort Z.le timestamps in
    gaps <- gaps_loop v 0 sorted_ts [] ;;
    let valid := len gaps =? 0 in
    _ <- lift (F64.int_truediv (max_gap_seconds v) 60) ;;
    mret (gaps_report valid (len gaps) (take 10 gaps) (len gaps)).

(** The issues of [check_duplicates], one per duplicate group. *)
Fixpoint duplicate_issues (duplicates : list (Z * Z)) : M unit :=
  match duplicates with
  | [] => mret tt
  | (ts, count) :: rest =>
      timestamp <- lift (_format_timestamp ts) ;;
      _ <- append_issue (duplicate_timestamp timestamp count) ;;
      duplicate_issues rest
  end.

Definition check_duplicates (v : config) (data : list record) : M check_report :=
  timestamps <- lift (_extract_timestamps data) ;;
  let timestamp_counts := fold_left (fun counts ts => incr Z.eqb ts counts) timestamps [] in
  let duplicates := List.filter (fun tc => 1 <? snd tc) timestamp_counts in
  _ <- duplicate_issues (take 10 duplicates) ;;
  let valid := len duplicates =? 0 in
  mret (duplicates_report valid (len duplicates) (len duplicates)).

(** [sum((p - mean_price) ** 2 for p in prices)]: [sum] takes the
    squares from the generator one at a time; [sum_sq_dev_from] is the
    part after the first square. *)
Fixpoint sum_sq_dev_from (mean_price : F64.float) (prices : list F64.float)
    (st : sum_state) : res sum_state :=
  match prices with
  | [] => Ok st
  | p :: rest =>
      (sq <- pow2 (F64.sub p mean_price) ;;
       sum_sq_dev_from mean_price rest (sum_step st sq))%res
  end.

Definition sum_sq_dev (mean_price : F64.float) (prices : list F64.float) : res F64.float :=
  match prices with
  | [] => Ok (S754_zero false)
  | p :: rest =>
      (sq <- pow2 (F64.sub p mean_price) ;;
       st <- sum_sq_dev_from mean_price rest (sum_first sq) ;;
       Ok (sum_end st))%res
  end.

(** The outlier loop of [check_price_range].  The message of an outlier
    issue divides by [std_dev]. *)
Fixpoint outliers_loop (v : config) (mean_price std_dev : F64.float)
    (prices : list F64.float) (outliers : list F64.float) : M (list F64.float) :=
  match prices with
  | [] => mret outliers
  | p :: rest =>
      if F64.ltb (F64.mul (price_outlier_std v) std_dev) (F64.abs (F64.sub p mean_price))
      then
        let outliers := outliers ++ [p] in
        if len outliers <=? 10 then
          _ <- lift (F64.truediv (F64.abs (F64.sub p mean_price)) std_dev) ;;
          _ <- append_issue (price_outlier p mean_price std_dev) ;;
          outliers_loop v mean_price std_dev rest outliers
        else outliers_loop v mean_price std_dev rest outliers
      else outliers_loop v mean_price std_dev rest outliers
  end.

Fixpoint negative_issues (negative_prices : list F64.float) : M unit :=
  match negative_prices with
  | [] => mret tt
  | p :: rest => _ <- append_issue (negative_price p) ;; negative_issues rest
  end.

(** [check_price_range] from the extracted [prices] on.  With a single
    price the deviation is the int [0], kept here as the float [0.0]. *)
Definition check_prices (v : config) (prices : list F64.float) : M check_report :=
  match prices with
  | [] => mret price_no_data
  | p0 :: _ =>
      let zero := S754_zero false in
      let negative_prices := List.filter (fun p => F64.ltb p zero) prices in
      let zero_prices := List.filter (fun p => F64.eqb p zero) prices in
      stats <-
        (if 1 <? len prices then
           let n := F64.nearest (len prices) in
           let mean_price := F64.div (fsum prices) n in
           total <- lift (sum_sq_dev mean_price prices) ;;
           let variance := F64.div total n in
           std_dev <- lift (pow_half variance) ;;
           outliers <- outliers_loop v mean_price std_dev prices [] ;;
           mret (outliers, mean_price, std_dev)
         else mret ([], p0, zero)) ;;
      let '(outliers, mean_price, std_dev) := stats in
      _ <- negative_issues (take 10 negative_prices) ;;
      let valid := (len negative_prices =? 0) && (len zero_prices =? 0) in
      mret (price_report valid (fmin prices) (fmax prices) mean_price std_dev
              (len negative_prices) (len zero_prices) (len outliers))
  end.

Definition check_price_range (v : config) (data : list record) : M check_report :=
  prices <- lift (_extract_prices data) ;;
  check_prices v prices.

(** [off] is the test [expected_count and abs(len(data) - expected_count)
    > (expected_count * 0.1)]. *)
Definition check_record_count (v : config) (data : list record) : M check_report :=
  let expected_count := _estimate_expected_count v data in
  off <-
    match expected_count with
    | Some e =>
        if e =? 0 then mret false
        else
          tenth <- lift (f <- F64.of_int e ;; Ok (F64.mul f (F64.div (F64.exact 1) (F64.exact 10))))%res ;;
          mret (F64.int_gt (Z.abs (len data - e)) tenth)
    | None => mret false
    end ;;
  if off then
    _ <- append_issue (unexpected_record_count (len data) (default 0 expected_count)) ;;
    mret (record_count_report false (len data) expected_count)
  else mret (record_count_report true (len data) expected_count).

(** [field not in record or record[field] is None] *)
Definition field_missing (r : record) (field : string) : bool :=
  match r !! field with
  | None | Some VNone => true
  | Some _ => false
  end.

(** The tally of [check_completeness] over the sampled records. *)
Definition tally_missing (required_fields : list string) (sample : list record)
    : list (string * Z) :=
  fold_left
    (fun missing_fields r =>
       fold_left
         (fun missing_fields field =>
            if field_missing r field then incr String.eqb field missing_fields
            else missing_fields)
         required_fields missing_fields)
    sample [].

Fixpoint missing_issues (missing_fields : list (string * Z)) : M unit :=
  match missing_fields with
  | [] => mret tt
  | (field, count) :: rest =>
      _ <- append_issue (missing_field field count) ;; missing_issues rest
  end.

Definition check_completeness (v : config) (data : list record) : M check_report :=
  match data with
  | [] => mret completeness_no_data
  | _ =>
      let required_fields := _get_required_fields v in
      let missing_fields := tally_missing required_fields (take 100 data) in
      _ <- missing_issues missing_fields ;;
      let valid := len missing_fields =? 0 in
      mret (completeness_report valid missing_fields)
  end.

(** *** [validate] *)

Definition validate (v : config) (data : list record) : M report :=
  let report := {| total_records := len data; valid := true; checks := []; issues := None |} in
  match data with
  | [] => mret {| total_records := total_records report; valid := false;
                  checks := checks report; issues := issues report |}
  | _ =>
      c1 <- check_timestamp_gaps v data ;;
      c2 <- check_duplicates v data ;;
      c3 <- check_price_range v data ;;
      c4 <- check_record_count v data ;;
      c5 <- check_completeness v data ;;
      let checks := [("timestamp_gaps", c1); ("duplicates", c2); ("price_range", c3);
                     ("record_count", c4); ("data_completeness", c5)] in
      mret {| total_records := total_records report;
              valid := forallb (fun c => check_valid (snd c)) checks;
              checks := checks;
              issues := Some self_issues |}
  end.

(** [print_report], as far as it can fail: it prints the totals and the
    checks and then reads [report["issues"]]. *)
Definition print_report (rep : report) (s : list issue) : res unit :=
  (_ <- report_issues rep s ;; Ok tt)%res.

End WithHost.

End DataValidator.

(** ** A concrete host: local zone UTC, a correctly rounded [pow] that
    leaves [errno] alone, the [sum] of CPython 3.11 *)

Module UtcHost.
#[local] Open Scope res_scope.

(** A [str] is taken as its code points, all below 256. *)
Definition code (c : ascii) : Z := Z.of_N (N_of_ascii c).

(** The characters [int] and [float] strip from both ends: those
    [str.isspace] accepts (tab to carriage return, the four separators
    28 to 31, space, NEL and the no-break space). *)
Definition is_blank (c : ascii) : bool :=
  let n := code c in
  ((9 <=? n) && (n <=? 13)) || ((28 <=? n) && (n <=? 32)) || (n =? 133) || (n =? 160).

Fixpoint lstrip (s : string) : string :=
  match s with
  | String c s' => if is_blank c then lstrip s' else s
  | EmptyString => s
  end.

Fixpoint rstrip (s : string) : string :=
  match s with
  | String c s' =>
      match rstrip s' with
      | EmptyString => if is_blank c then EmptyString else String c EmptyString
      | t => String c t
      end
  | EmptyString => s
  end.

(** The value of a decimal digit. *)
Definition digit (c : ascii) : option Z :=
  let n := code c in
  if (48 <=? n) && (n <=? 57) then Some (n - 48) else None.

Definition starts_with_digit (s : string) : bool :=
  match s with
  | String c _ => match digit c with Some _ => true | None => false end
  | EmptyString => false
  end.

(** A leading sign, as a flag, and the rest. *)
Definition sign (s : string) : bool * string :=
  match s with
  | String "-" s' => (true, s')
  | String "+" s' => (false, s')
  | _ => (false, s)
  end.

(** The digits of an [int] literal, read onto [acc]: single underscores
    may stand between digits.  The result is the value and the number of
    digits. *)
Fixpoint int_digits (s : string) (acc count : Z) : option (Z * Z) :=
  match s with
  | EmptyString => Some (acc, count)
  | String c s' =>
      match digit c with
      | Some d => int_digits s' (10 * acc + d) (count + 1)
      | None =>
          if Ascii.eqb c "_" && starts_with_digit s' then int_digits s' acc count
          else None
      end
  end.

(** [int(s)]: blanks stripped, an optional sign, digits with single
    underscores between them; more than 4300 digits (the default
    [int_max_str_digits]) are refused.  Anything else is a
    [ValueError]. *)
Definition parse_int (s : string) : res Z :=
  let '(neg, body) := sign (rstrip (lstrip s)) in
  if starts_with_digit body then
    match int_digits body 0 0 with
    | Some (n, count) =>
        if 4300 <? count then Raise ValueError else Ok (if neg then - n else n)
    | None => Raise ValueError
    end
  else Raise ValueError.

(** [s] without its underscores, each of which must stand between two
    digits. *)
Fixpoint drop_underscores (prev_digit : bool) (s : string) : option string :=
  match s with
  | EmptyString => Some EmptyString
  | String c s' =>
      if Ascii.eqb c "_" then
        if prev_digit && starts_with_digit s' then drop_underscores false s' else None
      else
        match drop_underscores (starts_with_digit s) s' with
        | Some t => Some (String c t)
        | None => None
        end
  end.

(** A run of digits read onto [acc]: the value, the number of digits and
    what follows. *)
Fixpoint span_digits (s : string) (acc count : Z) : Z * Z * string :=
  match s with
  | EmptyString => (acc, count, s)
  | String c s' =>
      match digit c with
      | Some d => span_digits s' (10 * acc + d) (count + 1)
      | None => (acc, count, s)
      end
  end.

(** A decimal literal [ddd], [ddd.ddd], [.ddd] or [ddd.], with an
    optional exponent, as [(n, e)] for the value [n * 10^e]. *)
Definition parse_decimal (body : string) : option (Z * Z) :=
  let '(ip, ni, r1) := span_digits body 0 0 in
  let '(n, nf, r2) :=
    match r1 with
    | String "." r => span_digits r ip 0
    | _ => (ip, 0, r1)
    end in
  if ni + nf =? 0 then None
  else
    match r2 with
    | EmptyString => Some (n, - nf)
    | String c r3 =>
        if Ascii.eqb c "e" || Ascii.eqb c "E" then
          let '(neg, r4) := sign r3 in
          let '(ex, ne, r5) := span_digits r4 0 0 in
          match r5 with
          | EmptyString =>
              if ne =? 0 then None else Some (n, (if neg then - ex else ex) - nf)
          | String _ _ => None
          end
        else None
    end.

(** The double nearest to [n * 10^e], for [n >= 0]. *)
Definition decimal_value (n e : Z) : F64.float :=
  if 0 <=? e then F64.nearest (n * 10 ^ e)
  else F64.div (F64.exact n) (F64.exact (10 ^ (- e))).

Definition lower (c : ascii) : ascii :=
  let n := code c in
  if (65 <=? n) && (n <=? 90) then ascii_of_N (Z.to_N (n + 32)) else c.

Fixpoint lowercase (s : string) : string :=
  match s with
  | EmptyString => EmptyString
  | String c s' => String (lower c) (lowercase s')
  end.

(** [float(s)]: blanks stripped, underscores between digits dropped, an
    optional sign, then [inf], [infinity] or [nan] in any case, or a
    decimal literal, which is rounded to the nearest double (to an
    infinity beyond the range).  Anything else is a [ValueError]. *)
Definition parse_float (s : string) : res F64.float :=
  match drop_underscores false (rstrip (lstrip s)) with
  | None => Raise ValueError
  | Some t =>
      let '(neg, body) := sign t in
      let word := lowercase body in
      if String.eqb word "inf" || String.eqb word "infinity" then Ok (S754_infinity neg)
      else if String.eqb word "nan" then Ok S754_nan
      else
        match parse_decimal body with
        | Some (n, e) =>
            let f := decimal_value n e in
            Ok (match f with
                | S754_zero _ => S754_zero neg
                | _ => if neg then SFopp f else f
                end)
        | None => Raise ValueError
        end
  end.

(** C [pow] as a correctly rounded library gives it for the exponents
    [2] and [0.5], the only ones the validator passes; errors are not
    reported through [errno]. *)
Definition pow (x y : F64.float) : F64.float * errno :=
  (if F64.eqb y two then F64.mul x x
   else if F64.eqb y half then F64.sqrt x
   else S754_nan,
   no_error).

(** Year, month and day of the day [days] after 1970-01-01 on the
    proleptic Gregorian calendar. *)
Definition civil_from_days (days : Z) : Z * Z * Z :=
  let z := days + 719468 in
  let era := z `div` 146097 in
  let doe := z - era * 146097 in
  let yoe := (doe - doe `div` 1460 + doe `div` 36524 - doe `div` 146096) `div` 365 in
  let doy := doe - (365 * yoe + yoe `div` 4 - yoe `div` 100) in
  let mp := (5 * doy + 2) `div` 153 in
  let d := doy - (153 * mp + 2) `div` 5 + 1 in
  let m := if mp <? 10 then mp + 3 else mp - 9 in
  let y := yoe + era * 400 + (if m <=? 2 then 1 else 0) in
  (y, m, d).

(** Two digits, zero-padded. *)
Definition pad2 (n : Z) : string :=
  String.append (if n <? 10 then "0" else EmptyString) (pretty n).

(** ["%Y-%m-%d %H:%M:%S"] of the UTC time [sec] seconds after the epoch.
    A naive [fromtimestamp] also converts the instant one day earlier, to
    detect a repeated local hour, so that one must be in range too. *)
Definition strftime_utc (sec : Z) : res string :=
  if Datetime.in_range sec && Datetime.in_range (sec - 86400) then
    let '(y, m, d) := civil_from_days (sec `div` 86400) in
    let tod := sec `mod` 86400 in
    Ok (String.concat EmptyString
          [pretty y; "-"; pad2 m; "-"; pad2 d; " ";
           pad2 (tod `div` 3600); ":"; pad2 ((tod `mod` 3600) `div` 60); ":";
           pad2 (tod `mod` 60)])
  else Raise RangeError.

#[export] Instance utc_host : Host := {|
  int_of_str := parse_int;
  float_of_str := parse_float;
  local_strftime := strftime_utc;
  libm_pow := pow;
  sum_compensates := false;
|}.

End UtcHost.


(* ================================================================= *)
(** * Part II: the vocabulary of the properties, and sample inputs *)
(* ================================================================= *)

Module Vocabulary.
Import SessionFilter DataValidator.
#[local] Open Scope res_scope.

(** The names [main] accepts for [--session]. *)
Definition all_session_names : list string := ["Asian"; "London"; "NY"].

(** The ET hour [filter_by_session] tests for a record. *)
Definition record_et_hour `{Host} (r : record) : res Z :=
  t <- py_int (derived_ts r) ;;
  dt_et <- to_et t ;;
  Ok (Datetime.hour dt_et).

(** A record has a usable timestamp if the derived value is truthy. *)
Definition usable (r : record) : bool := truthy (derived_ts r).

(** The timestamp of a usable record can be placed on the ET clock. *)
Definition placeable `{Host} (r : record) : Prop :=
  usable r = true -> exists h, record_et_hour r = Ok h.

(** Usable, and not in the post-market hours 16 and 17. *)
Definition in_some_window `{Host} (r : record) : bool :=
  usable r &&
  match record_et_hour r with
  | Ok h => negb ((16 <=? h) && (h <? 18))
  | Raise _ => false
  end.

(** 1970-01-01 21:00 UTC, 16:00 ET. *)
Definition record_1600 : record := {[ "ts_event" := VInt 75600000000000 ]}.
(** 1970-01-01 14:30 UTC, 09:30 ET. *)
Definition record_0930 : record := {[ "ts_event" := VInt 52200000000000 ]}.
(** 1970-01-01 13:00 UTC, 08:00 ET. *)
Definition record_0800 : record := {[ "ts_event" := VInt 46800000000000 ]}.
(** 1970-01-01 13:31 UTC, 08:31 ET. *)
Definition record_0831 : record := {[ "ts_event" := VInt 48660000000000 ]}.
(** 1970-01-01 14:01 UTC, 09:01 ET. *)
Definition record_0901 : record := {[ "ts_event" := VInt 50460000000000 ]}.
(** A record without any timestamp field. *)
Definition record_no_ts : record := {[ "close" := VInt 100 ]}.

(** The fields a timestamp is looked for in, in priority order. *)
Definition ts_fields : list string := ["ts_event"; "ts_recv"; "timestamp"].

(** A record whose event time is 0 and whose receipt time is not. *)
Definition record_event_zero : record := {[ "ts_event" := VInt 0; "ts_recv" := VInt 5000 ]}.
(** A record whose only timestamp field holds 0. *)
Definition record_only_zero : record := {[ "ts_recv" := VInt 0; "close" := VInt 100 ]}.

(** A computation only ever appends to [self.issues]: run on a list [s]
    it behaves as on the empty list, with [s] in front of what it adds. *)
Definition appends {A} (c : M A) : Prop :=
  forall s, c s = (fst (c []), s ++ snd (c [])).

(** The default outlier threshold, [10.0]. *)
Definition ten : F64.float := F64.nearest 10.

(** A trade with a negative price, and a well-formed one. *)
Definition trade_negative : record :=
  {[ "ts_event" := VInt 1000; "ts_recv" := VInt 1000; "price" := VInt (-5); "size" := VInt 1 ]}.
Definition trade_good : record :=
  {[ "ts_event" := VInt 1000; "ts_recv" := VInt 1000; "price" := VInt 100; "size" := VInt 1 ]}.

(** A bar that carries only its close. *)
Definition bar (close : Z) : record := {[ "close" := VInt close ]}.

(** A record that carries only its event time. *)
Definition tick (ts_event : Z) : record := {[ "ts_event" := VInt ts_event ]}.

(** 2023-11-14 22:13:20 UTC, in nanoseconds. *)
Definition t0 : Z := 1700000000000000000.

(** Two ticks 60 minutes apart, and two ticks 61 minutes apart given
    latest first. *)
Definition ticks_at_limit : list record := [tick t0; tick (t0 + 60 * 60 * 10 ^ 9)].
Definition ticks_over_limit : list record := [tick (t0 + 61 * 60 * 10 ^ 9); tick t0].

Definition gap_61 : gap_info :=
  {| index := 0; gap_seconds := F64.nearest 3660; gap_minutes := F64.nearest 61;
     before := "2023-11-14 22:13:20"; after := "2023-11-14 23:14:20" |}.

End Vocabulary.
Export Vocabulary.

(** ** Further vocabulary *)

Module FilterVocabulary.
Import SessionFilter.

(** Usable, and stamped at an ET hour inside one of the given windows. *)
Definition in_windows `{Host} (session_enums : list TradingSession) (r : record) : bool :=
  usable r &&
  match record_et_hour r with
  | Ok h => existsb (hour_in_session h) session_enums
  | Raise _ => false
  end.

End FilterVocabulary.
Export FilterVocabulary.

Module StatsVocabulary.
Import SessionFilter SessionStats.

(** The integer a ["volume"] entry adds to an integer total; [None] if the
    entry is not an [int] or [bool]. *)
Definition int_volume (r : record) : option Z :=
  match r !! "volume" with
  | None => Some 0
  | Some (VInt z) => Some z
  | Some (VBool b) => Some (if b then 1 else 0)
  | Some _ => None
  end.

(** The sum of the integer volumes of [l]. *)
Definition volume_sum (l : list record) : Z :=
  foldr (fun r acc => default 0 (int_volume r) + acc) 0 l.

(** The records of [l] that have a ["size"] key. *)
Definition sized (l : list record) : list record :=
  List.filter (fun r => bool_decide (is_Some (r !! "size"))) l.

(** An entry [s] with an integer volume, after the records of [bucket],
    whose volumes are integers, have been counted into it. *)
Definition bump (s : session_stats) (bucket : list record) : session_stats :=
  {| count := count s + Z.of_nat (length bucket);
     volume := match volume s with
               | NInt a => NInt (a + volume_sum bucket)
               | NFloat f => NFloat f
               end;
     trades := trades s + Z.of_nat (length (sized bucket));
     percentage := percentage s |}.

(** The [stats] dict with the given entries. *)
Definition three (a l n : session_stats) : stats_dict :=
  [("Asian", a); ("London", l); ("NY", n)].

(** A JSON value that cannot be added to a number. *)
Definition not_a_number (v : pyval) : bool :=
  match v with
  | VNone | VStr _ | VList _ | VDict _ => true
  | VBool _ | VInt _ | VFloat _ => false
  end.

(** The statistics of an empty data set. *)
Definition zero_stats : session_stats :=
  {| count := 0; volume := NInt 0; trades := 0; percentage := Some (NInt 0) |}.

End StatsVocabulary.
Export StatsVocabulary.

Module TransitionVocabulary.
Import SessionFilter.





End TransitionVocabulary.
Export TransitionVocabulary.

Module ValidatorVocabulary.
Import DataValidator.

(** How often [key] occurs in [l]. *)
Definition occurrences {K} (eqb : K -> K -> bool) (key : K) (l : list K) : Z :=
  len (List.filter (eqb key) l).

(** [counts[key]] on a tally kept as a list, [0] for an absent key. *)
Fixpoint count_of {K} (eqb : K -> K -> bool) (key : K) (counts : list (K * Z)) : Z :=
  match counts with
  | [] => 0
  | (k, c) :: rest => if eqb k key then c else count_of eqb key rest
  end.

(** The sampled records in which [field] is absent or [None]. *)
Definition lacking (field : string) (sample : list record) : list record :=
  List.filter (fun r => field_missing r field) sample.

(** A record is complete if it lacks none of the required fields. *)
Definition complete (required_fields : list string) (r : record) : Prop :=
  Forall (fun field => field_missing r field = false) required_fields.

End ValidatorVocabulary.
Export ValidatorVocabulary.

Module GapVocabulary.

(** The differences between neighbours of a list. *)
Fixpoint adjacent_gaps (l : list Z) : list Z :=
  match l with
  | [] => []
  | a :: rest =>
      match rest with
      | [] => []
      | b :: _ => (b - a) :: adjacent_gaps rest
      end
  end.

(** The gaps, in seconds, between neighbours of the sorted timestamps
    that exceed [limit] seconds. *)
Definition long_gaps (limit : Z) (seconds : list Z) : list Z :=
  List.filter (fun g => limit <? g) (adjacent_gaps (merge_sort Z.le seconds)).

End GapVocabulary.
Export GapVocabulary.

Module PriceVocabulary.

(** The squares [(p - mean) ** 2] of the deviations of all of [prices]
    from [mean], in the order of the prices. *)
Definition squared_deviations `{Host} (mean : F64.float) (prices : list F64.float)
    : res (list F64.float) :=
  map_res (fun p => pow2 (F64.sub p mean)) prices.

(** Five bars with the closes 100, 100, 100, 100 and -5. *)
Definition sample_closes : list record :=
  [bar 100; bar 100; bar 100; bar 100; bar (-5)].

(** The host's [pow] returns the three exact powers the statistics of
    [sample_closes] call for, [21 ** 2], [84 ** 2] and [1764 ** 0.5], as
    does any [pow] whose error stays below one unit in the last place,
    and reports no error for them. *)
Definition pow_exact_on_sample `{Host} : Prop :=
  libm_pow (F64.nearest 21) two = (F64.nearest 441, no_error) /\
  libm_pow (F64.nearest 84) two = (F64.nearest 7056, no_error) /\
  libm_pow (F64.nearest 1764) half = (F64.nearest 42, no_error).

End PriceVocabulary.
Export PriceVocabulary.

Module NeighbourVocabulary.
Import DataValidator.

(** The pairs of neighbours of [l] with their positions: [(i, a, b)] for
    [a = l[i - start]] and [b = l[i - start + 1]]. *)
Fixpoint neighbours (start : Z) (l : list Z) : list (Z * Z * Z) :=
  match l with
  | [] => []
  | a :: rest =>
      match rest with
      | [] => []
      | b :: _ => (start, a, b) :: neighbours (start + 1) rest
      end
  end.

(** [gap_ns / 1_000_000_000 > limit]; [false] where the division raises. *)
Definition exceeds (limit : Z) (gap_ns : Z) : bool :=
  match F64.int_truediv gap_ns 1000000000 with
  | Ok gap_seconds => F64.gt_int gap_seconds limit
  | Raise _ => false
  end.

(** The pair lies more than [limit] seconds apart. *)
Definition long_pair (limit : Z) (pair : Z * Z * Z) : bool :=
  let '(_, a, b) := pair in exceeds limit (b - a).

(** The entry [g] of [gaps] is the one of the pair [(i, a, b)]. *)
Definition describes `{Host} (g : gap_info) (pair : Z * Z * Z) : Prop :=
  let '(i, a, b) := pair in
  index g = i /\
  F64.int_truediv (b - a) 1000000000 = Ok (gap_seconds g) /\
  gap_minutes g = F64.div (gap_seconds g) (F64.nearest 60) /\
  _format_timestamp a = Ok (before g) /\
  _format_timestamp b = Ok (after g).

(** One end of the pair cannot be formatted. *)
Definition unformattable `{Host} (pair : Z * Z * Z) : Prop :=
  let '(_, a, b) := pair in
  (exists e, _format_timestamp a = Raise e) \/ (exists e, _format_timestamp b = Raise e).

(** The loop raises at the pair: the division raises, or the pair is a
    gap and one of its ends cannot be formatted. *)
Definition stops `{Host} (limit : Z) (pair : Z * Z * Z) : Prop :=
  let '(_, a, b) := pair in
  match F64.int_truediv (b - a) 1000000000 with
  | Raise _ => True
  | Ok _ => long_pair limit pair = true /\ unformattable pair
  end.

(** Three ticks: the second 60 minutes after the first, the third 3 hours
    after the second. *)
Definition ticks_late_gap : list record :=
  [tick t0; tick (t0 + 60 * 60 * 10 ^ 9); tick (t0 + 240 * 60 * 10 ^ 9)].

Definition gap_180 : gap_info :=
  {| index := 1; gap_seconds := F64.nearest 10800; gap_minutes := F64.nearest 180;
     before := "2023-11-14 23:13:20"; after := "2023-11-15 02:13:20" |}.

End NeighbourVocabulary.
Export NeighbourVocabulary.

Module Samples.

(** 1970-01-01 08:00 UTC, 03:00 ET. *)
Definition record_0300 : record := {[ "ts_event" := VInt 28800000000000 ]}.
(** A record whose timestamp is a list. *)
Definition record_bad_ts : record := {[ "ts_event" := VList [VInt 1] ]}.
(** A trade stamped 09:30 ET and a bar stamped 03:00 ET. *)
Definition ny_trade : record :=
  {[ "ts_event" := VInt 52200000000000; "volume" := VInt 7; "size" := VInt 1 ]}.
Definition london_bar : record :=
  {[ "ts_event" := VInt 28800000000000; "volume" := VInt 5 ]}.
(** A bar stamped 09:30 ET whose volume is [null]. *)
Definition null_volume_bar : record :=
  {[ "ts_event" := VInt 52200000000000; "volume" := VNone ]}.
(** A bar stamped 09:30 ET whose volume is the float [2.0]. *)
Definition float_volume_bar : record :=
  {[ "ts_event" := VInt 52200000000000; "volume" := VFloat (F64.nearest 2) ]}.
(** A trade without its size. *)
Definition trade_without_size : record :=
  {[ "ts_event" := VInt 1000; "ts_recv" := VInt 1000; "price" := VInt 100 ]}.

End Samples.
Export Samples.

(* ================================================================= *)
(** * Part III: properties *)
(* ================================================================= *)

(** ** Facts about the binary64 operations *)

Module F64Facts.
Import F64.

(** The digit count of SpecFloat is the binary logarithm plus one. *)
Lemma digits2_pos_size p : digits2_pos p = Pos.size p.
Proof. induction p; simpl; congruence. Qed.

Lemma Zdigits2_log2 n : 0 < n -> Zdigits2 n = Z.log2 n + 1.
Proof.
  destruct n as [|p|p]; try lia. intros _. simpl.
  rewrite digits2_pos_size. destruct p; simpl; lia.
Qed.

Lemma shr_m_shr_1 r : 0 <= shr_m r -> shr_m (shr_1 r) = shr_m r `div` 2.
Proof.
  destruct r as [m rb sb]. cbn [shr_m]. intros Hm.
  destruct m as [|[p|p|]|p]; cbn [shr_1 shr_m]; try lia; try reflexivity.
  - rewrite Pos2Z.inj_xI. apply Z.div_unique with 1; lia.
  - rewrite Pos2Z.inj_xO. apply Z.div_unique with 0; lia.
Qed.

Lemma shr_m_iter p : forall r, 0 <= shr_m r ->
  shr_m (SpecFloat.iter_pos shr_1 p r) = shr_m r `div` 2 ^ Z.pos p.
Proof.
  induction p as [p IH|p IH|]; intros r Hr; cbn [SpecFloat.iter_pos].
  - assert (H1 : 0 <= shr_m (shr_1 r)) by (rewrite shr_m_shr_1 by lia; apply Z.div_pos; lia).
    assert (H2 : 0 <= shr_m (SpecFloat.iter_pos shr_1 p (shr_1 r))) by (rewrite IH by lia; apply Z.div_pos; lia).
    rewrite IH by lia. rewrite IH by lia. rewrite shr_m_shr_1 by lia.
    rewrite !Z.div_div by lia. f_equal.
    rewrite Pos2Z.inj_xI. rewrite <- Z.pow_add_r by lia.
    replace (2 * Z.pos p + 1) with (1 + (Z.pos p + Z.pos p)) by lia.
    rewrite (Z.pow_add_r 2 1) by lia. reflexivity.
  - assert (H2 : 0 <= shr_m (SpecFloat.iter_pos shr_1 p r)) by (rewrite IH by lia; apply Z.div_pos; lia).
    rewrite IH by lia. rewrite IH by lia.
    rewrite !Z.div_div by lia. f_equal.
    rewrite Pos2Z.inj_xO. rewrite <- Z.pow_add_r by lia. f_equal. lia.
  - rewrite shr_m_shr_1 by lia. reflexivity.
Qed.

Lemma Zdigits2_nonneg n : 0 <= Zdigits2 n.
Proof. destruct n; simpl; lia. Qed.

Lemma Zdigits2_mul_pow2 m k : 0 < m -> 0 <= k -> Zdigits2 (m * 2 ^ k) = Zdigits2 m + k.
Proof.
  intros Hm Hk. rewrite !Zdigits2_log2 by (try apply Z.mul_pos_pos; lia).
  rewrite Z.log2_mul_pow2 by lia. lia.
Qed.

Lemma shr_1_exact m : 0 < m -> (2 | m) ->
  shr_1 (Build_shr_record m false false) = Build_shr_record (m `div` 2) false false.
Proof.
  intros Hm [k ->]. rewrite Z.div_mul by lia.
  destruct k as [|p|p]; try lia.
  replace (Z.pos p * 2) with (Z.pos p~0) by lia. reflexivity.
Qed.

Lemma iter_shr_exact p : forall m, 0 < m -> (2 ^ Z.pos p | m) ->
  SpecFloat.iter_pos shr_1 p (Build_shr_record m false false)
  = Build_shr_record (m `div` 2 ^ Z.pos p) false false.
Proof.
  induction p as [p IH|p IH|]; intros m Hm [k Hk]; cbn [SpecFloat.iter_pos].
  - assert (E : m = k * 2 ^ Z.pos p * 2 ^ Z.pos p * 2).
    { rewrite Hk. replace (Z.pos p~1) with (Z.pos p + Z.pos p + 1) by lia.
      rewrite !Z.pow_add_r, Z.pow_1_r by lia. ring. }
    assert (0 < 2 ^ Z.pos p) by (apply Z.pow_pos_nonneg; lia).
    assert (0 < k) by nia.
    rewrite shr_1_exact by (try lia; exists (k * 2 ^ Z.pos p * 2 ^ Z.pos p); lia).
    rewrite E at 1. rewrite Z.div_mul by lia.
    rewrite IH by (try nia; exists (k * 2 ^ Z.pos p); lia).
    rewrite Z.div_mul by lia.
    rewrite IH by (try nia; exists k; lia).
    rewrite Z.div_mul by lia.
    f_equal. rewrite Hk. rewrite Z.div_mul by (apply Z.pow_nonzero; lia). reflexivity.
  - assert (E : m = k * 2 ^ Z.pos p * 2 ^ Z.pos p).
    { rewrite Hk. replace (Z.pos p~0) with (Z.pos p + Z.pos p) by lia.
      rewrite Z.pow_add_r by lia. ring. }
    assert (0 < 2 ^ Z.pos p) by (apply Z.pow_pos_nonneg; lia).
    assert (0 < k) by nia.
    rewrite IH by (try lia; exists (k * 2 ^ Z.pos p); lia).
    rewrite E at 1. rewrite Z.div_mul by lia.
    rewrite IH by (try nia; exists k; lia).
    rewrite Z.div_mul by lia.
    f_equal. rewrite Hk. rewrite Z.div_mul by (apply Z.pow_nonzero; lia). reflexivity.
  - apply shr_1_exact; [lia|]. exists k. rewrite Hk. reflexivity.
Qed.

Lemma fexp64_eq x : fexp64 x = Z.max (x - 53) (-1074).
Proof. reflexivity. Qed.

(** Rounding a value that needs no rounding. *)
Lemma binary_round_aux_exact sx m e :
  0 < m ->
  let n := Z.max 0 (fexp64 (Zdigits2 m + e) - e) in
  (2 ^ n | m) ->
  e + n <= 971 ->
  binary_round_aux 53 1024 sx m e loc_Exact
  = S754_finite sx (Z.to_pos (m `div` 2 ^ n)) (e + n).
Proof.
  intros Hm n Hdiv Hle. unfold binary_round_aux, shr_fexp. fold fexp64.
  set (t := fexp64 (Zdigits2 m + e)) in *.
  destruct (Z_le_gt_dec (t - e) 0) as [Hn|Hn].
  - assert (n = 0) as Hn0 by lia. rewrite Hn0 in *. rewrite Z.pow_0_r, Z.div_1_r, Z.add_0_r.
    assert (Hshr : shr (shr_record_of_loc m loc_Exact) e (t - e)
                   = (Build_shr_record m false false, e)).
    { unfold shr. destruct (t - e); try lia; reflexivity. }
    rewrite Hshr. cbn [shr_m loc_of_shr_record round_nearest_even].
    fold t. rewrite Hshr. cbn [shr_m].
    destruct m as [|p|p]; try lia.
    replace (e <=? 1024 - 53) with true by (symmetry; apply Z.leb_le; lia).
    reflexivity.
  - assert (n = t - e) as Hn0 by lia.
    destruct Hdiv as [k Hk].
    assert (0 < 2 ^ n) by (apply Z.pow_pos_nonneg; lia).
    assert (0 < k) by nia.
    assert (Hq : m `div` 2 ^ n = k) by (rewrite Hk; apply Z.div_mul; lia).
    assert (Hshr : shr (shr_record_of_loc m loc_Exact) e (t - e)
                   = (Build_shr_record k false false, t)).
    { unfold shr. rewrite <- Hn0. destruct n as [|p|p] eqn:En; try lia.
      cbn [shr_record_of_loc]. rewrite iter_shr_exact by (try lia; exists k; lia).
      rewrite Hq. f_equal. lia. }
    rewrite Hshr. cbn [shr_m loc_of_shr_record round_nearest_even].
    assert (Hd : Zdigits2 k + t = Zdigits2 m + e).
    { rewrite Hk, Zdigits2_mul_pow2 by lia. lia. }
    rewrite Hd. fold t.
    assert (Hshr2 : shr (shr_record_of_loc k loc_Exact) t (t - t)
                    = (Build_shr_record k false false, t)).
    { rewrite Z.sub_diag. reflexivity. }
    rewrite Hshr2. cbn [shr_m]. rewrite Hq.
    destruct k as [|p|p]; try lia.
    replace (e + n) with t by lia.
    replace (t <=? 1024 - 53) with true by (symmetry; apply Z.leb_le; lia).
    reflexivity.
Qed.

Lemma Zdigits2_mono a b : 0 <= a <= b -> Zdigits2 a <= Zdigits2 b.
Proof.
  intros [Ha Hab]. destruct (Z.eq_dec a 0) as [->|Hne]; [apply Zdigits2_nonneg|].
  rewrite !Zdigits2_log2 by lia. pose proof (Z.log2_le_mono a b Hab). lia.
Qed.

Lemma Zdigits2_succ a : 0 <= a -> Zdigits2 (a + 1) <= Zdigits2 a + 1.
Proof.
  intros Ha. destruct (Z.eq_dec a 0) as [->|Hne]; [vm_compute; discriminate|].
  rewrite !Zdigits2_log2 by lia. pose proof (Z.log2_succ_le a) as Hs.
  replace (Z.succ a) with (a + 1) in Hs by lia. lia.
Qed.

Lemma Zdigits2_div_pow2 a k :
  0 <= a -> 0 <= k -> Zdigits2 (a `div` 2 ^ k) <= Z.max 0 (Zdigits2 a - k).
Proof.
  intros Ha Hk. destruct (Z.eq_dec (a `div` 2 ^ k) 0) as [->|Hne]; [cbn; lia|].
  assert (0 < 2 ^ k) by (apply Z.pow_pos_nonneg; lia).
  assert (0 <= a `div` 2 ^ k) by (apply Z.div_pos; lia).
  assert (0 < a) by (destruct (Z.eq_dec a 0) as [->|]; [rewrite Z.div_0_l in Hne; lia | lia]).
  rewrite !Zdigits2_log2 by lia.
  rewrite <- Z.shiftr_div_pow2, Z.log2_shiftr by lia.
  assert (k <= Z.log2 a).
  { apply Z.log2_le_pow2; [lia|]. destruct (Z_lt_le_dec a (2 ^ k)); [|lia].
    rewrite Z.div_small in Hne; lia. }
  lia.
Qed.

Lemma shr_spec r e n r' e' :
  shr r e n = (r', e') -> 0 <= shr_m r ->
  e' = e + Z.max 0 n /\ shr_m r' = shr_m r `div` 2 ^ Z.max 0 n.
Proof.
  unfold shr. intros E Hr. destruct n as [|p|p]; inversion E; subst; clear E.
  - rewrite Z.pow_0_r, Z.div_1_r. lia.
  - split; [lia|]. apply shr_m_iter. exact Hr.
  - replace (Z.max 0 (Z.neg p)) with 0 by lia. rewrite Z.pow_0_r, Z.div_1_r. lia.
Qed.

Lemma shr_m_of_loc m l : shr_m (shr_record_of_loc m l) = m.
Proof. destruct l as [|[]]; reflexivity. Qed.

Lemma round_nearest_even_bounds m l : m <= round_nearest_even m l <= m + 1.
Proof. destruct l as [|[]]; cbn; try lia. destruct (Z.even m); lia. Qed.

(** Rounding stays finite when the value is far below [2^1024]. *)
Lemma binary_round_aux_not_inf sx m e l :
  0 <= m -> e <= 971 -> Zdigits2 m + e <= 1023 ->
  F64.is_inf (binary_round_aux 53 1024 sx m e l) = false.
Proof.
  intros Hm He Hd. unfold binary_round_aux, shr_fexp. fold fexp64.
  destruct (shr (shr_record_of_loc m l) e (fexp64 (Zdigits2 m + e) - e))
    as [mrs' e'] eqn:E1.
  apply shr_spec in E1; [|rewrite shr_m_of_loc; exact Hm].
  rewrite shr_m_of_loc in E1. destruct E1 as [He' Hm'].
  set (k := Z.max 0 (fexp64 (Zdigits2 m + e) - e)) in *.
  set (m1 := round_nearest_even (shr_m mrs') (loc_of_shr_record mrs')).
  assert (0 < 2 ^ k) by (apply Z.pow_pos_nonneg; lia).
  assert (0 <= shr_m mrs') by (rewrite Hm'; apply Z.div_pos; lia).
  pose proof (round_nearest_even_bounds (shr_m mrs') (loc_of_shr_record mrs')) as Hr.
  fold m1 in Hr.
  destruct (shr (shr_record_of_loc m1 loc_Exact) e' (fexp64 (Zdigits2 m1 + e') - e'))
    as [mrs'' e''] eqn:E2.
  apply shr_spec in E2; [|cbn; lia]. destruct E2 as [He'' _].
  destruct (shr_m mrs''); try reflexivity.
  assert (Hfe : fexp64 (Zdigits2 m + e) <= 970) by (rewrite fexp64_eq; lia).
  assert (Hk : e' <= 971) by lia.
  assert (Hd1 : Zdigits2 m1 + e' <= 1024).
  { pose proof (Zdigits2_mono m1 (shr_m mrs' + 1) ltac:(lia)).
    pose proof (Zdigits2_succ (shr_m mrs') ltac:(lia)).
    pose proof (Zdigits2_div_pow2 m k Hm ltac:(lia)) as Hdiv. rewrite <- Hm' in Hdiv.
    lia. }
  assert (e'' <= 971) by (rewrite He'', fexp64_eq; lia).
  replace (e'' <=? 1024 - 53) with true by (symmetry; apply Z.leb_le; lia).
  reflexivity.
Qed.

Lemma div_eucl_div_mod a b : Z.div_eucl a b = (a `div` b, a `mod` b).
Proof. unfold Z.div, Z.modulo. destruct (Z.div_eucl a b); reflexivity. Qed.

Lemma Zdigits2_pow2 s : 0 <= s -> Zdigits2 (2 ^ s) = s + 1.
Proof.
  intros Hs. rewrite Zdigits2_log2 by (apply Z.pow_pos_nonneg; lia).
  rewrite Z.log2_pow2 by lia. reflexivity.
Qed.

Lemma SFdiv_core_binary_int m1 m2 :
  0 < m1 -> 0 < m2 ->
  let s := - Z.min (fexp64 (Zdigits2 m1 - Zdigits2 m2)) 0 in
  SFdiv_core_binary 53 1024 m1 0 m2 0
  = ((m1 * 2 ^ s) `div` m2, - s, new_location m2 ((m1 * 2 ^ s) `mod` m2)).
Proof.
  intros H1 H2 s. unfold SFdiv_core_binary. fold fexp64.
  rewrite !Z.add_0_r. change (0 - 0) with 0.
  replace (Z.min (fexp64 (Zdigits2 m1 - Zdigits2 m2)) 0) with (- s) by (unfold s; lia).
  replace (0 - - s) with s by lia.
  assert (Hs : 0 <= s) by (unfold s; lia).
  replace (match s with 0 => m1 | Z.pos _ => Z.shiftl m1 s | Z.neg _ => 0 end)
    with (m1 * 2 ^ s).
  - rewrite div_eucl_div_mod. reflexivity.
  - destruct s as [|p|p] eqn:E; try lia.
    rewrite Z.shiftl_mul_pow2 by lia. reflexivity.
Qed.

(** [a / b] cannot overflow when [a <= b]. *)
Lemma int_truediv_le a b :
  0 <= a <= b -> 0 < b -> exists f, F64.int_truediv a b = Ok f.
Proof.
  intros Hab Hb. unfold F64.int_truediv.
  replace (b =? 0) with false by (symmetry; apply Z.eqb_neq; lia).
  cut (F64.is_inf (F64.div (F64.exact a) (F64.exact b)) = false).
  { intros ->. eauto. }
  destruct b as [|pb|pb]; try lia.
  destruct a as [|pa|pa]; try lia; [reflexivity|].
  cbn [F64.exact]. unfold F64.div. change F64.prec with 53. change F64.emax with 1024.
  cbn [SFdiv]. rewrite SFdiv_core_binary_int by lia. cbn [xorb].
  set (s := - Z.min (fexp64 (Zdigits2 (Z.pos pa) - Zdigits2 (Z.pos pb))) 0).
  assert (Hs : 0 <= s) by (unfold s; lia).
  assert (0 < 2 ^ s) by (apply Z.pow_pos_nonneg; lia).
  assert (Hq0 : 0 <= (Z.pos pa * 2 ^ s) `div` Z.pos pb) by (apply Z.div_pos; nia).
  assert (Hq1 : (Z.pos pa * 2 ^ s) `div` Z.pos pb <= 2 ^ s).
  { apply Z.div_le_upper_bound; [lia|]. nia. }
  apply binary_round_aux_not_inf; [exact Hq0 | lia |].
  pose proof (Zdigits2_mono _ _ (conj Hq0 Hq1)) as Hd.
  rewrite Zdigits2_pow2 in Hd by lia. lia.
Qed.

(** An exact quotient below [2^53] comes out exactly. *)
Lemma int_truediv_exact M D :
  0 <= M < 2 ^ 53 -> 0 < D ->
  exists f, F64.int_truediv (M * D) D = Ok f /\ F64.compare_int f M = Some Eq.
Proof.
  intros HM HD. unfold F64.int_truediv.
  replace (D =? 0) with false by (symmetry; apply Z.eqb_neq; lia).
  destruct (Z.eq_dec M 0) as [->|HM0].
  { destruct D; try lia. eexists; split; reflexivity. }
  assert (HMD : 0 < M * D) by nia.
  destruct (M * D) as [|pa|pa] eqn:Ea; try lia.
  destruct D as [|pb|pb] eqn:Eb; try lia.
  cbn [F64.exact]. unfold F64.div. change F64.prec with 53. change F64.emax with 1024.
  cbn [SFdiv]. rewrite SFdiv_core_binary_int by lia. cbn [xorb].
  rewrite <- Ea, <- Eb in *. clear Ea pa. clear Eb pb.
  set (s := - Z.min (fexp64 (Zdigits2 (M * D) - Zdigits2 D)) 0).
  (* the digit counts *)
  assert (HdM : 1 <= Zdigits2 M <= 53).
  { rewrite Zdigits2_log2 by lia. pose proof (Z.log2_nonneg M).
    assert (Z.log2 M < 53) by (apply Z.log2_lt_pow2; lia). lia. }
  assert (Hdd : Zdigits2 M - 1 <= Zdigits2 (M * D) - Zdigits2 D <= Zdigits2 M).
  { rewrite !Zdigits2_log2 by lia.
    pose proof (Z.log2_mul_below M D ltac:(lia) ltac:(lia)).
    pose proof (Z.log2_mul_above M D ltac:(lia) ltac:(lia)). lia. }
  assert (Hs : s = 53 - (Zdigits2 (M * D) - Zdigits2 D)) by (unfold s; rewrite fexp64_eq; lia).
  assert (Hs0 : 0 <= s) by lia.
  assert (H2s : 0 < 2 ^ s) by (apply Z.pow_pos_nonneg; lia).
  replace (M * D * 2 ^ s) with (M * 2 ^ s * D) by ring.
  rewrite Z.div_mul, Z.mod_mul by lia.
  replace (new_location D 0) with loc_Exact
    by (unfold new_location; destruct (Z.even D); reflexivity).
  (* the rounding is exact *)
  assert (Hdig : Zdigits2 (M * 2 ^ s) + - s = Zdigits2 M)
    by (rewrite Zdigits2_mul_pow2 by lia; lia).
  set (n := Z.max 0 (fexp64 (Zdigits2 (M * 2 ^ s) + - s) - - s)).
  assert (Hn : 0 <= n <= s) by (unfold n; rewrite Hdig, fexp64_eq; lia).
  assert (H2n : 0 < 2 ^ n) by (apply Z.pow_pos_nonneg; lia).
  assert (Hpow : 2 ^ s = 2 ^ (s - n) * 2 ^ n) by (rewrite <- Z.pow_add_r by lia; f_equal; lia).
  rewrite binary_round_aux_exact; fold n.
  2: nia.
  2: { exists (M * 2 ^ (s - n)). rewrite Hpow. ring. }
  2: lia.
  replace ((M * 2 ^ s) `div` 2 ^ n) with (M * 2 ^ (s - n))
    by (rewrite Hpow, Z.mul_assoc, Z.div_mul by lia; reflexivity).
  assert (H2sn : 0 < 2 ^ (s - n)) by (apply Z.pow_pos_nonneg; lia).
  eexists; split; [reflexivity|].
  unfold F64.compare_int. cbn [cond_Zopp]. rewrite Z2Pos.id by nia.
  destruct (Z.leb_spec 0 (- s + n)).
  - replace (- s + n) with 0 by lia. replace (s - n) with 0 by lia.
    f_equal. apply Z.compare_eq_iff. change (2 ^ 0) with 1. lia.
  - f_equal. apply Z.compare_eq_iff. f_equal. f_equal. lia.
Qed.

End F64Facts.

(** ** Integers below [2^53] as doubles *)

Module F64Exact.
Import F64 F64Facts.

Lemma iter_xO p q : Z.pos (Pos.iter xO p q) = Z.pos p * 2 ^ Z.pos q.
Proof.
  revert p. induction q as [|q IH] using Pos.peano_ind; intros p.
  - cbn [Pos.iter]. lia.
  - rewrite Pos.iter_succ, Pos2Z.inj_xO, IH, Pos2Z.inj_succ, Z.pow_succ_r by lia. ring.
Qed.

Lemma Zdigits2_small M : 0 < M < 2 ^ 53 -> 1 <= Zdigits2 M <= 53.
Proof.
  intros HM. rewrite Zdigits2_log2 by lia. pose proof (Z.log2_nonneg M).
  assert (Z.log2 M < 53) by (apply Z.log2_lt_pow2; lia). lia.
Qed.

(** The double of a non-zero integer below [2^53]: its 53-bit mantissa
    and its exponent. *)
Lemma binary_round_small sx p :
  Z.pos p < 2 ^ 53 ->
  binary_round 53 1024 sx p 0
  = S754_finite sx (Z.to_pos (Z.pos p * 2 ^ (53 - Zdigits2 (Z.pos p))))
      (Zdigits2 (Z.pos p) - 53).
Proof.
  intros Hp. pose proof (Zdigits2_small (Z.pos p) ltac:(lia)) as Hd.
  unfold binary_round, shl_align. fold fexp64.
  change (Z.pos (digits2_pos p)) with (Zdigits2 (Z.pos p)).
  rewrite Z.add_0_r, fexp64_eq.
  replace (Z.max (Zdigits2 (Z.pos p) - 53) (-1074)) with (Zdigits2 (Z.pos p) - 53) by lia.
  rewrite Z.sub_0_r.
  destruct (Zdigits2 (Z.pos p) - 53) as [|q|q] eqn:Eq; try lia.
  - replace (53 - Zdigits2 (Z.pos p)) with 0 by lia.
    rewrite binary_round_aux_exact.
    + rewrite Z.add_0_r, fexp64_eq.
      replace (Z.max 0 (Z.max (Zdigits2 (Z.pos p) - 53) (-1074) - 0)) with 0 by lia.
      rewrite Z.pow_0_r, Z.div_1_r, Z.mul_1_r. reflexivity.
    + lia.
    + rewrite Z.add_0_r, fexp64_eq.
      replace (Z.max 0 (Z.max (Zdigits2 (Z.pos p) - 53) (-1074) - 0)) with 0 by lia.
      exists (Z.pos p). lia.
    + rewrite Z.add_0_r, fexp64_eq. lia.
  - replace (53 - Zdigits2 (Z.pos p)) with (Z.pos q) by lia.
    rewrite iter_xO.
    assert (Hdig : Zdigits2 (Z.pos p * 2 ^ Z.pos q) = 53)
      by (rewrite Zdigits2_mul_pow2 by lia; lia).
    assert (H2q : 0 < 2 ^ Z.pos q) by (apply Z.pow_pos_nonneg; lia).
    rewrite binary_round_aux_exact; rewrite ?Hdig, ?fexp64_eq.
    + replace (Z.max 0 (Z.max (53 + Z.neg q - 53) (-1074) - Z.neg q)) with 0 by lia.
      rewrite Z.pow_0_r, Z.div_1_r, Z.add_0_r. reflexivity.
    + nia.
    + replace (Z.max 0 (Z.max (53 + Z.neg q - 53) (-1074) - Z.neg q)) with 0 by lia.
      exists (Z.pos p * 2 ^ Z.pos q). lia.
    + lia.
Qed.

(** The rounded quotient of [M * D] by [D]. *)
Lemma div_round_exact sx M D :
  0 < M < 2 ^ 53 -> 0 < D ->
  (let '(mz, ez, lz) := SFdiv_core_binary 53 1024 (M * D) 0 D 0 in
   binary_round_aux 53 1024 sx mz ez lz)
  = S754_finite sx (Z.to_pos (M * 2 ^ (53 - Zdigits2 M))) (Zdigits2 M - 53).
Proof.
  intros HM HD. assert (HMD : 0 < M * D) by nia.
  rewrite SFdiv_core_binary_int by lia.
  set (s := - Z.min (fexp64 (Zdigits2 (M * D) - Zdigits2 D)) 0).
  pose proof (Zdigits2_small M HM) as HdM.
  assert (Hdd : Zdigits2 M - 1 <= Zdigits2 (M * D) - Zdigits2 D <= Zdigits2 M).
  { rewrite !Zdigits2_log2 by lia.
    pose proof (Z.log2_mul_below M D ltac:(lia) ltac:(lia)).
    pose proof (Z.log2_mul_above M D ltac:(lia) ltac:(lia)). lia. }
  assert (Hs : s = 53 - (Zdigits2 (M * D) - Zdigits2 D)) by (unfold s; rewrite fexp64_eq; lia).
  assert (Hs0 : 0 <= s) by lia.
  assert (H2s : 0 < 2 ^ s) by (apply Z.pow_pos_nonneg; lia).
  replace (M * D * 2 ^ s) with (M * 2 ^ s * D) by ring.
  rewrite Z.div_mul, Z.mod_mul by lia.
  replace (new_location D 0) with loc_Exact
    by (unfold new_location; destruct (Z.even D); reflexivity).
  assert (Hdig : Zdigits2 (M * 2 ^ s) + - s = Zdigits2 M)
    by (rewrite Zdigits2_mul_pow2 by lia; lia).
  set (n := Z.max 0 (fexp64 (Zdigits2 (M * 2 ^ s) + - s) - - s)).
  assert (Hn : n = Zdigits2 M - 53 + s) by (unfold n; rewrite Hdig, fexp64_eq; lia).
  assert (H2n : 0 < 2 ^ n) by (apply Z.pow_pos_nonneg; lia).
  assert (Hpow : 2 ^ s = 2 ^ (s - n) * 2 ^ n) by (rewrite <- Z.pow_add_r by lia; f_equal; lia).
  rewrite binary_round_aux_exact; fold n.
  2: nia.
  2: { exists (M * 2 ^ (s - n)). rewrite Hpow. ring. }
  2: lia.
  replace ((M * 2 ^ s) `div` 2 ^ n) with (M * 2 ^ (s - n))
    by (rewrite Hpow, Z.mul_assoc, Z.div_mul by lia; reflexivity).
  f_equal; [|lia]. do 3 f_equal. lia.
Qed.

(** An exact quotient below [2^53] in absolute value is the double of
    the quotient. *)
Lemma int_truediv_nearest M D :
  - 2 ^ 53 < M < 2 ^ 53 -> 0 < D ->
  F64.int_truediv (M * D) D = Ok (F64.nearest M).
Proof.
  intros HM HD. unfold F64.int_truediv.
  replace (D =? 0) with false by (symmetry; apply Z.eqb_neq; lia).
  unfold F64.nearest, binary_normalize. change F64.prec with 53. change F64.emax with 1024.
  destruct M as [|p|p].
  - destruct D; try lia. reflexivity.
  - rewrite binary_round_small by lia.
    pose proof (div_round_exact false (Z.pos p) D ltac:(lia) HD) as E.
    destruct D as [|pd|pd]; try lia.
    change (Z.pos p * Z.pos pd) with (Z.pos (p * pd)) in *.
    change (Z.neg p * Z.pos pd) with (Z.neg (p * pd)) in *. cbn [F64.exact].
    unfold F64.div. change F64.prec with 53. change F64.emax with 1024.
    cbn [SFdiv xorb]. rewrite E. reflexivity.
  - rewrite binary_round_small by lia.
    pose proof (div_round_exact true (Z.pos p) D ltac:(lia) HD) as E.
    destruct D as [|pd|pd]; try lia.
    change (Z.pos p * Z.pos pd) with (Z.pos (p * pd)) in *.
    change (Z.neg p * Z.pos pd) with (Z.neg (p * pd)) in *. cbn [F64.exact].
    unfold F64.div. change F64.prec with 53. change F64.emax with 1024.
    cbn [SFdiv xorb]. rewrite E. reflexivity.
Qed.




Lemma compare_int_nearest M z :
  - 2 ^ 53 < M < 2 ^ 53 -> F64.compare_int (F64.nearest M) z = Some (M ?= z).
Proof.
  intros HM. unfold F64.nearest, binary_normalize.
  change F64.prec with 53. change F64.emax with 1024.
  destruct M as [|p|p]; [reflexivity| |]; rewrite binary_round_small by lia;
    pose proof (Zdigits2_small (Z.pos p) ltac:(lia)) as Hd;
    set (d := Zdigits2 (Z.pos p)) in *;
    assert (H2 : 0 < 2 ^ (53 - d)) by (apply Z.pow_pos_nonneg; lia);
    unfold F64.compare_int; cbn [cond_Zopp]; rewrite Z2Pos.id by nia; f_equal.
  - destruct (Z.leb_spec 0 (d - 53)).
    + replace (53 - d) with 0 by lia. replace (d - 53) with 0 by lia.
      change (2 ^ 0) with 1. rewrite !Z.mul_1_r. reflexivity.
    + replace (- (d - 53)) with (53 - d) by lia.
      destruct (Z.compare_spec (Z.pos p) z);
        destruct (Z.compare_spec (Z.pos p * 2 ^ (53 - d)) (z * 2 ^ (53 - d)));
        try reflexivity; nia.
  - destruct (Z.leb_spec 0 (d - 53)).
    + replace (53 - d) with 0 by lia. replace (d - 53) with 0 by lia.
      change (2 ^ 0) with 1. rewrite !Z.mul_1_r. reflexivity.
    + replace (- (d - 53)) with (53 - d) by lia.
      destruct (Z.compare_spec (Z.neg p) z);
        destruct (Z.compare_spec (- (Z.pos p * 2 ^ (53 - d))) (z * 2 ^ (53 - d)));
        try reflexivity; nia.
Qed.

Lemma gt_int_nearest M z :
  - 2 ^ 53 < M < 2 ^ 53 -> F64.gt_int (F64.nearest M) z = (z <? M).
Proof.
  intros HM. unfold F64.gt_int. rewrite compare_int_nearest by exact HM.
  rewrite Z.ltb_antisym. unfold Z.leb. destruct (M ?= z); reflexivity.
Qed.

(** A quotient of a value below [2^53] by a positive integer is finite. *)
Lemma int_truediv_small a b :
  0 <= a < 2 ^ 53 -> 0 < b -> exists f, F64.int_truediv a b = Ok f.
Proof.
  intros Ha Hb. unfold F64.int_truediv.
  replace (b =? 0) with false by (symmetry; apply Z.eqb_neq; lia).
  cut (F64.is_inf (F64.div (F64.exact a) (F64.exact b)) = false).
  { intros ->. eauto. }
  destruct b as [|pb|pb]; try lia.
  destruct a as [|pa|pa]; try lia; [reflexivity|].
  cbn [F64.exact]. unfold F64.div. change F64.prec with 53. change F64.emax with 1024.
  cbn [SFdiv]. rewrite SFdiv_core_binary_int by lia. cbn [xorb].
  set (s := - Z.min (F64.fexp64 (Zdigits2 (Z.pos pa) - Zdigits2 (Z.pos pb))) 0).
  pose proof (Zdigits2_small (Z.pos pa) ltac:(lia)) as Hda.
  assert (Hdb : 1 <= Zdigits2 (Z.pos pb)).
  { rewrite Zdigits2_log2 by lia. pose proof (Z.log2_nonneg (Z.pos pb)). lia. }
  assert (Hs : 0 <= s) by (unfold s; lia).
  assert (0 < 2 ^ s) by (apply Z.pow_pos_nonneg; lia).
  assert (Hq0 : 0 <= (Z.pos pa * 2 ^ s) `div` Z.pos pb) by (apply Z.div_pos; nia).
  assert (Hq1 : (Z.pos pa * 2 ^ s) `div` Z.pos pb <= Z.pos pa * 2 ^ s).
  { apply Z.div_le_upper_bound; [lia|]. nia. }
  apply binary_round_aux_not_inf; [exact Hq0 | lia |].
  pose proof (Zdigits2_mono _ _ (conj Hq0 Hq1)) as Hd.
  rewrite Zdigits2_mul_pow2 in Hd by lia. lia.
Qed.

End F64Exact.

(** ** Session windows *)

Module SessionWindows.
Import SessionFilter.

Ltac bool_to_Z :=
  rewrite ?andb_true_iff, ?orb_true_iff, ?andb_false_iff, ?orb_false_iff,
    ?negb_true_iff, ?Z.leb_le, ?Z.ltb_lt, ?Z.leb_gt, ?Z.ltb_ge, ?Z.eqb_eq, ?Z.eqb_neq.

Lemma hour_in_session_ASIAN h :
  hour_in_session h ASIAN = true <-> 18 <= h \/ h < 2.
Proof. unfold hour_in_session; simpl. bool_to_Z. lia. Qed.

Lemma hour_in_session_LONDON h :
  hour_in_session h LONDON = true <-> 2 <= h < 8.
Proof. unfold hour_in_session; simpl. bool_to_Z. lia. Qed.

Lemma hour_in_session_NY h :
  hour_in_session h NY = true <-> 8 <= h < 16.
Proof. unfold hour_in_session; simpl. bool_to_Z. lia. Qed.

Lemma session_of_et_hour_cases h :
  (session_of_et_hour h = "Asian" /\ (18 <= h \/ h < 2)) \/
  (session_of_et_hour h = "London" /\ 2 <= h < 8) \/
  (session_of_et_hour h = "NY" /\ 8 <= h < 18).
Proof.
  unfold session_of_et_hour.
  destruct ((18 <=? h) || (h <? 2)) eqn:Ha.
  - left. split; [reflexivity|]. revert Ha. bool_to_Z. lia.
  - destruct ((2 <=? h) && (h <? 8)) eqn:Hl.
    + right; left. split; [reflexivity|]. revert Hl. bool_to_Z. lia.
    + right; right. split; [reflexivity|]. revert Ha Hl. bool_to_Z. lia.
Qed.

(** The hour [is_in_session] tests is an hour of the day. *)
Lemma hour_range dt : 0 <= Datetime.hour dt < 24.
Proof. unfold Datetime.hour. apply Z.mod_pos_bound. lia. Qed.

(** [is_in_session] is the window test on the ET hour of the instant. *)
Lemma is_in_session_hour ts dt session :
  to_et ts = Ok dt ->
  is_in_session ts session = Ok (hour_in_session (Datetime.hour dt) session).
Proof. intros E. unfold is_in_session. rewrite E. reflexivity. Qed.

(** Every ET hour is the hour [get_current_session] computes for some
    UTC hour. *)
Lemma get_current_session_et_hour h :
  0 <= h < 24 ->
  get_current_session ((h + 5) `mod` 24) = session_of_et_hour h.
Proof.
  intros Hh. unfold get_current_session. f_equal.
  rewrite Zminus_mod_idemp_l. replace (h + 5 - 5) with h by lia.
  apply Z.mod_small. lia.
Qed.

(** C1, as stated, fails: hour 16 is in no window of [is_in_session],
    while [get_current_session] reports "NY" for it although the NY
    window ends at 16. *)
Lemma hour_16_breaks_partition :
  ~ (exists session, hour_in_session 16 session = true) /\
  session_of_et_hour 16 = "NY" /\ hour_in_session 16 NY = false.
Proof.
  split; [|split; reflexivity].
  intros [[] Hs]; discriminate Hs.
Qed.

(** C1 (amended): for every ET hour 0-23 the windows of [is_in_session]
    are Asian = hour >= 18 or hour < 2, London = [2,8), NY = [8,16), start
    inclusive and end exclusive; no hour is in two of them; an hour is in
    one of them exactly when it is not 16 or 17; and outside 16 and 17
    [get_current_session] names the window the hour is in. *)
Theorem session_windows (h : Z) :
  0 <= h < 24 ->
  (hour_in_session h ASIAN = true <-> 18 <= h \/ h < 2) /\
  (hour_in_session h LONDON = true <-> 2 <= h < 8) /\
  (hour_in_session h NY = true <-> 8 <= h < 16) /\
  (forall s1 s2, hour_in_session h s1 = true -> hour_in_session h s2 = true -> s1 = s2) /\
  ((exists session, hour_in_session h session = true) <-> ~ (16 <= h < 18)) /\
  (~ (16 <= h < 18) ->
   forall session,
     hour_in_session h session = true <->
     get_current_session ((h + 5) `mod` 24) = name session).
Proof.
  intros Hh.
  pose proof (hour_in_session_ASIAN h) as HA.
  pose proof (hour_in_session_LONDON h) as HL.
  pose proof (hour_in_session_NY h) as HN.
  assert (Hw : forall session, hour_in_session h session = true ->
            match session with
            | ASIAN => 18 <= h \/ h < 2
            | LONDON => 2 <= h < 8
            | NY => 8 <= h < 16
            end) by (intros []; tauto).
  repeat split; try tauto.
  - intros s1 s2 H1%Hw H2%Hw. destruct s1, s2; try reflexivity; lia.
  - intros [session Hs%Hw]. destruct session; lia.
  - intros Hout.
    destruct (Z_lt_dec h 2); [exists ASIAN; tauto|].
    destruct (Z_lt_dec h 8); [exists LONDON; apply HL; lia|].
    destruct (Z_lt_dec h 16); [exists NY; apply HN; lia|].
    exists ASIAN. apply HA. lia.
  - rewrite get_current_session_et_hour by lia.
    intros Hs%Hw.
    destruct (session_of_et_hour_cases h) as [[E ?]|[[E ?]|[E ?]]];
      rewrite E; destruct session; try reflexivity; lia.
  - rewrite get_current_session_et_hour by lia.
    destruct (session_of_et_hour_cases h) as [[E ?]|[[E ?]|[E ?]]];
      rewrite E; destruct session; cbn; intros He; try discriminate He;
      (apply HA || apply HL || apply HN); lia.
Qed.

Lemma session_windows_witness :
  0 <= 9 < 24 /\
  (hour_in_session 9 NY = true <-> 8 <= 9 < 16) /\
  (exists session, hour_in_session 9 session = true).
Proof.
  split; [lia|].
  destruct (session_windows 9 ltac:(lia)) as (_ & _ & HN & _ & Hex & _).
  split; [exact HN | apply Hex; lia].
Defined.

End SessionWindows.

(** ** Filtering by session *)

Module SessionFilterProps.
Import SessionFilter SessionWindows F64Facts.
#[local] Open Scope res_scope.

Section WithHost.
Context `{Host}.

Lemma sessions_getitem_valid s :
  s ∈ all_session_names -> exists session, sessions_getitem s = Ok session.
Proof.
  unfold all_session_names. rewrite !elem_of_cons, elem_of_nil.
  intros [->|[->|[->|[]]]]; eexists; reflexivity.
Qed.

Lemma map_res_sessions_valid names :
  Forall (fun s => s ∈ all_session_names) names ->
  exists session_enums, map_res sessions_getitem names = Ok session_enums.
Proof.
  induction 1 as [|s names Hs _ [enums IH]]; [eexists; reflexivity|].
  destruct (sessions_getitem_valid s Hs) as [session E].
  exists (session :: enums). cbn. rewrite E. cbn. rewrite IH. reflexivity.
Qed.

(** C10: with any non-empty list of valid session names,
    [filter_by_session] on an empty record list raises
    [ZeroDivisionError] (from the retained-percentage computation)
    instead of returning an empty list. *)
Theorem filter_by_session_empty_raises (names : list string) :
  names <> [] ->
  Forall (fun s => s ∈ all_session_names) names ->
  filter_by_session [] names = Raise ZeroDivisionError.
Proof.
  intros _ Hvalid. unfold filter_by_session.
  destruct (map_res_sessions_valid names Hvalid) as [enums ->].
  reflexivity.
Qed.

(** With all three sessions requested, the inner loop keeps exactly the
    hours other than 16 and 17. *)
Lemma in_any_session_all ts_ns t dt :
  py_int ts_ns = Ok t -> to_et t = Ok dt ->
  in_any_session ts_ns [ASIAN; LONDON; NY]
  = Ok (negb ((16 <=? Datetime.hour dt) && (Datetime.hour dt <? 18))).
Proof.
  intros Ht Hdt. cbn [in_any_session]. unfold is_in_session.
  rewrite Ht. cbn [bind]. rewrite Hdt. cbn [bind].
  unfold hour_in_session. cbn [value].
  pose proof (hour_range dt). set (h := Datetime.hour dt) in *.
  destruct (Z.leb_spec 18 h), (Z.ltb_spec h 2), (Z.leb_spec 2 h), (Z.ltb_spec h 8),
    (Z.leb_spec 8 h), (Z.ltb_spec h 16), (Z.leb_spec 16 h), (Z.ltb_spec h 18);
    cbn; try reflexivity; lia.
Qed.

Lemma record_et_hour_inv r h :
  record_et_hour r = Ok h ->
  exists t dt, py_int (derived_ts r) = Ok t /\ to_et t = Ok dt /\ Datetime.hour dt = h.
Proof.
  unfold record_et_hour. destruct (py_int (derived_ts r)) as [t|]; [|discriminate].
  cbn [bind]. destruct (to_et t) as [dt|] eqn:Edt; [|discriminate].
  cbn [bind]. intros [= <-]. exists t, dt. auto.
Qed.

Lemma filter_by_session_loop_all data : forall filtered,
  Forall placeable data ->
  filter_by_session_loop [ASIAN; LONDON; NY] data filtered
  = Ok (filtered ++ List.filter in_some_window data).
Proof.
  induction data as [|r data IH]; intros filtered Hok.
  - cbn. rewrite app_nil_r. reflexivity.
  - inversion Hok as [|? ? Hr Hrest]; subst.
    cbn [filter_by_session_loop List.filter]. unfold in_some_window at 1.
    unfold usable in *. unfold placeable, usable in Hr.
    destruct (truthy (derived_ts r)) eqn:Etr; cbn [negb andb].
    + destruct (Hr eq_refl) as [h Eh]. rewrite Eh.
      destruct (record_et_hour_inv r h Eh) as (t & dt & Ht & Hdt & <-).
      rewrite (in_any_session_all _ t dt Ht Hdt). cbn [bind].
      rewrite IH by assumption.
      destruct (negb _); [rewrite <- app_assoc|]; reflexivity.
    + apply IH. assumption.
Qed.

(** A float equal to the integer [k] splits into [k] seconds and no
    microseconds. *)
Lemma to_timeval_whole f k :
  F64.compare_int f k = Some Eq -> Datetime.to_timeval f = Ok (k, 0).
Proof.
  destruct f as [sg|sg| |sg m e]; cbn [F64.compare_int]; try discriminate.
  - destruct k; try discriminate. reflexivity.
  - destruct sg; discriminate.
  - intros [= Hcmp]. unfold Datetime.to_timeval, F64.trunc, F64.frac, F64.scaled.
    set (n := cond_Zopp sg (Z.pos m)) in *.
    destruct (Z.leb_spec 0 e) as [He|He].
    + apply Z.compare_eq_iff in Hcmp. rewrite Hcmp. reflexivity.
    + apply Z.compare_eq_iff in Hcmp. rewrite Hcmp.
      assert (0 < 2 ^ (- e)) by (apply Z.pow_pos_nonneg; lia).
      rewrite Z.quot_mul, Z.rem_mul by lia. reflexivity.
Qed.

(** A timestamp of [k] whole seconds after the epoch, up to the end of
    year 9999, is placed at [k] seconds less five hours. *)
Lemma to_et_whole_second k :
  0 <= k <= Datetime.max_sec ->
  to_et (k * 10 ^ 9) = Ok {| Datetime.dt_sec := k - 18000; Datetime.dt_us := 0 |}.
Proof.
  intros Hk. unfold Datetime.max_sec in Hk. unfold to_et.
  destruct (int_truediv_exact k (10 ^ 9)) as (f & Ef & Ecmp); [lia|lia|].
  change (10 ^ 9) with 1000000000 in *. rewrite Ef. cbn [bind].
  unfold Datetime.fromtimestamp_utc. rewrite (to_timeval_whole f k Ecmp). cbn [bind].
  assert (Hr : forall x, - 18000 <= x <= 253402300799 -> Datetime.in_range x = true).
  { intros x Hx. unfold Datetime.in_range, Datetime.min_sec, Datetime.max_sec.
    apply andb_true_iff. split; apply Z.leb_le; lia. }
  rewrite Hr by lia. cbn [bind]. unfold Datetime.add_hours. cbn [Datetime.dt_sec Datetime.dt_us].
  replace (k + -5 * 3600) with (k - 18000) by lia. rewrite Hr by lia. reflexivity.
Qed.

(** So the records of whole-second bars can be placed on the ET clock. *)
Lemma whole_second_placeable r k :
  derived_ts r = VInt (k * 10 ^ 9) -> 0 <= k <= Datetime.max_sec ->
  record_et_hour r = Ok (((k - 18000) `div` 3600) `mod` 24) /\ placeable r.
Proof.
  intros Hts Hk.
  assert (E : record_et_hour r = Ok (((k - 18000) `div` 3600) `mod` 24)).
  { unfold record_et_hour. rewrite Hts. cbn [py_int bind].
    rewrite (to_et_whole_second k Hk). reflexivity. }
  split; [exact E|]. intros _. eexists. exact E.
Qed.

(** C3, as stated, fails: a record stamped 16:00 ET has a usable
    timestamp and is dropped although all three sessions are requested. *)
Lemma full_filter_drops_1600 :
  usable record_1600 = true /\
  filter_by_session (H := UtcHost.utc_host) [record_1600] all_session_names = Ok [].
Proof. split; vm_compute; reflexivity. Qed.

(** C3 (amended): on a non-empty record list whose usable timestamps can
    be placed on the ET clock, filtering by all three sessions returns, in
    input order, exactly the records that have a usable derived timestamp
    (ts_event, else ts_recv, else timestamp) and whose ET hour is not 16 or
    17. *)
Theorem filter_by_all_sessions (data : list record) :
  data <> [] ->
  Forall placeable data ->
  filter_by_session data all_session_names = Ok (List.filter in_some_window data).
Proof.
  intros Hne Hok. unfold filter_by_session.
  change (map_res sessions_getitem all_session_names) with (Ok [ASIAN; LONDON; NY]).
  cbn [bind]. rewrite filter_by_session_loop_all by assumption. cbn [bind app].
  unfold kept_percentage.
  destruct (int_truediv_le (Z.of_nat (length (List.filter in_some_window data)))
              (Z.of_nat (length data))) as [f ->].
  - pose proof (List.filter_length_le in_some_window data). lia.
  - destruct data; [contradiction|]. cbn [length]. lia.
  - reflexivity.
Qed.

End WithHost.

Lemma filter_by_all_sessions_witness :
  [record_0930; record_1600; record_no_ts] <> [] /\
  Forall (placeable (H := UtcHost.utc_host)) [record_0930; record_1600; record_no_ts] /\
  filter_by_session (H := UtcHost.utc_host)
    [record_0930; record_1600; record_no_ts] all_session_names = Ok [record_0930].
Proof.
  assert (Hne : [record_0930; record_1600; record_no_ts] <> []) by discriminate.
  assert (Hok : Forall (placeable (H := UtcHost.utc_host))
                  [record_0930; record_1600; record_no_ts]).
  { repeat constructor; intros Hu; try (vm_compute in Hu; discriminate Hu);
      eexists; vm_compute; reflexivity. }
  split; [exact Hne|]. split; [exact Hok|].
  rewrite (filter_by_all_sessions (H := UtcHost.utc_host) _ Hne Hok).
  vm_compute. reflexivity.
Defined.

Lemma filter_by_session_empty_raises_witness :
  ["NY"; "Asian"] <> [] /\
  Forall (fun s => s ∈ all_session_names) ["NY"; "Asian"] /\
  filter_by_session (H := UtcHost.utc_host) [] ["NY"; "Asian"] = Raise ZeroDivisionError.
Proof.
  assert (Hne : ["NY"; "Asian"] <> []) by discriminate.
  assert (Hv : Forall (fun s => s ∈ all_session_names) ["NY"; "Asian"]).
  { unfold all_session_names. repeat constructor. }
  split; [exact Hne|]. split; [exact Hv|].
  exact (filter_by_session_empty_raises (H := UtcHost.utc_host) _ Hne Hv).
Defined.

(** C4: with 30 minutes before and 30 after, the records stamped 08:00 and
    08:31 ET are both kept: the window on each side of a transition is the
    sum of the two arguments, 60 minutes, and only 09:01 falls outside. *)
Theorem transitions_keep_0831 :
  filter_session_transitions (H := UtcHost.utc_host)
    [record_0800; record_0831; record_0901] 30 30
  = Ok [record_0800; record_0831].
Proof. vm_compute. reflexivity. Qed.

End SessionFilterProps.

(** ** The validator *)

Module DataValidatorProps.
Import DataValidator F64Facts F64Exact.
#[local] Open Scope val_scope.

Section WithHost.
Context `{Host}.

Lemma appends_mret {A} (x : A) : appends (mret x).
Proof. intros s. cbn. rewrite app_nil_r. reflexivity. Qed.

Lemma appends_lift {A} (c : res A) : appends (lift c).
Proof. intros s. cbn. rewrite app_nil_r. reflexivity. Qed.

Lemma appends_append_issue i : appends (append_issue i).
Proof. intros s. reflexivity. Qed.

Lemma appends_mbind {A B} (c : M A) (k : A -> M B) :
  appends c -> (forall x, appends (k x)) -> appends (mbind c k).
Proof.
  intros Hc Hk s. unfold mbind. rewrite (Hc s).
  destruct (c []) as [[x|e] d]; cbn [fst snd].
  - rewrite (Hk x (s ++ d)), (Hk x d). cbn [fst snd]. rewrite app_assoc. reflexivity.
  - reflexivity.
Qed.

Ltac frame :=
  repeat first
    [ apply appends_mret | apply appends_lift | apply appends_append_issue
    | assumption
    | apply appends_mbind; [|intros]
    | match goal with
      | |- appends (if ?b then _ else _) => destruct b
      | |- appends (match ?x with _ => _ end) => destruct x
      | |- appends (let '(_, _) := ?x in _) => destruct x
      end ].

Lemma appends_gaps_loop v sorted_ts : forall i gaps, appends (gaps_loop v i sorted_ts gaps).
Proof.
  induction sorted_ts as [|a rest IH]; intros i gaps; cbn [gaps_loop]; [frame|].
  destruct rest as [|b rest']; [frame|].
  apply appends_mbind; [frame|]. intros gap_seconds.
  destruct (F64.gt_int gap_seconds (max_gap_seconds v)); [|apply IH].
  apply appends_mbind; [frame|]. intros before.
  apply appends_mbind; [frame|]. intros after.
  apply appends_mbind; [frame|]. intros _. apply IH.
Qed.

Lemma appends_check_timestamp_gaps v data : appends (check_timestamp_gaps v data).
Proof.
  unfold check_timestamp_gaps. apply appends_mbind; [frame|]. intros timestamps.
  destruct (len timestamps <? 2); [frame|].
  apply appends_mbind; [apply appends_gaps_loop|]. intros; frame.
Qed.

Lemma appends_duplicate_issues duplicates : appends (duplicate_issues duplicates).
Proof. induction duplicates as [|[ts count] rest IH]; cbn [duplicate_issues]; frame. Qed.

Lemma appends_check_duplicates v data : appends (check_duplicates v data).
Proof.
  unfold check_duplicates. apply appends_mbind; [frame|]. intros timestamps.
  apply appends_mbind; [apply appends_duplicate_issues|]. intros; frame.
Qed.

Lemma appends_outliers_loop v mean_price std_dev prices :
  forall outliers, appends (outliers_loop v mean_price std_dev prices outliers).
Proof.
  induction prices as [|p rest IH]; intros outliers; cbn [outliers_loop]; [frame|].
  destruct (F64.ltb _ _); [|apply IH].
  destruct (len (outliers ++ [p]) <=? 10); [|apply IH].
  apply appends_mbind; [frame|]. intros _.
  apply appends_mbind; [frame|]. intros _. apply IH.
Qed.

Lemma appends_negative_issues negative_prices : appends (negative_issues negative_prices).
Proof. induction negative_prices as [|p rest IH]; cbn [negative_issues]; frame. Qed.

Lemma appends_check_prices v prices : appends (check_prices v prices).
Proof.
  unfold check_prices. destruct prices as [|p0 rest]; [frame|].
  apply appends_mbind.
  - destruct (1 <? len (p0 :: rest)); [|frame].
    apply appends_mbind; [frame|]. intros total.
    apply appends_mbind; [frame|]. intros std_dev.
    apply appends_mbind; [apply appends_outliers_loop|]. intros; frame.
  - intros [[outliers mean_price] std_dev].
    apply appends_mbind; [apply appends_negative_issues|]. intros; frame.
Qed.

Lemma appends_check_price_range v data : appends (check_price_range v data).
Proof.
  unfold check_price_range. apply appends_mbind; [frame|]. intros prices.
  apply appends_check_prices.
Qed.

Lemma appends_check_record_count v data : appends (check_record_count v data).
Proof. unfold check_record_count. frame. Qed.

Lemma appends_missing_issues missing_fields : appends (missing_issues missing_fields).
Proof. induction missing_fields as [|[field count] rest IH]; cbn [missing_issues]; frame. Qed.

Lemma appends_check_completeness v data : appends (check_completeness v data).
Proof.
  unfold check_completeness. destruct data; [frame|].
  apply appends_mbind; [apply appends_missing_issues|]. intros; frame.
Qed.

Lemma appends_validate v data : appends (validate v data).
Proof.
  unfold validate. destruct data as [|r data]; [frame|].
  apply appends_mbind; [apply appends_check_timestamp_gaps|]. intros c1.
  apply appends_mbind; [apply appends_check_duplicates|]. intros c2.
  apply appends_mbind; [apply appends_check_price_range|]. intros c3.
  apply appends_mbind; [apply appends_check_record_count|]. intros c4.
  apply appends_mbind; [apply appends_check_completeness|]. intros c5.
  frame.
Qed.

(** A report of a non-empty input refers to the validator's list. *)
Lemma validate_issues_ref v data s rep s' :
  data <> [] -> validate v data s = (Ok rep, s') -> issues rep = Some self_issues.
Proof.
  intros Hne. unfold validate. destruct data as [|r data]; [contradiction|].
  unfold mbind.
  repeat match goal with
         | |- context [match ?c ?st with _ => _ end] =>
             destruct (c st) as [[?|?] ?]; try discriminate
         end.
  intros [= <- <-]. reflexivity.
Qed.

(** C2 (amended): [validate] never resets the issue list, which belongs
    to the instance: of two successive calls on one instance, the second
    runs as it would on a fresh instance, leaves the list holding all
    earlier issues followed by its own, and the ["issues"] of the report it
    returns is that whole list (as is, from then on, the ["issues"] of the
    report the first call returned). *)
Theorem issues_accumulate_across_calls (v : config) (data1 data2 : list record)
    (s0 : list issue) :
  let first := validate v data1 s0 in
  let second := validate v data2 (snd first) in
  let alone := validate v data2 [] in
  fst second = fst alone /\
  snd second = snd first ++ snd alone /\
  (forall rep, data2 <> [] -> fst second = Ok rep ->
     report_issues rep (snd second) = Ok (snd first ++ snd alone)) /\
  (forall rep, data1 <> [] -> fst first = Ok rep ->
     report_issues rep (snd second) = Ok (snd first ++ snd alone)).
Proof.
  intros first second alone.
  assert (E : second = (fst alone, snd first ++ snd alone)).
  { unfold second, alone. apply appends_validate. }
  rewrite E. cbn [fst snd]. repeat split.
  - intros rep Hne Hrep. unfold report_issues.
    rewrite (validate_issues_ref v data2 [] rep (snd alone) Hne); [reflexivity|].
    unfold alone in *. destruct (validate v data2 []) as [r d]. cbn in *. congruence.
  - intros rep Hne Hrep. unfold report_issues.
    rewrite (validate_issues_ref v data1 s0 rep (snd first) Hne); [reflexivity|].
    unfold first in *. destruct (validate v data1 s0) as [r d]. cbn in *. congruence.
Qed.

(** C5: on the empty input [validate] returns at once, with
    [valid = False], [total_records = 0] and no check run; the report has
    no ["issues"] key, and [print_report], which reads it, raises
    [KeyError]. *)
Theorem validate_empty_has_no_issues_key (v : config) (s : list issue) :
  let rep := {| total_records := 0; valid := false; checks := []; issues := None |} in
  validate v [] s = (Ok rep, s) /\
  report_issues rep s = Raise KeyError /\
  print_report rep s = Raise KeyError.
Proof. repeat split. Qed.

(** C8: whatever the schema and the records, the estimate of the
    expected count is [None], and [check_record_count] returns
    [valid = True] without appending any issue. *)
Theorem record_count_always_valid (v : config) (data : list record) (s : list issue) :
  _estimate_expected_count v data = None /\
  check_record_count v data s = (Ok (record_count_report true (len data) None), s).
Proof.
  assert (E : _estimate_expected_count v data = None).
  { unfold _estimate_expected_count.
    destruct (str_contains "ohlcv" (schema v)); [|reflexivity].
    destruct (str_contains "1h" (schema v)); [reflexivity|].
    destruct (str_contains "1d" (schema v)); reflexivity. }
  split; [exact E|]. unfold check_record_count. rewrite E. reflexivity.
Qed.

(** *** The price-range check *)

Lemma negative_issues_run negative_prices s :
  negative_issues negative_prices s = (Ok tt, s ++ map negative_price negative_prices).
Proof.
  revert s. induction negative_prices as [|p rest IH]; intros s; cbn.
  - rewrite app_nil_r. reflexivity.
  - unfold mbind, append_issue. rewrite IH, <- app_assoc. reflexivity.
Qed.

Lemma outliers_loop_issues v mean_price std_dev prices : forall outliers s,
  exists added,
    snd (outliers_loop v mean_price std_dev prices outliers s) = s ++ added /\
    Forall (fun i => issue_type i = "price_outlier" /\ severity i = "warning") added.
Proof.
  induction prices as [|p rest IH]; intros outliers s; cbn [outliers_loop].
  - exists []. rewrite app_nil_r. split; [reflexivity|constructor].
  - destruct (F64.ltb _ _); [|apply IH].
    destruct (len (outliers ++ [p]) <=? 10); [|apply IH].
    unfold mbind at 1. unfold lift at 1.
    destruct (F64.truediv _ std_dev).
    + unfold mbind at 1. unfold append_issue at 1.
      destruct (IH (outliers ++ [p]) (s ++ [price_outlier p mean_price std_dev]))
        as (added & -> & Hadded).
      exists (price_outlier p mean_price std_dev :: added).
      rewrite <- app_assoc. split; [reflexivity|]. constructor; [split; reflexivity|assumption].
    + exists []. rewrite app_nil_r. split; [reflexivity|constructor].
Qed.

Lemma filter_length_zero {A} (f : A -> bool) (l : list A) :
  (len (List.filter f l) =? 0) = true <-> Forall (fun x => f x = false) l.
Proof.
  unfold len. rewrite Z.eqb_eq. induction l as [|x l IH]; cbn.
  - split; [constructor|reflexivity].
  - destruct (f x) eqn:E; cbn.
    + split; [lia|]. intros Hall. inversion Hall; congruence.
    + rewrite IH. split; [constructor; assumption|]. intros Hall. inversion Hall; assumption.
Qed.

(** The squares are added up as they are produced. *)
Lemma sum_sq_dev_from_squares mean_price prices : forall st,
  sum_sq_dev_from mean_price prices st
  = (squares <- squared_deviations mean_price prices ;;
     Ok (fold_left sum_step squares st))%res.
Proof.
  unfold squared_deviations.
  induction prices as [|p rest IH]; intros st; cbn [sum_sq_dev_from map_res bind];
    [reflexivity|].
  destruct (pow2 (F64.sub p mean_price)) as [sq|e]; cbn [bind]; [|reflexivity].
  rewrite IH. destruct (map_res _ rest) as [squares|e]; reflexivity.
Qed.

(** The sum of the squared deviations is the [sum] of the squares of all
    prices. *)
Lemma sum_sq_dev_squares mean_price prices :
  sum_sq_dev mean_price prices
  = (squares <- squared_deviations mean_price prices ;; Ok (fsum squares))%res.
Proof.
  destruct prices as [|p rest]; [reflexivity|].
  unfold sum_sq_dev, squared_deviations. cbn [map_res].
  destruct (pow2 (F64.sub p mean_price)) as [sq|e]; cbn [bind]; [|reflexivity].
  rewrite sum_sq_dev_from_squares. unfold squared_deviations.
  destruct (map_res _ rest) as [squares|e]; reflexivity.
Qed.

(** An exact square, as [x ** 2] gives it. *)
Lemma pow2_exact (a b : Z) :
  F64.eqb (F64.abs (F64.nearest a)) one = false ->
  F64.is_inf (F64.nearest b) = false ->
  (exists m e, F64.nearest a = S754_finite (a <? 0) m e) ->
  libm_pow (F64.abs (F64.nearest a)) two = (F64.nearest b, no_error) ->
  pow2 (F64.nearest a) = Ok (F64.nearest b).
Proof.
  intros Hone Hinf (m & e & Ea) Hpow. rewrite Ea in *. cbn [pow2 F64.abs SFabs] in *.
  unfold call_pow. rewrite Hone, Hpow, Hinf. reflexivity.
Qed.

(** An exact root, as [x ** 0.5] gives it. *)
Lemma pow_half_exact (a b : Z) :
  F64.eqb (F64.nearest a) one = false ->
  F64.is_inf (F64.nearest b) = false ->
  (exists m e, F64.nearest a = S754_finite false m e) ->
  libm_pow (F64.nearest a) half = (F64.nearest b, no_error) ->
  pow_half (F64.nearest a) = Ok (F64.nearest b).
Proof.
  intros Hone Hinf (m & e & Ea) Hpow. rewrite Ea in *. cbn [pow_half].
  unfold call_pow. rewrite Hone, Hpow, Hinf. reflexivity.
Qed.

(** The statistics of the closes 100, 100, 100, 100 and -5. *)
Lemma sample_closes_run (v : config) (s : list issue) :
  price_outlier_std v = ten ->
  pow_exact_on_sample ->
  check_price_range v sample_closes s
  = (Ok (price_report false (F64.nearest (-5)) (F64.nearest 100)
           (F64.nearest 79) (F64.nearest 42) 1 0 0),
     s ++ [negative_price (F64.nearest (-5))]).
Proof.
  intros Hv (h21 & h84 & h1764).
  assert (E21 : pow2 (F64.nearest 21) = Ok (F64.nearest 441)).
  { apply pow2_exact; [vm_compute; reflexivity..| |exact h21].
    eexists _, _. vm_compute. reflexivity. }
  assert (E84 : pow2 (F64.nearest (-84)) = Ok (F64.nearest 7056)).
  { apply pow2_exact; [vm_compute; reflexivity..| |exact h84].
    eexists _, _. vm_compute. reflexivity. }
  assert (E1764 : pow_half (F64.nearest 1764) = Ok (F64.nearest 42)).
  { apply pow_half_exact; [vm_compute; reflexivity..| |exact h1764].
    eexists _, _. vm_compute. reflexivity. }
  unfold check_price_range. unfold mbind at 1. unfold lift at 1.
  replace (_extract_prices sample_closes)
    with (Ok [F64.nearest 100; F64.nearest 100; F64.nearest 100; F64.nearest 100;
              F64.nearest (-5)]) by (vm_compute; reflexivity).
  set (p := F64.nearest 100). set (q := F64.nearest (-5)).
  unfold check_prices.
  replace (1 <? len [p; p; p; p; q]) with true by reflexivity.
  replace (F64.div (fsum [p; p; p; p; q]) (F64.nearest (len [p; p; p; p; q])))
    with (F64.nearest 79)
    by (unfold fsum, sum_step; cbn [fold_left]; destruct sum_compensates;
        vm_compute; reflexivity).
  unfold mbind at 2. unfold lift at 1. rewrite sum_sq_dev_squares.
  unfold squared_deviations. cbn [map_res].
  replace (F64.sub p (F64.nearest 79)) with (F64.nearest 21) by (vm_compute; reflexivity).
  replace (F64.sub q (F64.nearest 79)) with (F64.nearest (-84)) by (vm_compute; reflexivity).
  rewrite E21, E84. cbn [bind].
  match goal with
  | |- context [F64.div (fsum ?squares) (F64.nearest (len [p; p; p; p; q]))] =>
      replace (F64.div (fsum squares) (F64.nearest (len [p; p; p; p; q])))
        with (F64.nearest 1764)
        by (unfold fsum, sum_step; cbn [fold_left]; destruct sum_compensates;
            vm_compute; reflexivity)
  end.
  unfold mbind at 2. unfold lift at 1. rewrite E1764.
  unfold mbind.
  replace (outliers_loop v (F64.nearest 79) (F64.nearest 42) [p; p; p; p; q] [] s)
    with (@Ok (list F64.float) [], s).
  2:{ cbn [outliers_loop].
      replace (F64.ltb (F64.mul (price_outlier_std v) (F64.nearest 42))
                 (F64.abs (F64.sub p (F64.nearest 79)))) with false
        by (rewrite Hv; vm_compute; reflexivity).
      replace (F64.ltb (F64.mul (price_outlier_std v) (F64.nearest 42))
                 (F64.abs (F64.sub q (F64.nearest 79)))) with false
        by (rewrite Hv; vm_compute; reflexivity).
      reflexivity. }
  cbn [mret]. rewrite negative_issues_run.
  replace (List.filter (fun p0 => F64.ltb p0 (S754_zero false)) [p; p; p; p; q]) with [q]
    by (vm_compute; reflexivity).
  replace (List.filter (fun p0 => F64.eqb p0 (S754_zero false)) [p; p; p; p; q])
    with (@nil F64.float) by (vm_compute; reflexivity).
  replace (fmin [p; p; p; p; q]) with q by (vm_compute; reflexivity).
  replace (fmax [p; p; p; p; q]) with p by (vm_compute; reflexivity).
  reflexivity.
Qed.

(** C6: whenever the price-range check returns, it is valid iff no
    extracted price is negative and none is exactly zero, whatever the
    outliers; the mean is the [sum] of all extracted prices divided by
    their number, and the standard deviation is the power [0.5] of the
    [sum] of the squared deviations of all extracted prices from that mean
    divided by their number; it appends one [negative_price] issue per
    negative price (ten at most), after the outlier warnings.  Only the
    statistics over two or more prices can raise.  The powers are those of
    the host's C library, the sums those of the host's [sum].  For the
    closes [100, 100, 100, 100, -5] a check that returns is invalid and
    has appended exactly one [negative_price] issue; where the library
    returns the exact powers [21 ** 2 = 441], [84 ** 2 = 7056] and
    [1764 ** 0.5 = 42], the check returns, with mean 79 and deviation 42,
    and the one issue appended is the negative price. *)
Theorem price_range_check (v : config) (data : list record) (prices : list F64.float)
    (s : list issue) :
  _extract_prices data = Ok prices ->
  let zero := S754_zero false in
  let negative := List.filter (fun p => F64.ltb p zero) prices in
  let n := F64.nearest (len prices) in
  match check_price_range v data s with
  | (Ok rep, s') =>
      (check_valid rep = true <->
       Forall (fun p => F64.ltb p zero = false /\ F64.eqb p zero = false) prices) /\
      match rep with
      | price_no_data => prices = [] /\ s' = s
      | price_report _ _ _ mean_price std_dev negative_prices zero_prices _ =>
          negative_prices = len negative /\
          zero_prices = len (List.filter (fun p => F64.eqb p zero) prices) /\
          (1 < len prices ->
           mean_price = F64.div (fsum prices) n /\
           exists squares,
             squared_deviations mean_price prices = Ok squares /\
             pow_half (F64.div (fsum squares) n) = Ok std_dev) /\
          exists outlier_issues,
            s' = s ++ outlier_issues ++ map negative_price (take 10 negative) /\
            Forall (fun i => issue_type i = "price_outlier" /\ severity i = "warning")
              outlier_issues
      | _ => False
      end
  | (Raise _, _) => 1 < len prices
  end /\
  match check_price_range (fst (init "ohlcv-1h" 60 ten)) sample_closes [] with
  | (Ok rep, s') =>
      check_valid rep = false /\
      List.filter (fun i => String.eqb (issue_type i) "negative_price") s'
      = [negative_price (F64.nearest (-5))]
  | (Raise _, _) => True
  end /\
  (pow_exact_on_sample ->
   check_price_range (fst (init "ohlcv-1h" 60 ten)) sample_closes []
   = (Ok (price_report false (F64.nearest (-5)) (F64.nearest 100)
            (F64.nearest 79) (F64.nearest 42) 1 0 0),
      [negative_price (F64.nearest (-5))])).
Proof.
  assert (General : forall v prices s,
    let zero := S754_zero false in
    let negative := List.filter (fun p => F64.ltb p zero) prices in
    let n := F64.nearest (len prices) in
    match check_prices v prices s with
    | (Ok rep, s') =>
        (check_valid rep = true <->
         Forall (fun p => F64.ltb p zero = false /\ F64.eqb p zero = false) prices) /\
        match rep with
        | price_no_data => prices = [] /\ s' = s
        | price_report _ _ _ mean_price std_dev negative_prices zero_prices _ =>
            negative_prices = len negative /\
            zero_prices = len (List.filter (fun p => F64.eqb p zero) prices) /\
            (1 < len prices ->
             mean_price = F64.div (fsum prices) n /\
             exists squares,
               squared_deviations mean_price prices = Ok squares /\
               pow_half (F64.div (fsum squares) n) = Ok std_dev) /\
            exists outlier_issues,
              s' = s ++ outlier_issues ++ map negative_price (take 10 negative) /\
              Forall (fun i => issue_type i = "price_outlier" /\ severity i = "warning")
                outlier_issues
        | _ => False
        end
    | (Raise _, _) => 1 < len prices
    end).
  { clear v prices s. intros v prices s zero negative n.
    destruct prices as [|p0 rest].
    { cbn. repeat split; constructor. }
    unfold check_prices. fold zero. fold negative. fold n.
    remember (p0 :: rest) as prices eqn:Eprices.
    assert (Hvalid : forall b,
      b = (len negative =? 0) && (len (List.filter (fun p => F64.eqb p zero) prices) =? 0) ->
      b = true <-> Forall (fun p => F64.ltb p zero = false /\ F64.eqb p zero = false) prices).
    { intros b ->. rewrite andb_true_iff. unfold negative. rewrite !filter_length_zero.
      rewrite !Forall_forall. firstorder. }
    unfold mbind at 1.
    destruct (1 <? len prices) eqn:Elen.
    - apply Z.ltb_lt in Elen.
      unfold mbind at 1. unfold lift at 1. rewrite sum_sq_dev_squares.
      destruct (squared_deviations _ prices) as [squares|e] eqn:Esquares; [|exact Elen].
      cbn [bind].
      unfold mbind at 1. unfold lift at 1.
      destruct (pow_half _) as [std_dev|e] eqn:Estd; [|exact Elen].
      unfold mbind at 1.
      destruct (outliers_loop_issues v (F64.div (fsum prices) n) std_dev prices [] s)
        as (added & Eadded & Hadded).
      destruct (outliers_loop v _ std_dev prices [] s) as [[outliers|e] s1]; [|exact Elen].
      cbn [snd] in Eadded. subst s1. cbn [mret].
      unfold mbind. rewrite negative_issues_run. cbn [mret check_valid].
      split; [apply Hvalid; reflexivity|]. split; [reflexivity|]. split; [reflexivity|].
      split; [intros _; split; [reflexivity|]; exists squares; split; assumption|].
      exists added. rewrite <- app_assoc. split; [reflexivity|assumption].
    - apply Z.ltb_ge in Elen. cbn [mret].
      unfold mbind. rewrite negative_issues_run. cbn [mret check_valid].
      split; [apply Hvalid; reflexivity|]. split; [reflexivity|]. split; [reflexivity|].
      split; [lia|].
      exists []. split; [reflexivity|constructor]. }
  intros Hprices zero negative n.
  split.
  { unfold check_price_range. unfold mbind at 1. unfold lift at 1. rewrite Hprices.
    apply General. }
  split.
  - unfold check_price_range. unfold mbind at 1. unfold lift at 1.
    replace (_extract_prices sample_closes)
      with (Ok [F64.nearest 100; F64.nearest 100; F64.nearest 100; F64.nearest 100;
                F64.nearest (-5)]) by (vm_compute; reflexivity).
    set (closes := [F64.nearest 100; F64.nearest 100; F64.nearest 100; F64.nearest 100;
                    F64.nearest (-5)]).
    pose proof (General (fst (init "ohlcv-1h" 60 ten)) closes []) as G. cbv zeta in G.
    destruct (check_prices _ closes []) as [[rep|e] s']; [|exact I].
    destruct G as (Hvalid & G).
    destruct rep; try contradiction; [destruct G as [G _]; discriminate G|].
    destruct G as (_ & _ & _ & outlier_issues & -> & Hout). split.
    + cbn [check_valid] in *. destruct valid0; [|reflexivity]. exfalso.
      destruct Hvalid as [Hvalid _]. specialize (Hvalid eq_refl).
      rewrite Forall_forall in Hvalid.
      destruct (Hvalid (F64.nearest (-5))) as [Hneg _]; [|discriminate Hneg].
      unfold closes. rewrite !elem_of_cons. do 4 right. left. reflexivity.
    + cbn [app]. rewrite List.filter_app.
      replace (List.filter _ outlier_issues) with (@nil issue).
      { vm_compute. reflexivity. }
      symmetry. clear -Hout. induction Hout as [|i l [Hi _] _ IH]; [reflexivity|].
      cbn [List.filter]. rewrite Hi. exact IH.
  - intros Hpow. apply (sample_closes_run _ []); [reflexivity|exact Hpow].
Qed.

(** *** The gap check *)

Lemma merge_sort_eq (ts l : list Z) :
  Sorted Z.le l -> ts ≡ₚ l -> merge_sort Z.le ts = l.
Proof.
  intros Hl Hp. apply (Sorted_unique Z.le); [apply Sorted_merge_sort; apply _|exact Hl|].
  rewrite merge_sort_Permutation. exact Hp.
Qed.

Lemma gaps_loop_step v i a b rest gaps :
  gaps_loop v i (a :: b :: rest) gaps
  = (gap_seconds <- lift (F64.int_truediv (b - a) 1000000000) ;;
     if F64.gt_int gap_seconds (max_gap_seconds v) then
       let gap_minutes := F64.div gap_seconds (F64.nearest 60) in
       before <- lift (_format_timestamp a) ;;
       after <- lift (_format_timestamp b) ;;
       let gap_info := {| index := i; gap_seconds := gap_seconds;
                          gap_minutes := gap_minutes;
                          before := before; after := after |} in
       _ <- append_issue (timestamp_gap gap_info) ;;
       gaps_loop v (i + 1) (b :: rest) (gaps ++ [gap_info])
     else gaps_loop v (i + 1) (b :: rest) gaps).
Proof. reflexivity. Qed.

Lemma check_timestamp_gaps_sorted v data ts s :
  _extract_timestamps data = Ok ts ->
  check_timestamp_gaps v data s
  = (if len ts <? 2 then mret gaps_insufficient
     else
       gaps <- gaps_loop v 0 (merge_sort Z.le ts) [] ;;
       _ <- lift (F64.int_truediv (max_gap_seconds v) 60) ;;
       mret (gaps_report (len gaps =? 0) (len gaps) (take 10 gaps) (len gaps))) s.
Proof.
  intros Hts. unfold check_timestamp_gaps. unfold mbind at 1. unfold lift at 1.
  rewrite Hts. reflexivity.
Qed.

(** The gaps found and the issues appended go in step. *)
Lemma gaps_loop_run v sorted_ts : forall i gaps s,
  exists new r,
    gaps_loop v i sorted_ts gaps s = (r, s ++ map timestamp_gap new) /\
    forall gaps', r = Ok gaps' -> gaps' = gaps ++ new.
Proof.
  induction sorted_ts as [|a rest IH]; intros i gaps s.
  { exists [], (Ok gaps). cbn. rewrite !app_nil_r. split; [reflexivity|]. congruence. }
  cbn [gaps_loop]. destruct rest as [|b rest'].
  { exists [], (Ok gaps). cbn. rewrite !app_nil_r. split; [reflexivity|]. congruence. }
  assert (Hstop : forall (e : exn),
    exists (new : list gap_info) r,
      (@Raise (list gap_info) e, s) = (r, s ++ map timestamp_gap new) /\
      forall gaps', r = Ok gaps' -> gaps' = gaps ++ new).
  { intros e. exists [], (Raise e). cbn. rewrite app_nil_r. split; [reflexivity|]. discriminate. }
  unfold mbind at 1. unfold lift at 1.
  destruct (F64.int_truediv (b - a) 1000000000) as [gap_seconds|e]; [|apply Hstop].
  destruct (F64.gt_int gap_seconds (max_gap_seconds v)); [|apply IH].
  unfold mbind at 1. unfold lift at 1.
  destruct (_format_timestamp a) as [before|e]; [|apply Hstop].
  unfold mbind at 1. unfold lift at 1.
  destruct (_format_timestamp b) as [after|e]; [|apply Hstop].
  unfold mbind at 1. unfold append_issue at 1.
  match goal with
  | |- context [gaps_loop v (i + 1) (b :: rest') (gaps ++ [?g]) (s ++ [timestamp_gap ?g])] =>
      destruct (IH (i + 1) (gaps ++ [g]) (s ++ [timestamp_gap g])) as (new & r & Es & Eg);
      exists (g :: new), r
  end.
  rewrite Es. cbn [map]. rewrite <- !app_assoc. split; [reflexivity|].
  intros gaps' Hg. rewrite (Eg gaps' Hg), <- app_assoc. reflexivity.
Qed.

(** A whole number of seconds is compared as the integer it is. *)
Lemma exceeds_whole limit k :
  - 2 ^ 53 < k < 2 ^ 53 -> exceeds limit (k * 10 ^ 9) = (limit <? k).
Proof.
  intros Hk. unfold exceeds. change (10 ^ 9) with 1000000000.
  rewrite int_truediv_nearest by lia. apply gt_int_nearest. exact Hk.
Qed.

(** The loop finds the gaps among the pairs of neighbours, in order, and
    appends one issue for each; it raises at the first pair that stops
    it, with the issues of the gaps before that pair appended. *)
Lemma gaps_loop_pairs v l : forall i gaps s,
  exists found r,
    gaps_loop v i l gaps s = (r, s ++ map timestamp_gap found) /\
    match r with
    | Ok gaps' =>
        gaps' = gaps ++ found /\
        Forall2 describes found
          (List.filter (long_pair (max_gap_seconds v)) (neighbours i l))
    | Raise _ =>
        exists pre p post,
          neighbours i l = pre ++ p :: post /\
          Forall (fun q => ~ stops (max_gap_seconds v) q) pre /\
          Forall2 describes found (List.filter (long_pair (max_gap_seconds v)) pre) /\
          stops (max_gap_seconds v) p
    end.
Proof.
  induction l as [|a rest IH]; intros i gaps s.
  { exists [], (Ok gaps). cbn. rewrite !app_nil_r. repeat split. constructor. }
  destruct rest as [|b rest'].
  { exists [], (Ok gaps). cbn. rewrite !app_nil_r. repeat split. constructor. }
  rewrite gaps_loop_step.
  change (neighbours i (a :: b :: rest')) with ((i, a, b) :: neighbours (i + 1) (b :: rest')).
  set (pair := (i, a, b)). set (later := neighbours (i + 1) (b :: rest')).
  assert (Hstop : stops (max_gap_seconds v) pair ->
    forall e : exn, exists (found : list gap_info) (r : res (list gap_info)),
      (@Raise (list gap_info) e, s) = (r, s ++ map timestamp_gap found) /\
      match r with
      | Ok gaps' =>
          gaps' = gaps ++ found /\
          Forall2 describes found (List.filter (long_pair (max_gap_seconds v)) (pair :: later))
      | Raise _ =>
          exists pre p post,
            pair :: later = pre ++ p :: post /\
            Forall (fun q => ~ stops (max_gap_seconds v) q) pre /\
            Forall2 describes found (List.filter (long_pair (max_gap_seconds v)) pre) /\
            stops (max_gap_seconds v) p
      end).
  { intros Hp e. exists [], (Raise e). cbn [map]. rewrite app_nil_r.
    split; [reflexivity|]. exists [], pair, later.
    split; [reflexivity|]. split; [constructor|]. split; [constructor|exact Hp]. }
  unfold mbind at 1. unfold lift at 1.
  destruct (F64.int_truediv (b - a) 1000000000) as [seconds|e] eqn:Ediv.
  2:{ apply Hstop. unfold stops, pair. rewrite Ediv. exact I. }
  assert (Elong : long_pair (max_gap_seconds v) pair = F64.gt_int seconds (max_gap_seconds v)).
  { unfold long_pair, pair, exceeds. rewrite Ediv. reflexivity. }
  destruct (F64.gt_int seconds (max_gap_seconds v)) eqn:Egt.
  - unfold mbind at 1. unfold lift at 1.
    destruct (_format_timestamp a) as [sa|e] eqn:Ea.
    2:{ apply Hstop. unfold stops, pair. rewrite Ediv. split; [exact Elong|].
        left. exists e. exact Ea. }
    unfold mbind at 1. unfold lift at 1.
    destruct (_format_timestamp b) as [sb|e] eqn:Eb.
    2:{ apply Hstop. unfold stops, pair. rewrite Ediv. split; [exact Elong|].
        right. exists e. exact Eb. }
    unfold mbind at 1. unfold append_issue at 1.
    set (g := {| index := i; gap_seconds := seconds;
                 gap_minutes := F64.div seconds (F64.nearest 60);
                 before := sa; after := sb |}).
    assert (Hg : describes g pair).
    { unfold describes, pair, g. cbn. auto. }
    assert (Hgo : ~ stops (max_gap_seconds v) pair).
    { unfold stops, pair. rewrite Ediv. intros [_ [[e He]|[e He]]]; congruence. }
    destruct (IH (i + 1) (gaps ++ [g]) (s ++ [timestamp_gap g])) as (found & r & Es & Hr).
    exists (g :: found), r. rewrite Es. cbn [map]. rewrite <- !app_assoc.
    split; [reflexivity|]. cbn [List.filter]. rewrite Elong.
    destruct r as [gaps'|e].
    + destruct Hr as [-> Hr]. rewrite <- app_assoc.
      split; [reflexivity|]. constructor; assumption.
    + destruct Hr as (pre & p & post & E & Hpre & Hfound & Hp).
      exists (pair :: pre), p, post. unfold later. rewrite E.
      split; [reflexivity|]. split; [constructor; assumption|].
      cbn [List.filter]. rewrite Elong. split; [constructor; assumption|exact Hp].
  - assert (Hgo : ~ stops (max_gap_seconds v) pair).
    { unfold stops. unfold pair at 1. rewrite Ediv. rewrite Elong.
      intros [Hl _]. discriminate Hl. }
    destruct (IH (i + 1) gaps s) as (found & r & Es & Hr).
    exists found, r. rewrite Es.
    split; [reflexivity|]. cbn [List.filter]. rewrite Elong.
    destruct r as [gaps'|e]; [exact Hr|].
    destruct Hr as (pre & p & post & E & Hpre & Hfound & Hp).
    exists (pair :: pre), p, post. unfold later. rewrite E.
    split; [reflexivity|]. split; [constructor; assumption|].
    cbn [List.filter]. rewrite Elong. split; assumption.
Qed.

(** C7: the gap check looks at the consecutive pairs of the extracted
    timestamps in sorted order, and a pair is a gap when its difference in
    seconds is strictly greater than [max_gap_seconds]: for a difference
    of [k] whole seconds, when [limit < k], so that a pair exactly
    [max_gap_minutes * 60] seconds apart is no gap and a pair 61 minutes
    apart is one when the limit is 60 minutes.  A returned report counts
    exactly the gaps, is valid iff there is none, lists the first ten and
    has one warning issue appended per gap, in order.  With fewer than two
    extracted timestamps the check is valid with a note and appends
    nothing.  The check raises only at a pair whose division overflows or
    at a gap one end of which cannot be formatted, the issues of the gaps
    before that pair being appended, or in the division of the limit by 60
    at the end. *)
Theorem gap_check_boundary (v : config) (data : list record) (ts sorted_ts : list Z)
    (s : list issue) :
  _extract_timestamps data = Ok ts ->
  Sorted Z.le sorted_ts -> sorted_ts ≡ₚ ts ->
  let limit := max_gap_seconds v in
  let pairs := neighbours 0 sorted_ts in
  let long := List.filter (long_pair limit) pairs in
  (forall k, - 2 ^ 53 < k < 2 ^ 53 -> exceeds limit (k * 10 ^ 9) = (limit <? k)) /\
  (len ts < 2 ->
   check_timestamp_gaps v data s = (Ok gaps_insufficient, s) /\
   check_valid gaps_insufficient = true) /\
  match check_timestamp_gaps v data s with
  | (Ok gaps_insufficient, s') => len ts < 2 /\ s' = s
  | (Ok (gaps_report valid gaps_found gaps total_gaps), s') =>
      2 <= len ts /\
      valid = (len long =? 0) /\ gaps_found = len long /\ total_gaps = len long /\
      exists found,
        Forall2 describes found long /\
        gaps = take 10 found /\
        s' = s ++ map timestamp_gap found /\
        Forall (fun i => issue_type i = "timestamp_gap" /\ severity i = "warning")
          (map timestamp_gap found)
  | (Ok _, _) => False
  | (Raise _, s') =>
      2 <= len ts /\
      exists found,
        s' = s ++ map timestamp_gap found /\
        ((exists pre p post,
            pairs = pre ++ p :: post /\
            Forall (fun q => ~ stops limit q) pre /\
            Forall2 describes found (List.filter (long_pair limit) pre) /\
            stops limit p) \/
         (Forall2 describes found long /\
          exists e, F64.int_truediv limit 60 = Raise e))
  end.
Proof.
  intros Hts Hsorted Hperm limit pairs long.
  split; [intros k Hk; apply exceeds_whole; exact Hk|].
  rewrite (check_timestamp_gaps_sorted v data ts s Hts).
  destruct (len ts <? 2) eqn:E2.
  { apply Z.ltb_lt in E2. cbn [mret]. repeat split; assumption. }
  apply Z.ltb_ge in E2. split; [lia|].
  rewrite (merge_sort_eq ts sorted_ts Hsorted) by (symmetry; exact Hperm).
  destruct (gaps_loop_pairs v sorted_ts 0 [] s) as (found & r & Erun & Hr).
  fold limit in Hr. fold pairs in Hr. fold long in Hr.
  unfold mbind at 1. rewrite Erun. destruct r as [gaps|e].
  - destruct Hr as [-> Hfound]. cbn [app].
    assert (Hlen : len found = len long).
    { unfold len. f_equal. exact (Forall2_length _ _ _ Hfound). }
    unfold mbind. unfold lift. fold limit.
    destruct (F64.int_truediv limit 60) as [f|e] eqn:Ediv.
    + cbn [mret]. rewrite Hlen. repeat split; try lia.
      exists found. split; [exact Hfound|]. split; [reflexivity|]. split; [reflexivity|].
      clear. induction found as [|g found IH]; constructor; [split; reflexivity|exact IH].
    + split; [lia|]. exists found. split; [reflexivity|]. right. eauto.
  - split; [lia|]. exists found. split; [reflexivity|]. left. exact Hr.
Qed.

End WithHost.

(** C2, as stated, fails: after a call that met a negative price, the
    report of a second call on clean data is valid and still lists the
    negative price of the first; a fresh instance reports no issue for the
    same data. *)
Lemma second_report_keeps_first_issues :
  let v := fst (init "trades" 60 ten) in
  let first := validate (H := UtcHost.utc_host) v [trade_negative] [] in
  let second := validate (H := UtcHost.utc_host) v [trade_good] (snd first) in
  snd (validate (H := UtcHost.utc_host) v [trade_good] []) = [] /\
  exists rep, fst second = Ok rep /\ valid rep = true /\
    report_issues rep (snd second) = Ok [negative_price (F64.nearest (-5))].
Proof.
  split; [vm_compute; reflexivity|].
  eexists. split; [vm_compute; reflexivity|]. split; vm_compute; reflexivity.
Qed.

Lemma price_range_check_witness :
  _extract_prices (H := UtcHost.utc_host) sample_closes
  = Ok [F64.nearest 100; F64.nearest 100; F64.nearest 100; F64.nearest 100;
        F64.nearest (-5)] /\
  pow_exact_on_sample (H := UtcHost.utc_host) /\
  check_price_range (H := UtcHost.utc_host) (fst (init "ohlcv-1h" 60 ten)) sample_closes []
  = (Ok (price_report false (F64.nearest (-5)) (F64.nearest 100)
           (F64.nearest 79) (F64.nearest 42) 1 0 0),
     [negative_price (F64.nearest (-5))]).
Proof.
  assert (Hpow : pow_exact_on_sample (H := UtcHost.utc_host)).
  { unfold pow_exact_on_sample. repeat split; vm_compute; reflexivity. }
  assert (Hprices : _extract_prices (H := UtcHost.utc_host) sample_closes
                    = Ok [F64.nearest 100; F64.nearest 100; F64.nearest 100;
                          F64.nearest 100; F64.nearest (-5)]) by (vm_compute; reflexivity).
  pose proof (price_range_check (H := UtcHost.utc_host)
                (fst (init "ohlcv-1h" 60 ten)) sample_closes _ [] Hprices) as Hc.
  cbv zeta in Hc. destruct Hc as (_ & _ & Hc).
  split; [exact Hprices|]. split; [exact Hpow|]. exact (Hc Hpow).
Defined.

Lemma gap_check_boundary_witness :
  (_extract_timestamps (H := UtcHost.utc_host) ticks_over_limit
   = Ok [t0 + 61 * 60 * 10 ^ 9; t0] /\
   Sorted Z.le [t0; t0 + 61 * 60 * 10 ^ 9] /\
   [t0; t0 + 61 * 60 * 10 ^ 9] ≡ₚ [t0 + 61 * 60 * 10 ^ 9; t0]) /\
  (exceeds 3600 (60 * 60 * 10 ^ 9) = false /\ exceeds 3600 (61 * 60 * 10 ^ 9) = true) /\
  check_timestamp_gaps (H := UtcHost.utc_host) (fst (init "ohlcv-1h" 60 ten))
    ticks_over_limit []
  = (Ok (gaps_report false 1 [gap_61] 1), [timestamp_gap gap_61]) /\
  check_timestamp_gaps (H := UtcHost.utc_host) (fst (init "ohlcv-1h" 60 ten))
    ticks_at_limit []
  = (Ok (gaps_report true 0 [] 0), []) /\
  List.filter (long_pair 3600)
    (neighbours 0 [t0; t0 + 60 * 60 * 10 ^ 9; t0 + 240 * 60 * 10 ^ 9])
  = [(1, t0 + 60 * 60 * 10 ^ 9, t0 + 240 * 60 * 10 ^ 9)] /\
  check_timestamp_gaps (H := UtcHost.utc_host) (fst (init "ohlcv-1h" 60 ten))
    ticks_late_gap []
  = (Ok (gaps_report false 1 [gap_180] 1), [timestamp_gap gap_180]).
Proof.
  set (v := fst (init "ohlcv-1h" 60 ten)).
  assert (E : _extract_timestamps (H := UtcHost.utc_host) ticks_over_limit
              = Ok [t0 + 61 * 60 * 10 ^ 9; t0]) by reflexivity.
  assert (S : Sorted Z.le [t0; t0 + 61 * 60 * 10 ^ 9])
    by (repeat constructor; vm_compute; discriminate).
  assert (P : [t0; t0 + 61 * 60 * 10 ^ 9] ≡ₚ [t0 + 61 * 60 * 10 ^ 9; t0])
    by apply Permutation_swap.
  destruct (gap_check_boundary (H := UtcHost.utc_host) v ticks_over_limit _ _ [] E S P)
    as (B & _ & _).
  change (max_gap_seconds v) with 3600 in B.
  split; [auto|]. split.
  { split; [exact (B 3600 ltac:(lia))|exact (B 3660 ltac:(lia))]. }
  repeat split; vm_compute; reflexivity.
Defined.

End DataValidatorProps.

(** ** A timestamp of 0 *)

Module ZeroTimestamp.
Import SessionFilter DataValidator SessionFilterProps.
#[local] Open Scope res_scope.

Section WithHost.
Context `{Host}.

Lemma extract_timestamps_skip r before after :
  truthy (derived_ts r) = false ->
  _extract_timestamps (before ++ r :: after) = _extract_timestamps (before ++ after).
Proof.
  intros Hr. induction before as [|r0 before IH]; cbn [app _extract_timestamps].
  - fold (derived_ts r). rewrite Hr. reflexivity.
  - rewrite IH. reflexivity.
Qed.

Lemma filter_by_session_loop_skip session_enums r before after :
  truthy (derived_ts r) = false ->
  forall filtered,
    filter_by_session_loop session_enums (before ++ r :: after) filtered
    = filter_by_session_loop session_enums (before ++ after) filtered.
Proof.
  intros Hr. induction before as [|r0 before IH]; intros filtered;
    cbn [app filter_by_session_loop].
  - rewrite Hr. reflexivity.
  - destruct (negb (truthy (derived_ts r0))); [apply IH|].
    destruct (in_any_session (derived_ts r0) session_enums) as [keep|e]; [|reflexivity].
    cbn [bind]. apply IH.
Qed.

Lemma only_zero_unusable r k :
  k ∈ ts_fields -> r !! k = Some (VInt 0) ->
  (forall k', k' ∈ ts_fields -> k' <> k -> r !! k' = None) ->
  truthy (derived_ts r) = false /\ truthy (derived_ts (delete k r)) = false.
Proof.
  unfold ts_fields. rewrite !elem_of_cons, elem_of_nil. intros Hk Hz Hothers.
  assert (Hget : forall k', k' ∈ ["ts_event"; "ts_recv"; "timestamp"] ->
            truthy (get r k') = false /\ truthy (get (delete k r) k') = false).
  { intros k' Hk'. unfold get. destruct (decide (k' = k)) as [->|Hne].
    - rewrite Hz, lookup_delete_eq. split; reflexivity.
    - rewrite lookup_delete_ne by congruence. rewrite (Hothers k' Hk' Hne).
      split; reflexivity. }
  destruct (Hget "ts_event") as [E1 E1']; [rewrite !elem_of_cons; auto|].
  destruct (Hget "ts_recv") as [E2 E2']; [rewrite !elem_of_cons; auto|].
  destruct (Hget "timestamp") as [E3 E3']; [rewrite !elem_of_cons; auto|].
  unfold derived_ts, por. rewrite E1, E2, E3, E1', E2', E3'. split; reflexivity.
Qed.

(** The timestamps are extracted record by record, in order. *)
Lemma extract_timestamps_app data1 data2 :
  _extract_timestamps (data1 ++ data2)
  = (ts1 <- _extract_timestamps data1 ;;
     ts2 <- _extract_timestamps data2 ;;
     Ok (ts1 ++ ts2)).
Proof.
  induction data1 as [|r data1 IH]; cbn [app _extract_timestamps bind].
  - destruct (_extract_timestamps data2); reflexivity.
  - destruct (truthy _); [|exact IH].
    destruct (py_int _) as [t|e]; cbn [bind]; [|reflexivity]. rewrite IH.
    destruct (_extract_timestamps data1) as [ts1|e]; cbn [bind]; [|reflexivity].
    destruct (_extract_timestamps data2); reflexivity.
Qed.

(** The session filter goes through the records in order. *)
Lemma filter_by_session_loop_app session_enums data1 data2 : forall filtered,
  filter_by_session_loop session_enums (data1 ++ data2) filtered
  = (kept <- filter_by_session_loop session_enums data1 filtered ;;
     filter_by_session_loop session_enums data2 kept).
Proof.
  induction data1 as [|r data1 IH]; intros filtered;
    cbn [app filter_by_session_loop bind]; [reflexivity|].
  destruct (negb (truthy (derived_ts r))); [apply IH|].
  destruct (in_any_session (derived_ts r) session_enums) as [keep|e]; cbn [bind];
    [apply IH|reflexivity].
Qed.

(** C9: a timestamp of 0 counts as missing.  If [ts_event] is 0 the
    derived timestamp is that of [ts_recv] and [timestamp], as without the
    field; and a record whose only timestamp field holds 0 is skipped by
    the timestamp extraction and dropped by the session filter, with the
    same results as for the record without that field.  Wherever a record
    whose [ts_event] is 0 stands in the data, the timestamp extraction
    gives for it the integer of its [ts_recv] or else [timestamp] value,
    if that is truthy, and nothing otherwise, and the session filter
    decides on that same value whether to keep the record. *)
Theorem zero_timestamp_is_missing (r0 r : record) (k : string)
    (before after : list record) (names : list string) :
  r0 !! "ts_event" = Some (VInt 0) ->
  k ∈ ts_fields -> r !! k = Some (VInt 0) ->
  (forall k', k' ∈ ts_fields -> k' <> k -> r !! k' = None) ->
  let fallback := por (get r0 "ts_recv") (get r0 "timestamp") in
  derived_ts r0 = por (get r0 "ts_recv") (get r0 "timestamp") /\
  derived_ts r0 = derived_ts (delete "ts_event" r0) /\
  usable r = false /\
  _extract_timestamps (before ++ r :: after) = _extract_timestamps (before ++ after) /\
  _extract_timestamps (before ++ r :: after)
  = _extract_timestamps (before ++ delete k r :: after) /\
  (forall session_enums filtered,
     filter_by_session_loop session_enums (before ++ r :: after) filtered
     = filter_by_session_loop session_enums (before ++ after) filtered) /\
  filter_by_session (before ++ r :: after) names
  = filter_by_session (before ++ delete k r :: after) names /\
  _extract_timestamps (before ++ r0 :: after)
  = (ts1 <- _extract_timestamps before ;;
     own <- (if truthy fallback then t <- py_int fallback ;; Ok [t] else Ok []) ;;
     ts2 <- _extract_timestamps after ;;
     Ok (ts1 ++ own ++ ts2)) /\
  (forall session_enums filtered,
     filter_by_session_loop session_enums (before ++ r0 :: after) filtered
     = (kept <- filter_by_session_loop session_enums before filtered ;;
        kept' <- (if truthy fallback
                  then keep <- in_any_session fallback session_enums ;;
                       Ok (if keep then kept ++ [r0] else kept)
                  else Ok kept) ;;
        filter_by_session_loop session_enums after kept')).
Proof.
  intros Hz0 Hk Hz Hothers fallback.
  destruct (only_zero_unusable r k Hk Hz Hothers) as [Hr Hr'].
  assert (E0 : derived_ts r0 = fallback).
  { unfold derived_ts. unfold get at 1. rewrite Hz0. reflexivity. }
  split; [exact E0|]. split.
  { rewrite E0. unfold fallback, derived_ts, get. rewrite lookup_delete_eq.
    rewrite !lookup_delete_ne by discriminate. reflexivity. }
  split; [exact Hr|]. split; [apply extract_timestamps_skip; exact Hr|].
  split; [rewrite !extract_timestamps_skip by assumption; reflexivity|].
  split; [intros; apply filter_by_session_loop_skip; exact Hr|].
  split.
  { unfold filter_by_session.
    destruct (map_res sessions_getitem names) as [session_enums|e]; [|reflexivity].
    cbn [bind]. rewrite !filter_by_session_loop_skip by assumption.
    destruct (filter_by_session_loop session_enums (before ++ after) []) as [filtered|e];
      [|reflexivity].
    cbn [bind]. unfold kept_percentage. rewrite !length_app. reflexivity. }
  split.
  - rewrite extract_timestamps_app. cbn [_extract_timestamps].
    fold (derived_ts r0). rewrite E0.
    destruct (_extract_timestamps before) as [ts1|e]; cbn [bind]; [|reflexivity].
    destruct (truthy fallback); cbn [bind app]; [|reflexivity].
    destruct (py_int fallback) as [t|e]; cbn [bind]; [|reflexivity].
    destruct (_extract_timestamps after); reflexivity.
  - intros session_enums filtered. rewrite filter_by_session_loop_app.
    cbn [filter_by_session_loop]. rewrite E0.
    destruct (filter_by_session_loop session_enums before filtered) as [kept|e];
      cbn [bind]; [|reflexivity].
    destruct (truthy fallback); cbn [negb bind]; [|reflexivity].
    destruct (in_any_session fallback session_enums); reflexivity.
Qed.

End WithHost.

Lemma zero_timestamp_is_missing_witness :
  (record_event_zero !! "ts_event" = Some (VInt 0) /\
   "ts_recv" ∈ ts_fields /\ record_only_zero !! "ts_recv" = Some (VInt 0) /\
   (forall k', k' ∈ ts_fields -> k' <> "ts_recv" -> record_only_zero !! k' = None)) /\
  derived_ts record_event_zero = VInt 5000 /\
  _extract_timestamps (H := UtcHost.utc_host) [record_0930; record_only_zero]
  = Ok [52200000000000] /\
  filter_by_session (H := UtcHost.utc_host) [record_0930; record_only_zero] ["NY"]
  = Ok [record_0930] /\
  _extract_timestamps (H := UtcHost.utc_host) [record_0930; record_event_zero]
  = Ok [52200000000000; 5000] /\
  filter_by_session_loop (H := UtcHost.utc_host) [ASIAN] [record_0930; record_event_zero] []
  = Ok [record_event_zero].
Proof.
  assert (H1 : record_event_zero !! "ts_event" = Some (VInt 0)) by reflexivity.
  assert (H2 : "ts_recv" ∈ ts_fields) by (unfold ts_fields; rewrite !elem_of_cons; auto).
  assert (H3 : record_only_zero !! "ts_recv" = Some (VInt 0)) by reflexivity.
  assert (H4 : forall k', k' ∈ ts_fields -> k' <> "ts_recv" -> record_only_zero !! k' = None).
  { unfold ts_fields. intros k'. rewrite !elem_of_cons, elem_of_nil.
    intros [->|[->|[->|[]]]] Hne; [reflexivity|contradiction|reflexivity]. }
  destruct (zero_timestamp_is_missing (H := UtcHost.utc_host) record_event_zero
              record_only_zero "ts_recv" [record_0930] [] ["NY"] H1 H2 H3 H4)
    as (E0 & _ & _ & E1 & _ & _ & E2 & E3 & E4).
  cbn [app] in E1, E2, E3.
  split; [auto|]. split; [rewrite E0; reflexivity|].
  split; [rewrite E1; vm_compute; reflexivity|].
  split; [rewrite E2; vm_compute; reflexivity|].
  split; [rewrite E3; vm_compute; reflexivity|].
  pose proof (E4 [ASIAN] []) as E5. cbn [app] in E5.
  rewrite E5. vm_compute. reflexivity.
Defined.

End ZeroTimestamp.

(* ================================================================= *)
(** * Part IV: further properties *)
(* ================================================================= *)

(** ** Lists *)

Module ListFacts.

Lemma elem_of_filter_true {A} (f : A -> bool) (l : list A) (x : A) :
  x ∈ List.filter f l -> x ∈ l /\ f x = true.
Proof. rewrite !list_elem_of_In. apply List.filter_In. Qed.

Lemma filter_length_Permutation {A} (f : A -> bool) (l1 l2 : list A) :
  l1 ≡ₚ l2 -> length (List.filter f l1) = length (List.filter f l2).
Proof.
  induction 1 as [|x l1 l2 _ IH|x y l|l1 l2 l3 _ IH1 _ IH2]; cbn [List.filter].
  - reflexivity.
  - destruct (f x); cbn [length]; congruence.
  - destruct (f x), (f y); reflexivity.
  - congruence.
Qed.

Lemma filter_ext_in {A} (f g : A -> bool) (l : list A) :
  (forall x, x ∈ l -> f x = g x) -> List.filter f l = List.filter g l.
Proof.
  intros Hfg. apply List.filter_ext_in. intros x Hx. apply Hfg, list_elem_of_In, Hx.
Qed.

Lemma filter_fst_length {K} (f : K -> bool) (counts : list (K * Z)) :
  length (List.filter (fun kc => f (fst kc)) counts) = length (List.filter f counts.*1).
Proof.
  induction counts as [|[k c] rest IH]; [reflexivity|].
  cbn [List.filter fmap list_fmap fst]. destruct (f k); cbn [length]; rewrite IH; reflexivity.
Qed.

End ListFacts.

(** ** More on filtering by session *)

Module SessionFilterMore.
Import SessionFilter SessionWindows F64Facts SessionFilterProps.

Ltac placeable_samples :=
  repeat constructor; intros Hu; try (vm_compute in Hu; discriminate Hu);
  eexists; vm_compute; reflexivity.
#[local] Open Scope res_scope.

Section WithHost.
Context `{Host}.

Lemma in_any_session_existsb ts_ns t dt session_enums :
  py_int ts_ns = Ok t -> to_et t = Ok dt ->
  in_any_session ts_ns session_enums
  = Ok (existsb (hour_in_session (Datetime.hour dt)) session_enums).
Proof.
  intros Ht Hdt. induction session_enums as [|session rest IH]; [reflexivity|].
  cbn [in_any_session existsb]. unfold is_in_session.
  rewrite Ht. cbn [bind]. rewrite Hdt. cbn [bind].
  destruct (hour_in_session (Datetime.hour dt) session); [reflexivity|exact IH].
Qed.

Lemma filter_by_session_loop_filter session_enums data : forall filtered,
  Forall placeable data ->
  filter_by_session_loop session_enums data filtered
  = Ok (filtered ++ List.filter (in_windows session_enums) data).
Proof.
  induction data as [|r data IH]; intros filtered Hok.
  - cbn. rewrite app_nil_r. reflexivity.
  - inversion Hok as [|? ? Hr Hrest]; subst.
    cbn [filter_by_session_loop List.filter]. unfold in_windows at 1.
    unfold usable in *. unfold placeable, usable in Hr.
    destruct (truthy (derived_ts r)) eqn:Etr; cbn [negb andb].
    + destruct (Hr eq_refl) as [h Eh]. rewrite Eh.
      destruct (record_et_hour_inv r h Eh) as (t & dt & Ht & Hdt & <-).
      rewrite (in_any_session_existsb _ t dt _ Ht Hdt). cbn [bind].
      rewrite IH by assumption.
      destruct (existsb _ _); [rewrite <- app_assoc|]; reflexivity.
    + apply IH. assumption.
Qed.

Lemma kept_percentage_ok (filtered data : list record) :
  (length filtered <= length data)%nat -> data <> [] ->
  exists f, kept_percentage filtered data = Ok f.
Proof.
  intros Hle Hne. unfold kept_percentage.
  destruct (int_truediv_le (Z.of_nat (length filtered)) (Z.of_nat (length data)))
    as [f ->]; [lia| |eexists; reflexivity].
  destruct data; [contradiction|]. cbn [length]. lia.
Qed.

Lemma filter_by_session_run (data : list record) (names : list string)
    (session_enums : list TradingSession) (filtered : list record) :
  map_res sessions_getitem names = Ok session_enums ->
  filter_by_session_loop session_enums data [] = Ok filtered ->
  data <> [] -> (length filtered <= length data)%nat ->
  filter_by_session data names = Ok filtered.
Proof.
  intros Hnames Hloop Hne Hlen. unfold filter_by_session. rewrite Hnames. cbn [bind].
  rewrite Hloop. cbn [bind].
  destruct (kept_percentage_ok filtered data) as [f ->]; [assumption..|reflexivity].
Qed.

(** On placeable data the filter for the sessions [session_enums] keeps
    the records inside their windows. *)
Lemma filter_by_session_filter (data : list record) (names : list string)
    (session_enums : list TradingSession) :
  map_res sessions_getitem names = Ok session_enums ->
  data <> [] ->
  Forall placeable data ->
  filter_by_session data names = Ok (List.filter (in_windows session_enums) data).
Proof.
  intros Hnames Hne Hok.
  apply (filter_by_session_run data names session_enums);
    [exact Hnames| |exact Hne|apply List.filter_length_le].
  apply (filter_by_session_loop_filter session_enums data []). exact Hok.
Qed.

(** X1: for any list of valid session names, on a non-empty record list
    whose usable timestamps can be placed on the ET clock,
    [filter_by_session] returns, in input order, exactly the records that
    have a usable derived timestamp and whose ET hour lies in the window of
    one of the named sessions. *)
Theorem filter_by_session_is_filter (data : list record) (names : list string)
    (session_enums : list TradingSession) :
  map_res sessions_getitem names = Ok session_enums ->
  data <> [] ->
  Forall placeable data ->
  filter_by_session data names = Ok (List.filter (in_windows session_enums) data).
Proof.
  intros Hnames Hne Hok. unfold filter_by_session. rewrite Hnames. cbn [bind].
  rewrite filter_by_session_loop_filter by exact Hok. cbn [bind app].
  destruct (kept_percentage_ok (List.filter (in_windows session_enums) data) data)
    as [f ->]; [apply List.filter_length_le|exact Hne|reflexivity].
Qed.

Lemma map_res_key_error names :
  Exists (fun s => sessions !! s = None) names ->
  map_res sessions_getitem names = Raise KeyError.
Proof.
  induction 1 as [s names Hs|s names _ IH]; cbn [map_res].
  - unfold sessions_getitem. rewrite Hs. reflexivity.
  - rewrite IH. destruct (sessions_getitem s) as [session|e] eqn:E; [reflexivity|].
    unfold sessions_getitem in E. destruct (sessions !! s); [discriminate|].
    injection E as <-. reflexivity.
Qed.

Lemma sessions_keys s : s ∈ all_session_names <-> is_Some (sessions !! s).
Proof.
  unfold all_session_names, sessions. rewrite !elem_of_cons, elem_of_nil. split.
  - intros [->|[->|[->|[]]]]; eexists; reflexivity.
  - intros [session Hs].
    apply lookup_insert_Some in Hs as [[<- _]|[_ Hs]]; [auto|].
    apply lookup_insert_Some in Hs as [[<- _]|[_ Hs]]; [auto|].
    apply lookup_singleton_Some in Hs as [<- _]. auto.
Qed.

(** X2: a requested name that is not a key of [self.sessions] makes
    [filter_by_session] raise [KeyError] before any record is looked at,
    whatever the data, the empty list included. *)
Theorem filter_by_session_unknown_name (data : list record) (names : list string) :
  Exists (fun s => s ∉ all_session_names) names ->
  filter_by_session data names = Raise KeyError.
Proof.
  intros Hex. unfold filter_by_session. rewrite map_res_key_error; [reflexivity|].
  eapply Exists_impl; [exact Hex|]. intros s Hs. cbn beta in *.
  destruct (sessions !! s) eqn:E; [|reflexivity].
  exfalso. apply Hs, sessions_keys. eauto.
Qed.

Lemma filter_by_session_loop_sublist session_enums data : forall filtered out,
  filter_by_session_loop session_enums data filtered = Ok out ->
  exists kept, out = filtered ++ kept /\ kept `sublist_of` data /\
               Forall (fun r => usable r = true) kept /\
               (session_enums = [] -> kept = []).
Proof.
  induction data as [|r data IH]; intros filtered out; cbn [filter_by_session_loop].
  - intros [= <-]. exists []. rewrite app_nil_r. repeat split; constructor.
  - destruct (truthy (derived_ts r)) eqn:Etr; cbn [negb].
    + destruct (in_any_session (derived_ts r) session_enums) as [keep|e] eqn:Ekeep;
        [|discriminate].
      cbn [bind]. intros Hloop. apply IH in Hloop as (kept & -> & Hsub & Hus & Hnil).
      destruct keep.
      * exists (r :: kept). rewrite <- app_assoc. repeat split.
        -- apply sublist_skip. exact Hsub.
        -- constructor; assumption.
        -- intros ->. discriminate Ekeep.
      * exists kept. repeat split; [apply sublist_cons|..]; assumption.
    + intros Hloop. apply IH in Hloop as (kept & -> & Hsub & Hus & Hnil).
      exists kept. repeat split; [apply sublist_cons|..]; assumption.
Qed.

(** X3: whenever [filter_by_session] returns, its result is a sub-list
    of the input in input order, every record of it has a usable
    timestamp, the input was not empty and every requested name is one of
    Asian, London and NY. *)
Theorem filter_by_session_keeps_sublist (data : list record) (names : list string)
    (out : list record) :
  filter_by_session data names = Ok out ->
  out `sublist_of` data /\ Forall (fun r => usable r = true) out /\ data <> [] /\
  Forall (fun s => s ∈ all_session_names) names.
Proof.
  unfold filter_by_session.
  destruct (map_res sessions_getitem names) as [session_enums|e] eqn:Enames; [|discriminate].
  cbn [bind].
  destruct (filter_by_session_loop session_enums data []) as [filtered|e] eqn:Eloop;
    [|discriminate].
  cbn [bind]. destruct (kept_percentage filtered data) as [f|e] eqn:Epct; [|discriminate].
  cbn [bind]. intros [= <-].
  apply filter_by_session_loop_sublist in Eloop as (kept & -> & Hsub & Hus & _).
  cbn [app]. repeat split; try assumption.
  - intros ->. apply sublist_nil_r in Hsub. subst kept. discriminate Epct.
  - apply Forall_forall. intros s Hs. apply sessions_keys.
    destruct (sessions !! s) eqn:E; [eauto|]. exfalso.
    rewrite map_res_key_error in Enames; [discriminate|].
    apply Exists_exists. exists s. split; [exact Hs|exact E].
Qed.

(** X4: with no session requested and non-empty data,
    [filter_by_session] returns the empty list; no timestamp is converted,
    so unreadable timestamps do not make it raise. *)
Theorem filter_by_no_session (data : list record) :
  data <> [] -> filter_by_session data [] = Ok [].
Proof.
  intros Hne. unfold filter_by_session. cbn [map_res bind].
  assert (Hloop : forall filtered, filter_by_session_loop [] data filtered = Ok filtered).
  { induction data as [|r data' IH]; intros filtered; [reflexivity|].
    cbn [filter_by_session_loop in_any_session].
    destruct (negb (truthy (derived_ts r))); cbn [bind].
    - destruct data'; [reflexivity|]. apply IH. discriminate.
    - destruct data'; [reflexivity|]. apply IH. discriminate. }
  rewrite Hloop. cbn [bind].
  destruct (kept_percentage_ok [] data) as [f ->]; [cbn; lia|assumption|reflexivity].
Qed.

Lemma filter_by_session_loop_kept session_enums data : forall filtered out,
  filter_by_session_loop session_enums data filtered = Ok out ->
  exists kept, out = filtered ++ kept /\
    Forall (fun r => usable r = true /\
                     in_any_session (derived_ts r) session_enums = Ok true) kept.
Proof.
  induction data as [|r data IH]; intros filtered out; cbn [filter_by_session_loop].
  - intros [= <-]. exists []. rewrite app_nil_r. split; constructor.
  - destruct (truthy (derived_ts r)) eqn:Etr; cbn [negb].
    + destruct (in_any_session (derived_ts r) session_enums) as [keep|e] eqn:Ekeep;
        [|discriminate].
      cbn [bind]. intros Hloop. apply IH in Hloop as (kept & -> & Hk).
      destruct keep.
      * exists (r :: kept). rewrite <- app_assoc. split; [reflexivity|].
        constructor; [split; assumption|assumption].
      * exists kept. split; [reflexivity|assumption].
    + intros Hloop. apply IH in Hloop as (kept & -> & Hk).
      exists kept. split; [reflexivity|assumption].
Qed.

Lemma filter_by_session_loop_keep_all session_enums kept : forall filtered,
  Forall (fun r => usable r = true /\
                   in_any_session (derived_ts r) session_enums = Ok true) kept ->
  filter_by_session_loop session_enums kept filtered = Ok (filtered ++ kept).
Proof.
  induction kept as [|r kept IH]; intros filtered Hk.
  - cbn. rewrite app_nil_r. reflexivity.
  - inversion Hk as [|? ? [Hu Hin] Hrest]; subst. cbn [filter_by_session_loop].
    unfold usable in Hu. rewrite Hu, Hin. cbn [negb bind].
    rewrite IH by assumption. rewrite <- app_assoc. reflexivity.
Qed.

(** X5: filtering a result of [filter_by_session] again by the same
    sessions returns it unchanged, unless it is empty: then the second
    call raises [ZeroDivisionError]. *)
Theorem filter_by_session_twice (data : list record) (names : list string)
    (out : list record) :
  filter_by_session data names = Ok out ->
  filter_by_session out names
  = match out with [] => Raise ZeroDivisionError | _ :: _ => Ok out end.
Proof.
  unfold filter_by_session.
  destruct (map_res sessions_getitem names) as [session_enums|e] eqn:Enames; [|discriminate].
  cbn [bind].
  destruct (filter_by_session_loop session_enums data []) as [filtered|e] eqn:Eloop;
    [|discriminate].
  cbn [bind]. destruct (kept_percentage filtered data) as [f|e] eqn:Epct; [|discriminate].
  cbn [bind]. intros [= <-].
  apply filter_by_session_loop_kept in Eloop as (kept & -> & Hk). cbn [app].
  rewrite filter_by_session_loop_keep_all by assumption. cbn [bind app].
  destruct kept as [|r kept]; [reflexivity|].
  destruct (kept_percentage_ok (r :: kept) (r :: kept)) as [g ->];
    [lia|discriminate|reflexivity].
Qed.

End WithHost.

Import UtcHost.

Lemma filter_by_session_is_filter_witness :
  map_res sessions_getitem ["London"; "NY"] = Ok [LONDON; NY] /\
  [record_0300; record_0930; record_1600] <> [] /\
  Forall (placeable (H := utc_host)) [record_0300; record_0930; record_1600] /\
  filter_by_session (H := utc_host) [record_0300; record_0930; record_1600] ["London"; "NY"]
  = Ok [record_0300; record_0930].
Proof.
  assert (Hn : map_res sessions_getitem ["London"; "NY"] = Ok [LONDON; NY]) by reflexivity.
  assert (Hne : [record_0300; record_0930; record_1600] <> []) by discriminate.
  assert (Hok : Forall (placeable (H := utc_host)) [record_0300; record_0930; record_1600])
    by placeable_samples.
  split; [exact Hn|]. split; [exact Hne|]. split; [exact Hok|].
  rewrite (filter_by_session_is_filter (H := utc_host) _ _ _ Hn Hne Hok).
  vm_compute. reflexivity.
Defined.

Lemma filter_by_session_unknown_name_witness :
  Exists (fun s => s ∉ all_session_names) ["NY"; "Tokyo"] /\
  filter_by_session (H := utc_host) [record_bad_ts] ["NY"; "Tokyo"] = Raise KeyError.
Proof.
  assert (Hex : Exists (fun s => s ∉ all_session_names) ["NY"; "Tokyo"]).
  { right. left. unfold all_session_names. rewrite !elem_of_cons, elem_of_nil.
    intros [E|[E|[E|[]]]]; discriminate E. }
  split; [exact Hex|].
  exact (filter_by_session_unknown_name (H := utc_host) _ _ Hex).
Defined.

Lemma filter_by_session_keeps_sublist_witness :
  filter_by_session (H := utc_host) [record_no_ts; record_0930; record_1600] ["NY"]
  = Ok [record_0930] /\
  [record_0930] `sublist_of` [record_no_ts; record_0930; record_1600] /\
  Forall (fun r => usable r = true) [record_0930].
Proof.
  assert (E : filter_by_session (H := utc_host) [record_no_ts; record_0930; record_1600] ["NY"]
              = Ok [record_0930]) by (vm_compute; reflexivity).
  split; [exact E|].
  destruct (filter_by_session_keeps_sublist (H := utc_host) _ _ _ E) as (Hs & Hu & _).
  split; [exact Hs|exact Hu].
Defined.

Lemma filter_by_no_session_witness :
  [record_bad_ts] <> [] /\ filter_by_session (H := utc_host) [record_bad_ts] [] = Ok [].
Proof.
  assert (Hne : [record_bad_ts] <> []) by discriminate.
  split; [exact Hne|]. exact (filter_by_no_session (H := utc_host) _ Hne).
Defined.

Lemma filter_by_session_twice_witness :
  filter_by_session (H := utc_host) [record_1600; record_0930] ["NY"] = Ok [record_0930] /\
  filter_by_session (H := utc_host) [record_0930] ["NY"] = Ok [record_0930].
Proof.
  assert (E : filter_by_session (H := utc_host) [record_1600; record_0930] ["NY"]
              = Ok [record_0930]) by (vm_compute; reflexivity).
  split; [exact E|]. exact (filter_by_session_twice (H := utc_host) _ _ _ E).
Defined.

End SessionFilterMore.


(** ** Session statistics *)

Module SessionStatsProps.
Import SessionFilter SessionStats SessionWindows F64Facts SessionFilterProps SessionFilterMore.
Import ListFacts F64Exact.
Import DataValidator.
#[local] Open Scope res_scope.

Lemma bump_nil s : (exists a, volume s = NInt a) -> bump s [] = s.
Proof.
  intros [a Ha]. destruct s as [c v t p]. cbn in Ha. subst v. unfold bump. cbn.
  f_equal; try lia. f_equal. lia.
Qed.

Lemma count_record_int r s a z :
  volume s = NInt a -> int_volume r = Some z ->
  count_record r s =
  Ok {| count := count s + 1; volume := NInt (a + z);
        trades := trades s + (if bool_decide (is_Some (r !! "size")) then 1 else 0);
        percentage := percentage s |}.
Proof.
  intros Ha Hz. unfold count_record, int_volume in *. cbn [volume count trades percentage].
  rewrite Ha.
  assert (Hsz : forall A (x y : A), match r !! "size" with Some _ => x | None => y end
            = if bool_decide (is_Some (r !! "size")) then x else y).
  { intros. destruct (r !! "size"); [rewrite bool_decide_eq_true_2 by eauto|
      rewrite bool_decide_eq_false_2 by (intros [? [=]])]; reflexivity. }
  destruct (r !! "volume") as [[| b | z' | | | |]|]; try discriminate Hz;
    injection Hz as <-; cbn [add_value bind volume count trades percentage];
    rewrite Hsz; destruct (bool_decide _); do 2 f_equal; try lia; f_equal; lia.
Qed.

Section WithHost.
Context `{Host}.

Lemma in_windows_one r h session :
  usable r = true -> record_et_hour r = Ok h ->
  in_windows [session] r = hour_in_session h session.
Proof.
  intros Hu Hh. unfold in_windows. rewrite Hu, Hh. cbn. apply orb_false_r.
Qed.

Lemma in_windows_unusable r session_enums :
  usable r = false -> in_windows session_enums r = false.
Proof. intros Hu. unfold in_windows. rewrite Hu. reflexivity. Qed.

Lemma in_windows_all r h :
  usable r = true -> record_et_hour r = Ok h ->
  in_windows [ASIAN; LONDON; NY] r
  = hour_in_session h ASIAN || hour_in_session h LONDON || hour_in_session h NY.
Proof.
  intros Hu Hh. unfold in_windows. rewrite Hu, Hh. cbn.
  rewrite orb_false_r, orb_assoc. reflexivity.
Qed.

Lemma hour_in_session_disjoint h s1 s2 :
  hour_in_session h s1 = true -> hour_in_session h s2 = true -> s1 = s2.
Proof.
  pose proof (hour_in_session_ASIAN h) as HA.
  pose proof (hour_in_session_LONDON h) as HL.
  pose proof (hour_in_session_NY h) as HN.
  intros E1 E2. destruct s1, s2; try reflexivity; exfalso;
    (apply HA in E1 || apply HL in E1 || apply HN in E1);
    (apply HA in E2 || apply HL in E2 || apply HN in E2); lia.
Qed.

Lemma in_windows_one_cases r :
  placeable r ->
  (in_windows [ASIAN] r = false /\ in_windows [LONDON] r = false /\
   in_windows [NY] r = false /\ in_windows [ASIAN; LONDON; NY] r = false) \/
  (exists session, in_windows [session] r = true /\
     in_windows [ASIAN; LONDON; NY] r = true /\
     forall s', s' <> session -> in_windows [s'] r = false).
Proof.
  intros Hp. destruct (usable r) eqn:Hu.
  - destruct (Hp Hu) as [h Hh].
    rewrite (in_windows_all r h Hu Hh), !(in_windows_one r h _ Hu Hh).
    destruct (hour_in_session h ASIAN) eqn:EA;
      [|destruct (hour_in_session h LONDON) eqn:EL;
        [|destruct (hour_in_session h NY) eqn:EN]].
    4: { left. auto. }
    all: right; eexists; rewrite (in_windows_one r h _ Hu Hh);
      (split; [eassumption|]); (split; [reflexivity|]);
      intros s' Hs'; rewrite (in_windows_one r h _ Hu Hh);
      destruct (hour_in_session h s') eqn:E'; [|reflexivity];
      exfalso; apply Hs'; eapply hour_in_session_disjoint; eassumption.
  - left. rewrite !in_windows_unusable by assumption. auto.
Qed.

Lemma tally_record_spec r a l n :
  usable r = true -> placeable r ->
  (in_windows [ASIAN; LONDON; NY] r = true -> is_Some (int_volume r)) ->
  (exists x, volume a = NInt x) -> (exists x, volume l = NInt x) ->
  (exists x, volume n = NInt x) ->
  tally_record r (derived_ts r) sessions_items (three a l n)
  = Ok (three (bump a (List.filter (in_windows [ASIAN]) [r]))
              (bump l (List.filter (in_windows [LONDON]) [r]))
              (bump n (List.filter (in_windows [NY]) [r]))).
Proof.
  intros Hu Hp Hv [xa Ha] [xl Hl] [xn Hn].
  destruct (Hp Hu) as [h Hh].
  destruct (record_et_hour_inv r h Hh) as (t & dt & Ht & Hdt & <-).
  rewrite (in_windows_all r _ Hu Hh) in Hv.
  cbn [List.filter]. rewrite !(in_windows_one r _ _ Hu Hh).
  unfold sessions_items, three. cbn [tally_record].
  rewrite Ht. cbn [bind]. rewrite !(is_in_session_hour t dt _ Hdt). cbn [bind].
  assert (Hb : forall s x z, volume s = NInt x -> int_volume r = Some z ->
     Ok (bump s [r]) = count_record r s).
  { intros s x z Hs Hz. rewrite (count_record_int r s x z Hs Hz).
    unfold bump, sized, volume_sum. cbn [foldr List.filter]. rewrite Hs, Hz.
    cbn [default].
    destruct (bool_decide _); cbn [length]; unfold id; rewrite Z.add_0_r; reflexivity. }
  destruct (hour_in_session (Datetime.hour dt) ASIAN) eqn:EA.
  { destruct Hv as [z Hz]; [reflexivity|].
    assert (hour_in_session (Datetime.hour dt) LONDON = false) as ->.
    { destruct (hour_in_session _ LONDON) eqn:E; [|reflexivity].
      discriminate (hour_in_session_disjoint _ _ _ EA E). }
    assert (hour_in_session (Datetime.hour dt) NY = false) as ->.
    { destruct (hour_in_session _ NY) eqn:E; [|reflexivity].
      discriminate (hour_in_session_disjoint _ _ _ EA E). }
    cbn [update String.eqb Ascii.eqb Bool.eqb]. rewrite <- (Hb a xa z Ha Hz). cbn [bind].
    rewrite !bump_nil by eauto. reflexivity. }
  destruct (hour_in_session (Datetime.hour dt) LONDON) eqn:EL.
  { destruct Hv as [z Hz]; [reflexivity|].
    assert (hour_in_session (Datetime.hour dt) NY = false) as ->.
    { destruct (hour_in_session _ NY) eqn:E; [|reflexivity].
      discriminate (hour_in_session_disjoint _ _ _ EL E). }
    cbn. rewrite <- (Hb l xl z Hl Hz). cbn [bind].
    rewrite !bump_nil by eauto. reflexivity. }
  destruct (hour_in_session (Datetime.hour dt) NY) eqn:EN.
  { destruct Hv as [z Hz]; [reflexivity|].
    cbn. rewrite <- (Hb n xn z Hn Hz). cbn [bind].
    rewrite !bump_nil by eauto. reflexivity. }
  rewrite !bump_nil by eauto. reflexivity.
Qed.

Lemma bump_app s b1 b2 : bump (bump s b1) b2 = bump s (b1 ++ b2).
Proof.
  unfold bump, sized, volume_sum. cbn [count volume trades percentage].
  rewrite List.filter_app, !length_app, foldr_app, !Nat2Z.inj_add.
  f_equal; try lia.
  destruct (volume s) as [a|f]; [|reflexivity]. f_equal.
  generalize (foldr (fun r acc => default 0 (int_volume r) + acc) 0 b2). intros z.
  induction b1 as [|r b1 IH]; cbn [foldr]; lia.
Qed.

Lemma bump_int s b : (exists x, volume s = NInt x) -> exists x, volume (bump s b) = NInt x.
Proof. intros [x Hx]. unfold bump. cbn. rewrite Hx. eauto. Qed.

Lemma tally_spec data : forall a l n,
  Forall placeable data ->
  Forall (fun r => in_windows [ASIAN; LONDON; NY] r = true -> is_Some (int_volume r)) data ->
  (exists x, volume a = NInt x) -> (exists x, volume l = NInt x) ->
  (exists x, volume n = NInt x) ->
  tally data (three a l n)
  = Ok (three (bump a (List.filter (in_windows [ASIAN]) data))
              (bump l (List.filter (in_windows [LONDON]) data))
              (bump n (List.filter (in_windows [NY]) data))).
Proof.
  induction data as [|r data IH]; intros a l n Hp Hv Ha Hl Hn.
  - cbn [tally List.filter]. rewrite !bump_nil by assumption. reflexivity.
  - inversion Hp as [|? ? Hpr Hprest]; inversion Hv as [|? ? Hvr Hvrest]; subst.
    cbn [tally]. fold (usable r).
    assert (Hsplit : forall session, List.filter (in_windows [session]) (r :: data)
              = List.filter (in_windows [session]) [r]
                ++ List.filter (in_windows [session]) data).
    { intros session. change (r :: data) with ([r] ++ data). apply List.filter_app. }
    rewrite !Hsplit, <- !bump_app.
    destruct (usable r) eqn:Hu; cbn [negb].
    + rewrite tally_record_spec by assumption. cbn [bind].
      apply IH; try assumption; apply bump_int; assumption.
    + cbn [List.filter]. rewrite !in_windows_unusable by assumption.
      rewrite !bump_nil by assumption. apply IH; assumption.
Qed.

Lemma set_percentages a l n :
  0 <= count a -> 0 <= count l -> 0 <= count n ->
  exists pa pl pn,
    map_res (set_percentage (total_count (three a l n))) (three a l n)
    = Ok (three {| count := count a; volume := volume a; trades := trades a;
                   percentage := Some pa |}
                {| count := count l; volume := volume l; trades := trades l;
                   percentage := Some pl |}
                {| count := count n; volume := volume n; trades := trades n;
                   percentage := Some pn |}) /\
    if 0 <? count a + count l + count n
    then exists fa fl fn, pa = NFloat fa /\ pl = NFloat fl /\ pn = NFloat fn
    else pa = NInt 0 /\ pl = NInt 0 /\ pn = NInt 0.
Proof.
  intros Ha Hl Hn. unfold three, total_count. cbn [fold_left snd map_res].
  unfold set_percentage. cbn [fst snd]. rewrite Z.add_0_l.
  destruct (0 <? count a + count l + count n) eqn:Et.
  - apply Z.ltb_lt in Et.
    destruct (int_truediv_le (count a) (count a + count l + count n)) as [fa ->]; [lia..|].
    destruct (int_truediv_le (count l) (count a + count l + count n)) as [fl ->]; [lia..|].
    destruct (int_truediv_le (count n) (count a + count l + count n)) as [fn ->]; [lia..|].
    cbn [bind]. do 3 eexists. split; [reflexivity|]. eauto 7.
  - cbn [bind]. do 3 eexists. split; [reflexivity|]. auto.
Qed.

(** X7: on data without any usable timestamp, the empty list
    included, [calculate_session_stats] returns count, volume and trades 0
    and the int percentage 0 for each session; it does not divide by
    zero. *)
Theorem session_stats_without_timestamps (data : list record) :
  Forall (fun r => usable r = false) data ->
  calculate_session_stats data = Ok (three zero_stats zero_stats zero_stats).
Proof.
  intros Hno. unfold calculate_session_stats.
  assert (Hnil : forall session_enums, List.filter (in_windows session_enums) data = []).
  { intros session_enums. induction Hno as [|r data Hr _ IH]; [reflexivity|].
    cbn [List.filter]. rewrite in_windows_unusable by assumption. exact IH. }
  change initial_stats with (three empty_stats empty_stats empty_stats).
  rewrite tally_spec.
  - rewrite !Hnil. reflexivity.
  - eapply Forall_impl; [exact Hno|]. intros r Hr Hu. congruence.
  - eapply Forall_impl; [exact Hno|]. intros r Hr Hin.
    rewrite in_windows_unusable in Hin by assumption. discriminate.
  - exists 0. reflexivity.
  - exists 0. reflexivity.
  - exists 0. reflexivity.
Qed.

(** X8: on non-empty data whose usable timestamps can be placed and
    whose volumes, for the records inside a session, are ints or absent,
    the statistics of each session are those of the records
    [filter_by_session] keeps for that session: ["count"] is their number,
    ["volume"] the sum of their volumes, ["trades"] the number of them
    that have a ["size"] key.  The percentages are the int 0 when no
    record is inside any session, and floats otherwise. *)
Theorem session_stats_match_filter (data : list record) :
  data <> [] ->
  Forall placeable data ->
  Forall (fun r => in_windows [ASIAN; LONDON; NY] r = true -> is_Some (int_volume r)) data ->
  exists asian london ny pa pl pn,
    filter_by_session data ["Asian"] = Ok asian /\
    filter_by_session data ["London"] = Ok london /\
    filter_by_session data ["NY"] = Ok ny /\
    calculate_session_stats data
    = Ok [("Asian", {| count := Z.of_nat (length asian); volume := NInt (volume_sum asian);
                       trades := Z.of_nat (length (sized asian));
                       percentage := Some pa |});
          ("London", {| count := Z.of_nat (length london); volume := NInt (volume_sum london);
                        trades := Z.of_nat (length (sized london));
                        percentage := Some pl |});
          ("NY", {| count := Z.of_nat (length ny); volume := NInt (volume_sum ny);
                    trades := Z.of_nat (length (sized ny));
                    percentage := Some pn |})] /\
    match asian ++ london ++ ny with
    | [] => pa = NInt 0 /\ pl = NInt 0 /\ pn = NInt 0
    | _ :: _ => exists fa fl fn, pa = NFloat fa /\ pl = NFloat fl /\ pn = NFloat fn
    end.
Proof.
  intros Hne Hp Hv.
  exists (List.filter (in_windows [ASIAN]) data), (List.filter (in_windows [LONDON]) data),
    (List.filter (in_windows [NY]) data).
  unfold calculate_session_stats.
  change initial_stats with (three empty_stats empty_stats empty_stats).
  rewrite tally_spec by (try assumption; exists 0; reflexivity). cbn [bind].
  destruct (set_percentages (bump empty_stats (List.filter (in_windows [ASIAN]) data))
              (bump empty_stats (List.filter (in_windows [LONDON]) data))
              (bump empty_stats (List.filter (in_windows [NY]) data)))
    as (pa & pl & pn & -> & Hpct); try (cbn; lia).
  exists pa, pl, pn.
  repeat split; try (apply filter_by_session_filter; [reflexivity|assumption..]).
  cbn [bump count volume trades empty_stats] in Hpct.
  destruct (List.filter (in_windows [ASIAN]) data ++ List.filter (in_windows [LONDON]) data
            ++ List.filter (in_windows [NY]) data) as [|r rest] eqn:E.
  - apply app_eq_nil in E as [E1 E]. apply app_eq_nil in E as [E2 E3].
    rewrite E1, E2, E3 in Hpct. exact Hpct.
  - assert (Hlen : (0 < length (List.filter (in_windows [ASIAN]) data)
                      + length (List.filter (in_windows [LONDON]) data)
                      + length (List.filter (in_windows [NY]) data))%nat).
    { rewrite <- Nat.add_assoc, <- !length_app, E. cbn. lia. }
    destruct (0 <? _) eqn:Et in Hpct; [exact Hpct|]. apply Z.ltb_ge in Et. lia.
Qed.

Lemma tally_app data1 data2 stats :
  tally (data1 ++ data2) stats = (stats' <- tally data1 stats ;; tally data2 stats').
Proof.
  revert stats. induction data1 as [|r data1 IH]; intros stats; [reflexivity|].
  cbn [app tally]. destruct (negb (truthy (derived_ts r))); [apply IH|].
  destruct (tally_record r (derived_ts r) sessions_items stats) as [stats'|e];
    [|reflexivity].
  cbn [bind]. apply IH.
Qed.

Lemma count_record_type_error r s v :
  r !! "volume" = Some v -> not_a_number v = true -> count_record r s = Raise TypeError.
Proof.
  intros Hv Hnn. unfold count_record. rewrite Hv. cbn [volume].
  destruct (volume s), v; try discriminate Hnn; reflexivity.
Qed.

(** X9: a record inside a session whose ["volume"] is [None], a
    string, a list or a dict makes [calculate_session_stats] raise
    [TypeError], whatever follows it (the records before it being
    well-formed). *)
Theorem session_stats_volume_type_error (before after : list record) (r : record) (v : pyval) :
  Forall placeable before ->
  Forall (fun r => in_windows [ASIAN; LONDON; NY] r = true -> is_Some (int_volume r)) before ->
  in_windows [ASIAN; LONDON; NY] r = true ->
  r !! "volume" = Some v -> not_a_number v = true ->
  calculate_session_stats (before ++ r :: after) = Raise TypeError.
Proof.
  intros Hp Hv Hin Hvol Hnn. unfold calculate_session_stats.
  rewrite tally_app.
  change initial_stats with (three empty_stats empty_stats empty_stats).
  rewrite tally_spec by (try assumption; exists 0; reflexivity). cbn [bind tally].
  unfold in_windows in Hin. apply andb_true_iff in Hin as [Hu Hin].
  fold (usable r). rewrite Hu. cbn [negb].
  destruct (record_et_hour r) as [h|e] eqn:Hh; [|discriminate Hin].
  destruct (record_et_hour_inv r h Hh) as (t & dt & Ht & Hdt & <-).
  unfold sessions_items, three. cbn [tally_record].
  rewrite Ht. cbn [bind]. rewrite !(is_in_session_hour t dt _ Hdt). cbn [bind].
  cbn [existsb] in Hin.
  destruct (hour_in_session (Datetime.hour dt) ASIAN).
  { cbn [update String.eqb Ascii.eqb Bool.eqb].
    rewrite (count_record_type_error r _ v Hvol Hnn). reflexivity. }
  destruct (hour_in_session (Datetime.hour dt) LONDON).
  { cbn [update String.eqb Ascii.eqb Bool.eqb].
    rewrite (count_record_type_error r _ v Hvol Hnn). reflexivity. }
  destruct (hour_in_session (Datetime.hour dt) NY); [|discriminate Hin].
  cbn [update String.eqb Ascii.eqb Bool.eqb].
  rewrite (count_record_type_error r _ v Hvol Hnn). reflexivity.
Qed.

(** X6: on non-empty data whose usable timestamps can be placed, the
    filters for Asian, for London, for NY and for all three return; no
    record of one single-session result is in another, and the three
    together are a permutation of the all-sessions result. *)
Theorem session_buckets_partition (data : list record) :
  data <> [] ->
  Forall placeable data ->
  exists asian london ny every,
    filter_by_session data ["Asian"] = Ok asian /\
    filter_by_session data ["London"] = Ok london /\
    filter_by_session data ["NY"] = Ok ny /\
    filter_by_session data ["Asian"; "London"; "NY"] = Ok every /\
    every ≡ₚ (asian ++ london ++ ny) /\
    (forall r, r ∈ asian -> (r ∉ london) /\ (r ∉ ny)) /\
    (forall r, r ∈ london -> r ∉ ny).
Proof.
  intros Hne Hp.
  assert (Hdisj : forall r s1 s2, r ∈ data -> s1 <> s2 ->
            in_windows [s1] r = true -> in_windows [s2] r = true -> False).
  { intros r s1 s2 Hd Hneq H1 H2.
    apply Forall_forall with (x := r) in Hp; [|exact Hd].
    destruct (in_windows_one_cases r Hp) as [(EA & EL & EN & _)|(session & _ & _ & Hothers)].
    - destruct s1; congruence.
    - assert (s1 = session \/ s1 <> session) as [->|Hs1]
        by (destruct s1, session; (left; reflexivity) || (right; discriminate));
        [rewrite (Hothers s2) in H2 by congruence|rewrite (Hothers s1) in H1 by exact Hs1];
        discriminate. }
  exists (List.filter (in_windows [ASIAN]) data), (List.filter (in_windows [LONDON]) data),
    (List.filter (in_windows [NY]) data), (List.filter (in_windows [ASIAN; LONDON; NY]) data).
  do 4 (split; [apply filter_by_session_filter; [reflexivity|assumption..]|]).
  split; [|split].
  - clear Hne Hdisj. induction Hp as [|r data Hr _ IH]; [reflexivity|].
    cbn [List.filter].
    destruct (in_windows_one_cases r Hr) as [(-> & -> & -> & ->)|(session & Hs & -> & Hothers)];
      [exact IH|].
    destruct session; rewrite Hs, !Hothers by discriminate; cbn [app].
    + constructor. exact IH.
    + rewrite IH. apply Permutation_middle.
    + rewrite IH, !app_assoc. apply Permutation_middle.
  - intros r [Hd Ha]%elem_of_filter_true.
    split; intros [_ Hx]%elem_of_filter_true; revert Ha Hx;
      (apply Hdisj; [exact Hd|discriminate]).
  - intros r [Hd Hl]%elem_of_filter_true [_ Hn]%elem_of_filter_true.
    revert Hl Hn. apply Hdisj; [exact Hd|discriminate].
Qed.

(** *** Percentages when one session holds everything *)

Lemma percentage_full c :
  0 < c ->
  (q <- F64.int_truediv c c ;; Ok (NFloat (F64.mul q (F64.nearest 100))))
  = Ok (NFloat (F64.nearest 100)).
Proof.
  intros Hc. replace c with (1 * c) at 1 by lia.
  rewrite int_truediv_nearest by lia. reflexivity.
Qed.

Lemma percentage_none c :
  0 < c ->
  (q <- F64.int_truediv 0 c ;; Ok (NFloat (F64.mul q (F64.nearest 100))))
  = Ok (NFloat (S754_zero false)).
Proof. intros Hc. destruct c; try lia. reflexivity. Qed.

Lemma count_record_count r s s' : count_record r s = Ok s' -> count s' = count s + 1.
Proof.
  unfold count_record. cbn [count volume trades percentage].
  destruct (r !! "volume") as [v|]; cbn [bind].
  - destruct (add_value (volume s) v) as [vol|e]; cbn [bind]; [|discriminate].
    intros [= <-]. destruct (r !! "size"); reflexivity.
  - intros [= <-]. destruct (r !! "size"); reflexivity.
Qed.

(** A record inside the window of [session] is counted for [session],
    and for no other session. *)
Lemma tally_record_counts r session a l n stats' :
  in_windows [session] r = true ->
  tally_record r (derived_ts r) sessions_items (three a l n) = Ok stats' ->
  exists a' l' n',
    stats' = three a' l' n' /\
    match session with
    | ASIAN => count a' = count a + 1 /\ count l' = count l /\ count n' = count n
    | LONDON => count a' = count a /\ count l' = count l + 1 /\ count n' = count n
    | NY => count a' = count a /\ count l' = count l /\ count n' = count n + 1
    end.
Proof.
  intros Hin. unfold in_windows in Hin. apply andb_true_iff in Hin as [Hu Hin].
  destruct (record_et_hour r) as [h|e] eqn:Hh; [|discriminate Hin].
  cbn [existsb] in Hin. rewrite orb_false_r in Hin.
  destruct (record_et_hour_inv r h Hh) as (t & dt & Ht & Hdt & <-).
  assert (Hother : forall s', s' <> session -> hour_in_session (Datetime.hour dt) s' = false).
  { intros s' Hs'. destruct (hour_in_session (Datetime.hour dt) s') eqn:E; [|reflexivity].
    exfalso. apply Hs'. exact (hour_in_session_disjoint _ _ _ E Hin). }
  unfold sessions_items, three. cbn [tally_record].
  rewrite Ht. cbn [bind]. rewrite !(is_in_session_hour t dt _ Hdt). cbn [bind].
  destruct session.
  - rewrite Hin. cbn [update String.eqb Ascii.eqb Bool.eqb].
    destruct (count_record r a) as [a'|e] eqn:Ec; cbn [bind]; [|discriminate].
    intros [= <-]. exists a', l, n. split; [reflexivity|].
    rewrite (count_record_count r a a' Ec). auto.
  - rewrite (Hother ASIAN) by discriminate. rewrite Hin.
    cbn [update String.eqb Ascii.eqb Bool.eqb].
    destruct (count_record r l) as [l'|e] eqn:Ec; cbn [bind]; [|discriminate].
    intros [= <-]. exists a, l', n. split; [reflexivity|].
    rewrite (count_record_count r l l' Ec). auto.
  - rewrite (Hother ASIAN), (Hother LONDON) by discriminate. rewrite Hin.
    cbn [update String.eqb Ascii.eqb Bool.eqb].
    destruct (count_record r n) as [n'|e] eqn:Ec; cbn [bind]; [|discriminate].
    intros [= <-]. exists a, l, n'. split; [reflexivity|].
    rewrite (count_record_count r n n' Ec). auto.
Qed.

(** When all usable records are inside the window of [session], they are
    all counted for [session], whatever their volumes. *)
Lemma tally_counts_single data session : forall a l n stats',
  Forall (fun r => usable r = true -> in_windows [session] r = true) data ->
  tally data (three a l n) = Ok stats' ->
  let k := Z.of_nat (length (List.filter usable data)) in
  exists a' l' n',
    stats' = three a' l' n' /\
    match session with
    | ASIAN => count a' = count a + k /\ count l' = count l /\ count n' = count n
    | LONDON => count a' = count a /\ count l' = count l + k /\ count n' = count n
    | NY => count a' = count a /\ count l' = count l /\ count n' = count n + k
    end.
Proof.
  induction data as [|r data IH]; intros a l n stats' Hall.
  - cbn. intros [= <-]. exists a, l, n. split; [reflexivity|]. destruct session; lia.
  - inversion Hall as [|? ? Hr Hrest]; subst. cbn [tally List.filter]. fold (usable r).
    destruct (usable r) eqn:Hu; cbn [negb].
    + destruct (tally_record r (derived_ts r) sessions_items (three a l n))
        as [stats1|e] eqn:E1; cbn [bind]; [|discriminate].
      destruct (tally_record_counts r session a l n stats1 (Hr eq_refl) E1)
        as (a1 & l1 & n1 & -> & H1).
      intros E2. destruct (IH a1 l1 n1 stats' Hrest E2) as (a' & l' & n' & -> & H2).
      exists a', l', n'. split; [reflexivity|].
      cbn [length]. rewrite Nat2Z.inj_succ. destruct session; lia.
    + intros E2. exact (IH a l n stats' Hrest E2).
Qed.

(** X10: when every record with a usable timestamp falls inside one
    and the same session, and there is one, a result that
    [calculate_session_stats] returns gives that session the percentage
    exactly [100.0] and the other two exactly [0.0], whatever the volumes
    are; and [calculate_session_stats] does return when the volume of
    every record inside the session is an int, a bool or absent. *)
Theorem single_session_percentages (data : list record) (session : TradingSession) :
  Forall (fun r => usable r = true -> in_windows [session] r = true) data ->
  Exists (fun r => usable r = true) data ->
  (forall stats,
     calculate_session_stats data = Ok stats ->
     map fst stats = ["Asian"; "London"; "NY"] /\
     Forall (fun ks =>
               percentage (snd ks)
               = Some (NFloat (if String.eqb (fst ks) (name session)
                               then F64.nearest 100 else S754_zero false))) stats) /\
  (Forall (fun r => in_windows [session] r = true -> is_Some (int_volume r)) data ->
   exists stats, calculate_session_stats data = Ok stats).
Proof.
  intros Hall Hex. split.
  - intros stats. unfold calculate_session_stats.
    change initial_stats with (three empty_stats empty_stats empty_stats).
    destruct (tally data (three empty_stats empty_stats empty_stats)) as [tallied|e] eqn:Et;
      cbn [bind]; [|discriminate].
    destruct (tally_counts_single data session _ _ _ _ Hall Et) as (a & l & n & -> & Hc).
    cbv zeta in Hc. cbn [count empty_stats] in Hc.
    assert (Hsome : 0 < Z.of_nat (length (List.filter usable data))).
    { clear -Hex. induction Hex as [r data Hu|r data _ IH]; cbn [List.filter].
      - rewrite Hu. cbn [length]. lia.
      - destruct (usable r); cbn [length]; lia. }
    set (c := Z.of_nat (length (List.filter usable data))) in *.
    unfold three, total_count. cbn [fold_left snd map_res].
    unfold set_percentage. cbn [fst snd].
    destruct session; destruct Hc as (-> & -> & ->);
      rewrite ?Z.add_0_l, ?Z.add_0_r;
      replace (0 <? c) with true by (symmetry; apply Z.ltb_lt; exact Hsome);
      rewrite ?(percentage_full c Hsome), ?(percentage_none c Hsome); cbn [bind];
      intros [= <-]; (split; [reflexivity|]); repeat constructor.
  - intros Hv. unfold calculate_session_stats.
    change initial_stats with (three empty_stats empty_stats empty_stats).
    assert (Hp : Forall placeable data).
    { eapply Forall_impl; [exact Hall|]. intros r Hr Hu. specialize (Hr Hu).
      unfold in_windows in Hr. apply andb_true_iff in Hr as [_ Hr].
      destruct (record_et_hour r) as [h|e]; [eauto|discriminate Hr]. }
    assert (Hv' : Forall (fun r => in_windows [ASIAN; LONDON; NY] r = true ->
                                   is_Some (int_volume r)) data).
    { rewrite Forall_forall in Hall, Hv. apply Forall_forall. intros r Hr Hin.
      apply (Hv r Hr). apply (Hall r Hr).
      unfold in_windows in Hin. apply andb_true_iff in Hin as [Hu _]. exact Hu. }
    rewrite tally_spec by (try assumption; exists 0; reflexivity). cbn [bind].
    destruct (set_percentages (bump empty_stats (List.filter (in_windows [ASIAN]) data))
                (bump empty_stats (List.filter (in_windows [LONDON]) data))
                (bump empty_stats (List.filter (in_windows [NY]) data)))
      as (pa & pl & pn & -> & _); try (cbn; lia).
    eauto.
Qed.

End WithHost.

Import UtcHost.

Lemma session_buckets_partition_witness :
  [london_bar; record_1600; ny_trade] <> [] /\
  Forall (placeable (H := utc_host)) [london_bar; record_1600; ny_trade] /\
  exists asian london ny every,
    filter_by_session (H := utc_host) [london_bar; record_1600; ny_trade] ["Asian"] = Ok asian /\
    filter_by_session (H := utc_host) [london_bar; record_1600; ny_trade]
      ["Asian"; "London"; "NY"] = Ok every /\
    every ≡ₚ (asian ++ london ++ ny).
Proof.
  assert (Hne : [london_bar; record_1600; ny_trade] <> []) by discriminate.
  assert (Hok : Forall (placeable (H := utc_host)) [london_bar; record_1600; ny_trade])
    by placeable_samples.
  split; [exact Hne|]. split; [exact Hok|].
  destruct (session_buckets_partition (H := utc_host) _ Hne Hok)
    as (asian & london & ny & every & Ea & _ & _ & Ee & Hp & _).
  exists asian, london, ny, every. auto.
Defined.

Lemma session_stats_without_timestamps_witness :
  Forall (fun r => usable r = false) [record_no_ts; record_only_zero] /\
  calculate_session_stats (H := utc_host) [record_no_ts; record_only_zero]
  = Ok (three zero_stats zero_stats zero_stats).
Proof.
  assert (Hno : Forall (fun r => usable r = false) [record_no_ts; record_only_zero])
    by (repeat constructor).
  split; [exact Hno|]. exact (session_stats_without_timestamps (H := utc_host) _ Hno).
Defined.

Lemma session_stats_match_filter_witness :
  [london_bar; record_1600; ny_trade] <> [] /\
  Forall (placeable (H := utc_host)) [london_bar; record_1600; ny_trade] /\
  Forall (fun r => in_windows (H := utc_host) [ASIAN; LONDON; NY] r = true ->
                   is_Some (int_volume r)) [london_bar; record_1600; ny_trade] /\
  exists stats, calculate_session_stats (H := utc_host) [london_bar; record_1600; ny_trade]
                = Ok stats.
Proof.
  assert (Hne : [london_bar; record_1600; ny_trade] <> []) by discriminate.
  assert (Hok : Forall (placeable (H := utc_host)) [london_bar; record_1600; ny_trade])
    by placeable_samples.
  assert (Hv : Forall (fun r => in_windows (H := utc_host) [ASIAN; LONDON; NY] r = true ->
                               is_Some (int_volume r)) [london_bar; record_1600; ny_trade]).
  { repeat constructor; intros Hin; try (vm_compute in Hin; discriminate Hin);
      eexists; vm_compute; reflexivity. }
  split; [exact Hne|]. split; [exact Hok|]. split; [exact Hv|].
  destruct (session_stats_match_filter (H := utc_host) _ Hne Hok Hv)
    as (asian & london & ny & pa & pl & pn & _ & _ & _ & E & _).
  eexists. exact E.
Defined.

Lemma session_stats_volume_type_error_witness :
  Forall (placeable (H := utc_host)) [london_bar] /\
  in_windows (H := utc_host) [ASIAN; LONDON; NY] null_volume_bar = true /\
  null_volume_bar !! "volume" = Some VNone /\
  calculate_session_stats (H := utc_host) [london_bar; null_volume_bar; ny_trade]
  = Raise TypeError.
Proof.
  assert (Hok : Forall (placeable (H := utc_host)) [london_bar]) by placeable_samples.
  assert (Hv : Forall (fun r => in_windows (H := utc_host) [ASIAN; LONDON; NY] r = true ->
                               is_Some (int_volume r)) [london_bar]).
  { repeat constructor; intros _; eexists; vm_compute; reflexivity. }
  assert (Hin : in_windows (H := utc_host) [ASIAN; LONDON; NY] null_volume_bar = true)
    by (vm_compute; reflexivity).
  assert (Hvol : null_volume_bar !! "volume" = Some VNone) by (vm_compute; reflexivity).
  split; [exact Hok|]. split; [exact Hin|]. split; [exact Hvol|].
  exact (session_stats_volume_type_error (H := utc_host) [london_bar] [ny_trade]
           null_volume_bar VNone Hok Hv Hin Hvol eq_refl).
Defined.

Lemma single_session_percentages_witness :
  Forall (fun r => usable r = true -> in_windows (H := utc_host) [NY] r = true)
    [ny_trade; record_no_ts; float_volume_bar] /\
  Exists (fun r => usable r = true) [ny_trade; record_no_ts; float_volume_bar] /\
  calculate_session_stats (H := utc_host) [ny_trade; record_no_ts; float_volume_bar]
  = Ok (three {| count := 0; volume := NInt 0; trades := 0;
                 percentage := Some (NFloat (S754_zero false)) |}
              {| count := 0; volume := NInt 0; trades := 0;
                 percentage := Some (NFloat (S754_zero false)) |}
              {| count := 2; volume := NFloat (F64.nearest 9); trades := 1;
                 percentage := Some (NFloat (F64.nearest 100)) |}) /\
  (forall stats,
     calculate_session_stats (H := utc_host) [ny_trade; record_no_ts; float_volume_bar]
     = Ok stats ->
     Forall (fun ks =>
               percentage (snd ks)
               = Some (NFloat (if String.eqb (fst ks) "NY"
                               then F64.nearest 100 else S754_zero false))) stats).
Proof.
  assert (Hall : Forall (fun r => usable r = true -> in_windows (H := utc_host) [NY] r = true)
                   [ny_trade; record_no_ts; float_volume_bar]).
  { repeat constructor; intros Hu; try (vm_compute in Hu; discriminate Hu);
      vm_compute; reflexivity. }
  assert (Hex : Exists (fun r => usable r = true) [ny_trade; record_no_ts; float_volume_bar])
    by (left; reflexivity).
  split; [exact Hall|]. split; [exact Hex|]. split; [vm_compute; reflexivity|].
  intros stats Hstats.
  exact (proj2 (proj1 (single_session_percentages (H := utc_host) _ NY Hall Hex) stats Hstats)).
Defined.

End SessionStatsProps.

(** ** Filtering around the session transitions *)

Module SessionTransitions.
Import Datetime SessionFilter SessionFilterProps F64Exact.
#[local] Open Scope res_scope.




Section WithHost.
Context `{Host}.









End WithHost.

Import UtcHost.



End SessionTransitions.

(** ** Tallies kept with [incr] *)

Module TallyFacts.
Import DataValidator.

Section Incr.
Context {K : Type} (eqb : K -> K -> bool).
Hypothesis eqb_eq : forall x y, eqb x y = true <-> x = y.

Lemma eqb_refl x : eqb x x = true.
Proof. apply eqb_eq. reflexivity. Qed.

Lemma eqb_sym x y : eqb x y = eqb y x.
Proof.
  destruct (eqb x y) eqn:E1, (eqb y x) eqn:E2; try reflexivity.
  - apply eqb_eq in E1. subst. rewrite eqb_refl in E2. discriminate.
  - apply eqb_eq in E2. subst. rewrite eqb_refl in E1. discriminate.
Qed.

Lemma count_of_incr key k counts :
  count_of eqb k (incr eqb key counts)
  = count_of eqb k counts + (if eqb key k then 1 else 0).
Proof.
  induction counts as [|[k' c] rest IH]; cbn [incr count_of].
  - lia.
  - destruct (eqb k' key) eqn:Ekey; cbn [count_of].
    + apply eqb_eq in Ekey. subst k'. destruct (eqb key k); lia.
    + destruct (eqb k' k) eqn:Ek; [|exact IH].
      apply eqb_eq in Ek. subst k'. rewrite eqb_sym, Ekey. lia.
Qed.

Lemma incr_keys key counts :
  (incr eqb key counts).*1
  = if existsb (eqb key) counts.*1 then counts.*1 else counts.*1 ++ [key].
Proof.
  induction counts as [|[k' c] rest IH]; cbn [incr fmap list_fmap existsb fst]; [reflexivity|].
  rewrite (eqb_sym key k').
  destruct (eqb k' key); cbn [fmap list_fmap fst orb]; [reflexivity|].
  change (list_fmap _ _ fst ?l) with (l.*1). rewrite IH.
  destruct (existsb (eqb key) rest.*1); reflexivity.
Qed.

Lemma existsb_eqb key (l : list K) : existsb (eqb key) l = true <-> key ∈ l.
Proof.
  rewrite existsb_exists, list_elem_of_In. split.
  - intros (x & Hx & ->%eqb_eq). exact Hx.
  - intros Hin. exists key. split; [exact Hin|apply eqb_refl].
Qed.

Lemma occurrences_app key (l1 l2 : list K) :
  occurrences eqb key (l1 ++ l2) = occurrences eqb key l1 + occurrences eqb key l2.
Proof. unfold occurrences, len. rewrite List.filter_app, length_app. lia. Qed.

Lemma occurrences_nonneg key (l : list K) : 0 <= occurrences eqb key l.
Proof. unfold occurrences, len. lia. Qed.

Lemma occurrences_pos key (l : list K) : 0 < occurrences eqb key l <-> key ∈ l.
Proof.
  unfold occurrences, len. induction l as [|x l IH]; cbn [List.filter].
  - cbn. rewrite elem_of_nil. lia.
  - rewrite elem_of_cons, <- IH. destruct (eqb key x) eqn:E; cbn [length].
    + apply eqb_eq in E. split; [auto|intros _; lia].
    + split; [auto|]. intros [->|Hpos]; [|exact Hpos].
      rewrite eqb_refl in E. discriminate.
Qed.

Lemma occurrences_NoDup (l : list K) :
  NoDup l <-> forall key, occurrences eqb key l <= 1.
Proof.
  induction l as [|x l IH].
  - split; [intros _ key; unfold occurrences, len; cbn; lia|constructor].
  - rewrite NoDup_cons, IH. change (x :: l) with ([x] ++ l).
    split.
    + intros [Hx Hl] key. rewrite occurrences_app. specialize (Hl key).
      unfold occurrences at 1, len. cbn [List.filter].
      destruct (eqb key x) eqn:E; cbn [length]; [|lia].
      apply eqb_eq in E. subst key.
      pose proof (occurrences_pos x l) as Hpos.
      pose proof (occurrences_nonneg x l). 
      assert (~ 0 < occurrences eqb x l) by (rewrite Hpos; exact Hx). lia.
    + intros Hall. split.
      * intros Hin%occurrences_pos. specialize (Hall x).
        rewrite occurrences_app in Hall. unfold occurrences at 1, len in Hall.
        cbn [List.filter] in Hall. rewrite eqb_refl in Hall. cbn [length] in Hall. lia.
      * intros key. specialize (Hall key). rewrite occurrences_app in Hall.
        pose proof (occurrences_nonneg key [x]). lia.
Qed.

(** The tally of [l]: every key of [l] once, in order of first
    appearance, with the number of its occurrences. *)
Lemma tally_counts (l : list K) : forall counts,
  NoDup counts.*1 ->
  let counts' := fold_left (fun counts key => incr eqb key counts) l counts in
  NoDup counts'.*1 /\
  (forall key, key ∈ counts'.*1 <-> key ∈ counts.*1 \/ key ∈ l) /\
  (forall key, count_of eqb key counts'
               = count_of eqb key counts + occurrences eqb key l).
Proof.
  induction l as [|x l IH]; intros counts Hnd; cbn [fold_left].
  - split; [exact Hnd|]. split.
    + intros key. rewrite elem_of_nil. tauto.
    + intros key. unfold occurrences, len. cbn. lia.
  - assert (Hnd' : NoDup (incr eqb x counts).*1).
    { rewrite incr_keys. destruct (existsb (eqb x) counts.*1) eqn:E; [exact Hnd|].
      apply NoDup_app. split; [exact Hnd|]. split; [|apply NoDup_singleton].
      intros y Hy Hyx. apply list_elem_of_singleton in Hyx. subst y.
      apply existsb_eqb in Hy. congruence. }
    destruct (IH _ Hnd') as (H1 & H2 & H3). split; [exact H1|]. split.
    + intros key. rewrite H2, incr_keys, elem_of_cons.
      destruct (existsb (eqb x) counts.*1) eqn:E.
      * apply existsb_eqb in E. split; [tauto|]. intros [?|[->|?]]; auto.
      * rewrite elem_of_app, list_elem_of_singleton. tauto.
    + intros key. rewrite H3, count_of_incr. change (x :: l) with ([x] ++ l).
      rewrite occurrences_app. unfold occurrences at 2, len. cbn [List.filter].
      rewrite (eqb_sym key x). destruct (eqb x key); cbn [length]; lia.
Qed.

Lemma elem_of_counts key c (counts : list (K * Z)) :
  NoDup counts.*1 ->
  (key, c) ∈ counts <-> key ∈ counts.*1 /\ c = count_of eqb key counts.
Proof.
  induction counts as [|[k' c'] rest IH]; intros Hnd.
  - cbn. rewrite !elem_of_nil. tauto.
  - cbn [fmap list_fmap fst] in *. change (list_fmap _ _ fst rest) with (rest.*1) in *.
    apply NoDup_cons in Hnd as [Hk' Hnd]. rewrite !elem_of_cons, (IH Hnd). cbn [count_of].
    destruct (eqb k' key) eqn:E.
    + apply eqb_eq in E. subst k'. split.
      * intros [[= ->]|[Hin _]]; [auto|contradiction].
      * intros [_ ->]. auto.
    + split.
      * intros [[= -> ->]|[Hin ->]]; [rewrite eqb_refl in E; discriminate|auto].
      * intros [[->|Hin] ->]; [rewrite eqb_refl in E; discriminate|auto].
Qed.

End Incr.
End TallyFacts.

(** ** More on the validator's checks *)

Module DataValidatorMore.
Import DataValidator DataValidatorProps TallyFacts ListFacts F64Exact.
#[local] Open Scope val_scope.

Lemma Z_eqb_eq (x y : Z) : Z.eqb x y = true <-> x = y.
Proof. apply Z.eqb_eq. Qed.

Lemma String_eqb_eq (x y : string) : String.eqb x y = true <-> x = y.
Proof. apply String.eqb_eq. Qed.

Section WithHost.
Context `{Host}.

(** The duplicate groups [check_duplicates] finds: one per timestamp that
    occurs more than once, with its number of occurrences. *)
Lemma duplicates_spec (ts : list Z) :
  let timestamp_counts := fold_left (fun counts t => incr Z.eqb t counts) ts [] in
  let duplicates := List.filter (fun tc => 1 <? snd tc) timestamp_counts in
  Forall (fun tc => fst tc ∈ ts /\ snd tc = occurrences Z.eqb (fst tc) ts /\ 1 < snd tc)
    duplicates /\
  len duplicates
  = len (List.filter (fun t => 1 <? occurrences Z.eqb t ts) (remove_dups ts)) /\
  (len duplicates = 0 <-> NoDup ts).
Proof.
  intros timestamp_counts duplicates.
  destruct (tally_counts Z.eqb Z_eqb_eq ts [] (NoDup_nil_2)) as (Hnd & Hkeys & Hcount).
  fold timestamp_counts in Hnd, Hkeys, Hcount. cbn [count_of] in Hcount.
  assert (Hin : forall t c, (t, c) ∈ timestamp_counts ->
            t ∈ ts /\ c = occurrences Z.eqb t ts).
  { intros t c Htc. apply (elem_of_counts Z.eqb Z_eqb_eq) in Htc as [Ht ->]; [|exact Hnd].
    rewrite Hcount. split; [|lia]. apply Hkeys in Ht as [Ht|Ht]; [|exact Ht].
    cbn in Ht. apply elem_of_nil in Ht. contradiction. }
  assert (Hdup : duplicates
            = List.filter (fun tc => 1 <? occurrences Z.eqb (fst tc) ts) timestamp_counts).
  { apply filter_ext_in. intros [t c] Htc. apply Hin in Htc as [_ ->]. reflexivity. }
  assert (Hlen : len duplicates
            = len (List.filter (fun t => 1 <? occurrences Z.eqb t ts) (remove_dups ts))).
  { rewrite Hdup. unfold len. f_equal.
    rewrite (filter_fst_length (fun t => 1 <? occurrences Z.eqb t ts)).
    apply filter_length_Permutation, NoDup_Permutation;
      [exact Hnd|apply NoDup_remove_dups|].
    intros t. rewrite Hkeys, elem_of_remove_dups. cbn. rewrite elem_of_nil. tauto. }
  split; [|split; [exact Hlen|]].
  - apply Forall_forall. intros [t c] [Htc Hc]%elem_of_filter_true.
    apply Hin in Htc as [Ht ->]. cbn [fst snd] in *. apply Z.ltb_lt in Hc. auto.
  - rewrite Hlen, <- Z.eqb_eq, filter_length_zero, Forall_forall.
    rewrite (occurrences_NoDup Z.eqb Z_eqb_eq). split.
    + intros Hall t. destruct (decide (t ∈ ts)) as [Ht|Ht].
      * specialize (Hall t). rewrite elem_of_remove_dups in Hall.
        apply Hall, Z.ltb_ge in Ht. exact Ht.
      * assert (~ 0 < occurrences Z.eqb t ts)
          by (rewrite (occurrences_pos Z.eqb Z_eqb_eq); exact Ht).
        lia.
    + intros Hall t _. apply Z.ltb_ge, Hall.
Qed.

Lemma duplicate_issues_run duplicates s :
  match duplicate_issues duplicates s with
  | (Ok _, s') =>
      exists added, s' = s ++ added /\
        Forall2 (fun i tc => exists timestamp,
                   _format_timestamp (fst tc) = Ok timestamp /\
                   i = duplicate_timestamp timestamp (snd tc)) added duplicates
  | (Raise _, _) => duplicates <> []
  end.
Proof.
  revert s. induction duplicates as [|[t c] rest IH]; intros s; cbn [duplicate_issues].
  - exists []. rewrite app_nil_r. split; [reflexivity|constructor].
  - unfold mbind at 1. unfold lift at 1.
    destruct (_format_timestamp t) as [timestamp|e] eqn:Et; [|discriminate].
    unfold mbind at 1. unfold append_issue at 1.
    specialize (IH (s ++ [duplicate_timestamp timestamp c])).
    destruct (duplicate_issues rest _) as [[u|e] s']; [|discriminate].
    destruct IH as (added & -> & Hadded).
    exists (duplicate_timestamp timestamp c :: added). rewrite <- app_assoc.
    split; [reflexivity|]. constructor; [|exact Hadded]. exists timestamp. auto.
Qed.

(** X14: when the timestamps can be extracted and [check_duplicates]
    returns, [duplicates_found] is the number of distinct timestamps that
    occur more than once, the check is valid iff no timestamp occurs
    twice, and it appends one issue per duplicated timestamp, ten at most,
    each carrying the number of occurrences of a timestamp that occurs
    more than once.  It raises only if some timestamp is duplicated (when
    formatting it). *)
Theorem duplicates_check (v : config) (data : list record) (ts : list Z) (s : list issue) :
  _extract_timestamps data = Ok ts ->
  match check_duplicates v data s with
  | (Ok rep, s') =>
      exists found added,
        rep = duplicates_report (found =? 0) found found /\
        found = len (List.filter (fun t => 1 <? occurrences Z.eqb t ts) (remove_dups ts)) /\
        (found = 0 <-> NoDup ts) /\
        s' = s ++ added /\
        len added = Z.min 10 found /\
        Forall (fun i => exists t timestamp,
                  i = duplicate_timestamp timestamp (occurrences Z.eqb t ts) /\
                  1 < occurrences Z.eqb t ts /\
                  _format_timestamp t = Ok timestamp) added
  | (Raise _, _) => ~ NoDup ts
  end.
Proof.
  intros Ets. unfold check_duplicates. unfold mbind at 1. unfold lift at 1. rewrite Ets.
  destruct (duplicates_spec ts) as (Hall & Hlen & Hnodup).
  set (duplicates := List.filter (fun tc => 1 <? snd tc)
                       (fold_left (fun counts t => incr Z.eqb t counts) ts [])) in *.
  unfold mbind at 1. pose proof (duplicate_issues_run (take 10 duplicates) s) as Hrun.
  destruct (duplicate_issues (take 10 duplicates) s) as [[u|e] s'].
  - destruct Hrun as (added & -> & Hadded). cbn [mret].
    exists (len duplicates), added. repeat split; try assumption; try apply Hnodup.
    + unfold len. rewrite (Forall2_length _ _ _ Hadded), length_take. lia.
    + apply Forall_take with (n := 10%nat) in Hall.
      induction Hadded as [|i [t c] added dups (timestamp & Et & ->) _ IH]; [constructor|].
      inversion Hall as [|? ? (Ht & Hc & Hone) Hrest]; subst. cbn [fst snd] in *.
      constructor; [|apply IH; exact Hrest].
      exists t, timestamp. rewrite <- Hc. auto.
  - intros Hnd. apply Hnodup in Hnd. apply Hrun.
    destruct duplicates; [reflexivity|discriminate Hnd].
Qed.

(** *** The completeness check *)

Lemma required_fields_NoDup v : NoDup (_get_required_fields v).
Proof.
  unfold _get_required_fields.
  destruct (str_contains "ohlcv" (schema v)); [|destruct (String.eqb (schema v) "trades");
    [|destruct (str_contains "mbp" (schema v))]];
    apply (bool_decide_unpack _); vm_compute; reflexivity.
Qed.

Lemma occurrences_filter {K} (eqb : K -> K -> bool) (g : K -> bool) key (l : list K) :
  (forall x y, eqb x y = true <-> x = y) ->
  occurrences eqb key (List.filter g l) = if g key then occurrences eqb key l else 0.
Proof.
  intros eqb_eq. unfold occurrences, len. induction l as [|x l IH]; cbn [List.filter].
  - destruct (g key); reflexivity.
  - destruct (g x) eqn:Egx; cbn [List.filter];
      destruct (eqb key x) eqn:Ex; cbn [length]; try (rewrite IH; destruct (g key); lia).
    + apply eqb_eq in Ex. subst x. rewrite Egx in *. lia.
    + apply eqb_eq in Ex. subst x. rewrite Egx in *. exact IH.
Qed.

Lemma tally_missing_fold required_fields sample : forall missing_fields,
  fold_left
    (fun missing_fields r =>
       fold_left
         (fun missing_fields field =>
            if field_missing r field then incr String.eqb field missing_fields
            else missing_fields)
         required_fields missing_fields)
    sample missing_fields
  = fold_left (fun counts field => incr String.eqb field counts)
      (concat (map (fun r => List.filter (field_missing r) required_fields) sample))
      missing_fields.
Proof.
  induction sample as [|r sample IH]; intros missing_fields; [reflexivity|].
  cbn [fold_left map concat]. rewrite fold_left_app, IH. f_equal.
  generalize missing_fields. clear.
  induction required_fields as [|field rest IH]; intros missing_fields; [reflexivity|].
  cbn [fold_left List.filter]. destruct (field_missing r field); apply IH.
Qed.

Lemma occurrences_missing required_fields sample field :
  occurrences String.eqb field
    (concat (map (fun r => List.filter (field_missing r) required_fields) sample))
  = occurrences String.eqb field required_fields * len (lacking field sample).
Proof.
  induction sample as [|r sample IH]; cbn [map concat].
  - unfold occurrences, lacking, len. cbn. lia.
  - rewrite occurrences_app, IH, (occurrences_filter _ _ _ _ String_eqb_eq).
    unfold lacking, len. cbn [List.filter].
    destruct (field_missing r field); cbn [length]; lia.
Qed.

Lemma missing_issues_run missing_fields s :
  missing_issues missing_fields s
  = (Ok tt, s ++ map (fun fc => missing_field (fst fc) (snd fc)) missing_fields).
Proof.
  revert s. induction missing_fields as [|[field c] rest IH]; intros s; cbn.
  - rewrite app_nil_r. reflexivity.
  - unfold mbind, append_issue. rewrite IH, <- app_assoc. reflexivity.
Qed.

Lemma tally_missing_spec required_fields sample :
  NoDup required_fields ->
  let missing_fields := tally_missing required_fields sample in
  NoDup missing_fields.*1 /\
  forall field c,
    (field, c) ∈ missing_fields <->
    field ∈ required_fields /\ c = len (lacking field sample) /\ 0 < c.
Proof.
  intros Hreq missing_fields. unfold tally_missing in missing_fields.
  subst missing_fields. rewrite tally_missing_fold.
  set (flat := concat (map (fun r => List.filter (field_missing r) required_fields) sample)).
  destruct (tally_counts String.eqb String_eqb_eq flat [] (NoDup_nil_2))
    as (Hnd & Hkeys & Hcount).
  split; [exact Hnd|]. intros field c.
  rewrite (elem_of_counts String.eqb String_eqb_eq) by exact Hnd.
  rewrite Hkeys, Hcount. cbn [count_of fmap list_fmap]. rewrite elem_of_nil.
  rewrite <- (occurrences_pos String.eqb String_eqb_eq field flat).
  unfold flat. rewrite occurrences_missing.
  pose proof (occurrences_pos String.eqb String_eqb_eq field required_fields) as Hpos.
  pose proof (proj1 (occurrences_NoDup String.eqb String_eqb_eq required_fields) Hreq field).
  pose proof (occurrences_nonneg String.eqb field required_fields).
  assert (Hlen : 0 <= len (lacking field sample)) by (unfold len; lia).
  split.
  - intros [[[]|Hocc] ->].
    assert (occurrences String.eqb field required_fields = 1) as E by nia.
    rewrite E in *. split; [apply Hpos; lia|]. lia.
  - intros (Hin%Hpos & -> & Hc).
    assert (occurrences String.eqb field required_fields = 1) as E by lia.
    rewrite E. lia.
Qed.

Lemma tally_missing_complete required_fields sample :
  NoDup required_fields ->
  (len (tally_missing required_fields sample) =? 0) = true <->
  Forall (complete required_fields) sample.
Proof.
  intros Hreq. destruct (tally_missing_spec required_fields sample Hreq) as (_ & Hin).
  set (missing_fields := tally_missing _ _) in *.
  unfold complete. rewrite Z.eqb_eq. split.
  - intros Hlen. destruct missing_fields as [|fc rest]; [|discriminate Hlen].
    apply Forall_forall. intros r Hr. apply Forall_forall. intros field Hfield.
    destruct (field_missing r field) eqn:E; [|reflexivity]. exfalso.
    assert (Hl : r ∈ lacking field sample).
    { unfold lacking. apply list_elem_of_In, List.filter_In.
      split; [apply list_elem_of_In; exact Hr|exact E]. }
    apply (elem_of_nil (field, len (lacking field sample))).
    apply Hin. split; [exact Hfield|]. split; [reflexivity|].
    unfold len. destruct (lacking field sample); [|cbn; lia].
    apply elem_of_nil in Hl. contradiction.
  - intros Hall. destruct missing_fields as [|[field c] rest]; [reflexivity|]. exfalso.
    destruct (proj1 (Hin field c)) as (Hfield & -> & Hc); [left|].
    unfold len in Hc.
    destruct (lacking field sample) as [|r l] eqn:El; [cbn in Hc; lia|].
    assert (Hr : r ∈ lacking field sample) by (rewrite El; left).
    apply elem_of_filter_true in Hr as [Hr Hmiss].
    rewrite Forall_forall in Hall. specialize (Hall r Hr).
    rewrite Forall_forall in Hall. rewrite (Hall field Hfield) in Hmiss. discriminate.
Qed.

Lemma check_completeness_run v data s :
  data <> [] ->
  let missing_fields := tally_missing (_get_required_fields v) (take 100 data) in
  check_completeness v data s
  = (Ok (completeness_report (len missing_fields =? 0) missing_fields),
     s ++ map (fun fc => missing_field (fst fc) (snd fc)) missing_fields).
Proof.
  intros Hne missing_fields. unfold check_completeness.
  destruct data as [|r data]; [contradiction|].
  unfold mbind. rewrite missing_issues_run. reflexivity.
Qed.

(** X15: on non-empty data [check_completeness] always returns.  It
    reports each required field that is absent or [None] in at least one
    of the first 100 records, once, with the number of those records
    lacking it, appends one issue per such field, and is valid iff every
    one of the first 100 records has every required field; records after
    the first 100 are not looked at. *)
Theorem completeness_check (v : config) (data : list record) (s : list issue) :
  data <> [] ->
  exists missing_fields,
    check_completeness v data s
    = (Ok (completeness_report (len missing_fields =? 0) missing_fields),
       s ++ map (fun fc => missing_field (fst fc) (snd fc)) missing_fields) /\
    NoDup missing_fields.*1 /\
    (forall field c,
       (field, c) ∈ missing_fields <->
       field ∈ _get_required_fields v /\
       c = len (lacking field (take 100 data)) /\ 0 < c) /\
    ((len missing_fields =? 0) = true <->
     Forall (complete (_get_required_fields v)) (take 100 data)).
Proof.
  intros Hne. exists (tally_missing (_get_required_fields v) (take 100 data)).
  destruct (tally_missing_spec (_get_required_fields v) (take 100 data)
              (required_fields_NoDup v)) as (Hnd & Hin).
  split; [exact (check_completeness_run v data s Hne)|].
  split; [exact Hnd|]. split; [exact Hin|].
  apply tally_missing_complete, required_fields_NoDup.
Qed.

(** *** The gap check and the order of the records *)

Lemma extract_timestamps_Permutation data1 data2 :
  data1 ≡ₚ data2 -> forall ts1,
  _extract_timestamps data1 = Ok ts1 ->
  exists ts2, _extract_timestamps data2 = Ok ts2 /\ ts1 ≡ₚ ts2.
Proof.
  induction 1 as [|r l1 l2 _ IH|r1 r2 l|l1 l2 l3 _ IH1 _ IH2]; intros ts1.
  - intros [= <-]. exists []. split; reflexivity.
  - cbn [_extract_timestamps]. destruct (truthy _); [|apply IH].
    destruct (py_int _) as [t|e]; [|discriminate]. cbn [bind].
    destruct (_extract_timestamps l1) as [ts|e]; [|discriminate]. cbn [bind].
    intros [= <-]. destruct (IH ts eq_refl) as (ts2 & -> & Hp).
    exists (t :: ts2). split; [reflexivity|]. constructor. exact Hp.
  - cbn [_extract_timestamps].
    destruct (truthy _); [destruct (py_int _) as [t2|e]; [|discriminate]|];
      (destruct (truthy _); [destruct (py_int _) as [t1|e]; [|discriminate]|]);
      cbn [bind]; (destruct (_extract_timestamps l) as [ts|e]; [|discriminate]);
      cbn [bind]; intros [= <-]; eexists; (split; [reflexivity|]);
      try reflexivity. apply perm_swap.
  - intros Hts. destruct (IH1 ts1 Hts) as (ts2 & Hts2 & Hp12).
    destruct (IH2 ts2 Hts2) as (ts3 & Hts3 & Hp23).
    exists ts3. split; [exact Hts3|]. etransitivity; eassumption.
Qed.

(** X16: the gap check does not depend on the order of the records:
    on a permutation of data whose timestamps can be extracted it returns
    the same report and appends the same issues. *)
Theorem gap_check_ignores_order (v : config) (data1 data2 : list record) (ts : list Z)
    (s : list issue) :
  data1 ≡ₚ data2 ->
  _extract_timestamps data1 = Ok ts ->
  check_timestamp_gaps v data2 s = check_timestamp_gaps v data1 s.
Proof.
  intros Hp Hts. destruct (extract_timestamps_Permutation data1 data2 Hp ts Hts)
    as (ts2 & Hts2 & Hpts).
  rewrite (check_timestamp_gaps_sorted v data1 ts s Hts),
    (check_timestamp_gaps_sorted v data2 ts2 s Hts2).
  assert (len ts2 = len ts) as -> by (unfold len; rewrite Hpts; reflexivity).
  destruct (len ts <? 2); [reflexivity|].
  rewrite (merge_sort_eq ts2 (merge_sort Z.le ts)); [reflexivity| |].
  - apply Sorted_merge_sort. apply _.
  - rewrite merge_sort_Permutation. symmetry. exact Hpts.
Qed.

(** *** What a valid report says about the data *)

Lemma gaps_valid_silent v data s rep s' :
  check_timestamp_gaps v data s = (Ok rep, s') -> check_valid rep = true -> s' = s.
Proof.
  unfold check_timestamp_gaps. unfold mbind at 1. unfold lift at 1.
  destruct (_extract_timestamps data) as [ts|e]; [|discriminate].
  destruct (len ts <? 2); [intros [= <- <-]; reflexivity|].
  unfold mbind at 1.
  destruct (gaps_loop_run v (merge_sort Z.le ts) 0 [] s) as (new & r & -> & Hr).
  destruct r as [gaps|e]; [|discriminate].
  rewrite (Hr gaps eq_refl). cbn [app].
  unfold mbind. unfold lift. destruct (F64.int_truediv _ 60); [|discriminate].
  cbn [mret]. intros [= <- <-]. cbn [check_valid]. unfold len. intros Hlen%Z.eqb_eq.
  destruct new; [|discriminate Hlen]. cbn. apply app_nil_r.
Qed.

Lemma duplicates_valid_silent v data s rep s' :
  check_duplicates v data s = (Ok rep, s') -> check_valid rep = true ->
  s' = s /\ exists ts, _extract_timestamps data = Ok ts /\ NoDup ts.
Proof.
  unfold check_duplicates. unfold mbind at 1. unfold lift at 1.
  destruct (_extract_timestamps data) as [ts|e]; [|discriminate].
  destruct (duplicates_spec ts) as (_ & _ & Hnodup).
  set (duplicates := List.filter (fun tc => 1 <? snd tc)
                       (fold_left (fun counts t => incr Z.eqb t counts) ts [])) in *.
  destruct duplicates as [|tc rest] eqn:Edup.
  - cbn. intros [= <- <-] _. split; [reflexivity|]. exists ts. split; [reflexivity|].
    apply Hnodup. reflexivity.
  - unfold mbind. destruct (duplicate_issues _ s) as [[u|e] s1]; [|discriminate].
    cbn [mret]. intros [= <- <-]. discriminate.
Qed.

Lemma check_prices_valid v prices s rep s' :
  check_prices v prices s = (Ok rep, s') -> check_valid rep = true ->
  exists added,
    s' = s ++ added /\
    Forall (fun i => issue_type i = "price_outlier" /\ severity i = "warning") added /\
    Forall (fun p => F64.ltb p (S754_zero false) = false /\
                     F64.eqb p (S754_zero false) = false) prices.
Proof.
  destruct prices as [|p0 rest].
  { intros [= <- <-] _. exists []. rewrite app_nil_r. repeat split; constructor. }
  unfold check_prices. remember (p0 :: rest) as prices eqn:Eprices.
  set (zero := S754_zero false).
  match goal with
  | |- mbind ?c ?k s = _ -> _ =>
      assert (Hc : exists added, snd (c s) = s ++ added /\
                Forall (fun i => issue_type i = "price_outlier" /\ severity i = "warning")
                  added);
      [|unfold mbind at 1; destruct (c s) as [[[[outliers mean_price] std_dev]|e] s1];
        [|discriminate]]
  end.
  { assert (Hnone : exists added, s = s ++ added /\
              Forall (fun i => issue_type i = "price_outlier" /\ severity i = "warning")
                added).
    { exists []. rewrite app_nil_r. split; [reflexivity|constructor]. }
    destruct (1 <? len prices); [|exact Hnone].
    unfold mbind at 1. unfold lift at 1.
    destruct (sum_sq_dev _ prices) as [total|e]; [|exact Hnone].
    unfold mbind at 1. unfold lift at 1.
    destruct (pow_half _) as [std_dev|e]; [|exact Hnone].
    unfold mbind at 1.
    destruct (outliers_loop_issues v (F64.div (fsum prices) (F64.nearest (len prices)))
                std_dev prices [] s) as (added & Eadded & Hadded).
    destruct (outliers_loop v _ std_dev prices [] s) as [[outliers|e] s1];
      cbn [snd mret] in *; eauto. }
  destruct Hc as (added & Hs1 & Hadded). cbn [snd] in Hs1. subst s1.
  unfold mbind. rewrite negative_issues_run.
  cbn [mret]. intros [= <- <-]. cbn [check_valid].
  intros [Hneg Hzero]%andb_true_iff.
  pose proof Hneg as Hneg'. apply filter_length_zero in Hneg'.
  apply filter_length_zero in Hzero.
  assert (List.filter (fun p => F64.ltb p zero) prices = []) as ->.
  { apply Z.eqb_eq in Hneg. unfold len in Hneg.
    destruct (List.filter _ prices); [reflexivity|discriminate Hneg]. }
  exists added. cbn. rewrite app_nil_r. repeat split; try assumption.
  rewrite Forall_forall in *. auto.
Qed.

Lemma prices_valid_outliers_only v data s rep s' :
  check_price_range v data s = (Ok rep, s') -> check_valid rep = true ->
  exists added prices,
    s' = s ++ added /\
    Forall (fun i => issue_type i = "price_outlier" /\ severity i = "warning") added /\
    _extract_prices data = Ok prices /\
    Forall (fun p => F64.ltb p (S754_zero false) = false /\
                     F64.eqb p (S754_zero false) = false) prices.
Proof.
  unfold check_price_range. unfold mbind at 1. unfold lift at 1.
  destruct (_extract_prices data) as [prices|e]; [|discriminate].
  intros Hrun Hvalid.
  destruct (check_prices_valid v prices s rep s' Hrun Hvalid) as (added & -> & Hadded & Hpos).
  exists added, prices. auto.
Qed.

Lemma record_count_silent v data s :
  check_record_count v data s = (Ok (record_count_report true (len data) None), s).
Proof.
  unfold check_record_count.
  assert (_estimate_expected_count v data = None) as ->; [|reflexivity].
  unfold _estimate_expected_count.
  destruct (str_contains "ohlcv" (schema v)); [|reflexivity].
  destruct (str_contains "1h" (schema v)); [reflexivity|].
  destruct (str_contains "1d" (schema v)); reflexivity.
Qed.

(** X18: if [validate] returns a report with [valid = True], then the
    data were not empty, the call appended nothing but [price_outlier]
    warnings, no two extracted timestamps are equal, no extracted price is
    negative or zero, and each of the first 100 records has every
    required field. *)
Theorem valid_report (v : config) (data : list record) (s : list issue) (rep : report)
    (s' : list issue) :
  validate v data s = (Ok rep, s') ->
  valid rep = true ->
  data <> [] /\
  (exists added,
     s' = s ++ added /\
     Forall (fun i => issue_type i = "price_outlier" /\ severity i = "warning") added) /\
  (exists ts, _extract_timestamps data = Ok ts /\ NoDup ts) /\
  (exists prices,
     _extract_prices data = Ok prices /\
     Forall (fun p => F64.ltb p (S754_zero false) = false /\
                      F64.eqb p (S754_zero false) = false) prices) /\
  Forall (complete (_get_required_fields v)) (take 100 data).
Proof.
  unfold validate. destruct data as [|r0 data0]; [intros [= <- <-]; discriminate|].
  remember (r0 :: data0) as data eqn:Edata.
  assert (Hne : data <> []) by (subst data; discriminate).
  unfold mbind at 1.
  destruct (check_timestamp_gaps v data s) as [[c1|e] s1] eqn:E1; [|discriminate].
  unfold mbind at 1.
  destruct (check_duplicates v data s1) as [[c2|e] s2] eqn:E2; [|discriminate].
  unfold mbind at 1.
  destruct (check_price_range v data s2) as [[c3|e] s3] eqn:E3; [|discriminate].
  unfold mbind at 1. rewrite record_count_silent.
  unfold mbind at 1.
  pose proof (tally_missing_complete (_get_required_fields v) (take 100 data)
                (required_fields_NoDup v)) as Hcomplete.
  rewrite (check_completeness_run v data s3 Hne).
  set (missing_fields := tally_missing (_get_required_fields v) (take 100 data)) in *.
  cbn [mret]. intros [= <- <-]. cbn [valid forallb snd check_valid].
  rewrite ?andb_true_r, ?andb_true_l, !andb_true_iff. intros (V1 & V2 & V3 & V5).
  apply (gaps_valid_silent _ _ _ _ _ E1) in V1. subst s1.
  destruct (duplicates_valid_silent _ _ _ _ _ E2 V2) as (-> & Hts).
  destruct (prices_valid_outliers_only _ _ _ _ _ E3 V3)
    as (added & prices & -> & Hadded & Hprices & Hpos).
  pose proof V5 as Hlen. apply Z.eqb_eq in Hlen. unfold len in Hlen.
  destruct missing_fields; [|discriminate Hlen]. cbn [map]. rewrite app_nil_r.
  split; [exact Hne|]. split; [eauto|]. split; [exact Hts|]. split; [eauto|].
  apply Hcomplete. exact V5.
Qed.

(** *** Fixed-point prices *)

(** X19: closes given as fixed-point integers [k * 10^9], for whole
    [k] from 1 up to [2^53], are extracted as the doubles equal to
    [k]. *)
Theorem extract_prices_fixed_point (data : list record) (ks : list Z) :
  Forall2 (fun r k => r !! "close" = Some (VInt (k * 10 ^ 9)) /\ 1 <= k < 2 ^ 53) data ks ->
  _extract_prices data = Ok (map F64.nearest ks).
Proof.
  induction 1 as [|r k data ks [Hclose Hk] _ IH]; [reflexivity|].
  cbn [_extract_prices map]. rewrite Hclose. unfold to_price.
  replace (1000000 <? k * 10 ^ 9) with true by (symmetry; apply Z.ltb_lt; lia).
  change 1000000000 with (10 ^ 9).
  rewrite int_truediv_nearest by lia. cbn [bind]. rewrite IH. reflexivity.
Qed.

End WithHost.

Import UtcHost.

Lemma duplicates_check_witness :
  _extract_timestamps (H := utc_host) [tick 5; tick 7; tick 5; tick 5] = Ok [5; 7; 5; 5] /\
  match check_duplicates (H := utc_host) (fst (init "trades" 60 ten))
          [tick 5; tick 7; tick 5; tick 5] [] with
  | (Ok rep, s') =>
      exists found added,
        rep = duplicates_report (found =? 0) found found /\
        (found = 0 <-> NoDup [5; 7; 5; 5]) /\
        s' = [] ++ added /\ len added = Z.min 10 found
  | (Raise _, _) => ~ NoDup [5; 7; 5; 5]
  end.
Proof.
  assert (E : _extract_timestamps (H := utc_host) [tick 5; tick 7; tick 5; tick 5]
              = Ok [5; 7; 5; 5]) by reflexivity.
  split; [exact E|].
  pose proof (duplicates_check (H := utc_host) (fst (init "trades" 60 ten)) _ _ [] E) as Hc.
  destruct (check_duplicates _ _ _) as [[rep|e] s']; [|exact Hc].
  destruct Hc as (found & added & Hrep & _ & Hnd & Hs & Hlen & _).
  exists found, added. auto.
Defined.

Lemma completeness_check_witness :
  [trade_good; trade_without_size] <> [] /\
  exists missing_fields,
    check_completeness (fst (init "trades" 60 ten)) [trade_good; trade_without_size] []
    = (Ok (completeness_report (len missing_fields =? 0) missing_fields),
       [] ++ map (fun fc => missing_field (fst fc) (snd fc)) missing_fields) /\
    (forall field c,
       (field, c) ∈ missing_fields <->
       field ∈ _get_required_fields (fst (init "trades" 60 ten)) /\
       c = len (lacking field (take 100 [trade_good; trade_without_size])) /\ 0 < c).
Proof.
  assert (Hne : [trade_good; trade_without_size] <> []) by discriminate.
  split; [exact Hne|].
  destruct (completeness_check (fst (init "trades" 60 ten)) _ [] Hne)
    as (missing_fields & E & _ & Hin & _).
  exists missing_fields. auto.
Defined.

Lemma gap_check_ignores_order_witness :
  [tick 5; tick 7000000000000; tick 9] ≡ₚ [tick 7000000000000; tick 9; tick 5] /\
  _extract_timestamps (H := utc_host) [tick 5; tick 7000000000000; tick 9]
  = Ok [5; 7000000000000; 9] /\
  check_timestamp_gaps (H := utc_host) (fst (init "trades" 60 ten))
    [tick 7000000000000; tick 9; tick 5] []
  = check_timestamp_gaps (H := utc_host) (fst (init "trades" 60 ten))
      [tick 5; tick 7000000000000; tick 9] [].
Proof.
  assert (Hp : [tick 5; tick 7000000000000; tick 9] ≡ₚ [tick 7000000000000; tick 9; tick 5]).
  { etransitivity; [apply perm_swap|]. apply perm_skip. apply perm_swap. }
  assert (E : _extract_timestamps (H := utc_host) [tick 5; tick 7000000000000; tick 9]
              = Ok [5; 7000000000000; 9]) by reflexivity.
  split; [exact Hp|]. split; [exact E|].
  exact (gap_check_ignores_order (H := utc_host) _ _ _ _ [] Hp E).
Defined.

Lemma valid_report_witness :
  exists rep,
    validate (H := utc_host) (fst (init "trades" 60 ten)) [trade_good] [] = (Ok rep, []) /\
    valid rep = true /\
    Forall (complete (_get_required_fields (fst (init "trades" 60 ten))))
      (take 100 [trade_good]).
Proof.
  eexists. split; [vm_compute; reflexivity|]. split; [reflexivity|].
  refine (proj2 (proj2 (proj2 (proj2
    (valid_report (H := utc_host) (fst (init "trades" 60 ten)) [trade_good] [] _ [] _ _))))).
  - vm_compute. reflexivity.
  - reflexivity.
Defined.

Lemma extract_prices_fixed_point_witness :
  Forall2 (fun r k => r !! "close" = Some (VInt (k * 10 ^ 9)) /\ 1 <= k < 2 ^ 53)
    [bar 4500000000000; bar 4501000000000] [4500; 4501] /\
  _extract_prices (H := utc_host) [bar 4500000000000; bar 4501000000000]
  = Ok [F64.nearest 4500; F64.nearest 4501].
Proof.
  assert (Hf : Forall2 (fun r k => r !! "close" = Some (VInt (k * 10 ^ 9)) /\ 1 <= k < 2 ^ 53)
                 [bar 4500000000000; bar 4501000000000] [4500; 4501]).
  { constructor; [split; [reflexivity|lia]|].
    constructor; [split; [reflexivity|lia]|]. constructor. }
  split; [exact Hf|]. exact (extract_prices_fixed_point (H := utc_host) _ _ Hf).
Defined.

End DataValidatorMore.

(** ** The gap check on whole-second timestamps *)

Module WholeSecondGaps.
Import DataValidator DataValidatorProps F64Facts F64Exact DataValidatorMore.
#[local] Open Scope val_scope.

Section WithHost.
Context `{Host}.

Lemma gaps_loop_whole v (seconds : list Z) : forall i gaps s,
  Forall (fun k => 0 <= k < 2 ^ 53) seconds ->
  exists new r,
    gaps_loop v i (map (fun k => k * 10 ^ 9) seconds) gaps s
    = (r, s ++ map timestamp_gap new) /\
    (forall gaps', r = Ok gaps' ->
       gaps' = gaps ++ new /\
       map gap_seconds new
       = map F64.nearest
           (List.filter (fun g => max_gap_seconds v <? g) (adjacent_gaps seconds))) /\
    (forall e, r = Raise e ->
       Exists (fun g => max_gap_seconds v < g) (adjacent_gaps seconds)).
Proof.
  induction seconds as [|a rest IH]; intros i gaps s Hok.
  { exists [], (Ok gaps). cbn. rewrite !app_nil_r.
    split; [reflexivity|]. split; [intros ? [= <-]; auto|discriminate]. }
  inversion Hok as [|? ? Ha Hrest]; subst.
  destruct rest as [|b rest'].
  { exists [], (Ok gaps). cbn. rewrite !app_nil_r.
    split; [reflexivity|]. split; [intros ? [= <-]; auto|discriminate]. }
  inversion Hrest as [|? ? Hb _]; subst.
  cbn [map adjacent_gaps List.filter]. rewrite gaps_loop_step.
  change (b * 10 ^ 9 :: map (fun k => k * 10 ^ 9) rest')
    with (map (fun k => k * 10 ^ 9) (b :: rest')).
  replace (b * 10 ^ 9 - a * 10 ^ 9) with ((b - a) * 1000000000) by lia.
  unfold mbind at 1. unfold lift at 1.
  rewrite int_truediv_nearest by lia.
  rewrite gt_int_nearest by lia.
  destruct (max_gap_seconds v <? b - a) eqn:Egap.
  - apply Z.ltb_lt in Egap.
    assert (Hstop : forall (e : exn),
      exists (new : list gap_info) r,
        (@Raise (list gap_info) e, s) = (r, s ++ map timestamp_gap new) /\
        (forall gaps', r = Ok gaps' ->
           gaps' = gaps ++ new /\
           map gap_seconds new
           = map F64.nearest
               (b - a :: List.filter (fun g => max_gap_seconds v <? g)
                           (adjacent_gaps (b :: rest')))) /\
        (forall e', r = Raise e' ->
           Exists (fun g => max_gap_seconds v < g) (b - a :: adjacent_gaps (b :: rest')))).
    { intros e. exists [], (Raise e). cbn [map]. rewrite app_nil_r.
      split; [reflexivity|]. split; [discriminate|]. intros _ _. left. exact Egap. }
    unfold mbind at 1. unfold lift at 1.
    destruct (_format_timestamp (a * 10 ^ 9)) as [before|e]; [|apply Hstop].
    unfold mbind at 1. unfold lift at 1.
    destruct (_format_timestamp (b * 10 ^ 9)) as [after|e]; [|apply Hstop].
    unfold mbind at 1. unfold append_issue at 1.
    match goal with
    | |- context [gaps_loop v (i + 1) _ (gaps ++ [?g]) (s ++ [timestamp_gap ?g])] =>
        destruct (IH (i + 1) (gaps ++ [g]) (s ++ [timestamp_gap g]) Hrest)
          as (new & r & Es & Eg & Er);
        exists (g :: new), r
    end.
    rewrite Es. cbn [map]. rewrite <- !app_assoc.
    split; [reflexivity|]. split.
    + intros gaps' Hg. destruct (Eg gaps' Hg) as [-> Hsec].
      rewrite <- app_assoc. split; [reflexivity|]. cbn [gap_seconds]. f_equal. exact Hsec.
    + intros e Hr. right. exact (Er e Hr).
  - destruct (IH (i + 1) gaps s Hrest) as (new & r & Es & Eg & Er).
    exists new, r. rewrite Es.
    split; [reflexivity|]. split; [exact Eg|].
    intros e Hr. right. exact (Er e Hr).
Qed.

Lemma merge_sort_seconds (seconds : list Z) :
  merge_sort Z.le (map (fun k => k * 10 ^ 9) seconds)
  = map (fun k => k * 10 ^ 9) (merge_sort Z.le seconds).
Proof.
  apply merge_sort_eq.
  - assert (Hs : Sorted Z.le (merge_sort Z.le seconds)) by (apply Sorted_merge_sort; apply _).
    induction Hs as [|a l _ IH Hhd]; [constructor|].
    cbn [map]. constructor; [exact IH|].
    destruct Hhd as [|b l' Hab]; constructor. lia.
  - apply Permutation_map. symmetry. apply merge_sort_Permutation.
Qed.

(** X17: for timestamps on whole seconds below [2^53] and a limit of
    [0 <= max_gap_seconds < 2^53], a returned gap check counts exactly the
    neighbours in sorted order that are more than [max_gap_seconds]
    seconds apart: it is valid iff there is none, reports their gaps in
    seconds (the first ten) and appends one issue per gap.  With fewer
    than two timestamps it is valid with a note and appends nothing.  It
    raises only if there is such a gap (when formatting its ends). *)
Theorem gap_check_whole_seconds (v : config) (data : list record) (seconds : list Z)
    (s : list issue) :
  _extract_timestamps data = Ok (map (fun k => k * 10 ^ 9) seconds) ->
  Forall (fun k => 0 <= k < 2 ^ 53) seconds ->
  0 <= max_gap_seconds v < 2 ^ 53 ->
  let long := long_gaps (max_gap_seconds v) seconds in
  match check_timestamp_gaps v data s with
  | (Ok gaps_insufficient, s') => len seconds < 2 /\ s' = s
  | (Ok (gaps_report valid gaps_found gaps total_gaps), s') =>
      2 <= len seconds /\
      valid = (len long =? 0) /\ gaps_found = len long /\ total_gaps = len long /\
      map gap_seconds gaps = map F64.nearest (take 10 long) /\
      exists new, s' = s ++ map timestamp_gap new /\ len new = len long /\ gaps = take 10 new
  | (Ok _, _) => False
  | (Raise _, _) => long <> []
  end.
Proof.
  intros Hts Hok HL long. rewrite (check_timestamp_gaps_sorted v data _ s Hts).
  assert (Hlen : len (map (fun k => k * 10 ^ 9) seconds) = len seconds)
    by (unfold len; rewrite length_map; reflexivity).
  rewrite Hlen. destruct (len seconds <? 2) eqn:E2.
  { apply Z.ltb_lt in E2. cbn. auto. }
  apply Z.ltb_ge in E2. rewrite merge_sort_seconds.
  assert (Hsorted : Forall (fun k => 0 <= k < 2 ^ 53) (merge_sort Z.le seconds)).
  { rewrite merge_sort_Permutation. exact Hok. }
  destruct (gaps_loop_whole v (merge_sort Z.le seconds) 0 [] s Hsorted)
    as (new & r & Erun & Eg & Er).
  fold (long_gaps (max_gap_seconds v) seconds) in Eg. fold long in Eg.
  unfold mbind at 1. rewrite Erun. destruct r as [gaps|e].
  - destruct (Eg gaps eq_refl) as [-> Hsec]. cbn [app] in *.
    unfold mbind. unfold lift.
    destruct (int_truediv_small (max_gap_seconds v) 60 HL) as [f ->]; [lia|].
    cbn [mret].
    assert (Hnew : len new = len long).
    { unfold len. rewrite <- (length_map gap_seconds new), Hsec, length_map. reflexivity. }
    rewrite Hnew. repeat split; try lia.
    + rewrite <- !firstn_map. f_equal. exact Hsec.
    + exists new. auto.
  - specialize (Er e eq_refl). intros Hnil.
    apply Exists_exists in Er as (g & Hg & Hgt).
    assert (Hin : g ∈ long).
    { apply list_elem_of_In, List.filter_In. split; [apply list_elem_of_In; exact Hg|].
      apply Z.ltb_lt. exact Hgt. }
    rewrite Hnil in Hin. apply elem_of_nil in Hin. exact Hin.
Qed.

End WithHost.

Import UtcHost.

Lemma gap_check_whole_seconds_witness :
  _extract_timestamps (H := utc_host) [tick (7300 * 10 ^ 9); tick (100 * 10 ^ 9)]
  = Ok (map (fun k => k * 10 ^ 9) [7300; 100]) /\
  Forall (fun k => 0 <= k < 2 ^ 53) [7300; 100] /\
  0 <= max_gap_seconds (fst (init "trades" 60 ten)) < 2 ^ 53 /\
  match check_timestamp_gaps (H := utc_host) (fst (init "trades" 60 ten))
          [tick (7300 * 10 ^ 9); tick (100 * 10 ^ 9)] [] with
  | (Ok (gaps_report valid gaps_found _ _), _) =>
      valid = (len (long_gaps 3600 [7300; 100]) =? 0) /\
      gaps_found = len (long_gaps 3600 [7300; 100])
  | (Ok _, _) => False
  | (Raise _, _) => long_gaps 3600 [7300; 100] <> []
  end.
Proof.
  assert (E : _extract_timestamps (H := utc_host) [tick (7300 * 10 ^ 9); tick (100 * 10 ^ 9)]
              = Ok (map (fun k => k * 10 ^ 9) [7300; 100])) by reflexivity.
  assert (Hok : Forall (fun k => 0 <= k < 2 ^ 53) [7300; 100]) by (repeat constructor; lia).
  assert (HL : 0 <= max_gap_seconds (fst (init "trades" 60 ten)) < 2 ^ 53)
    by (cbn; lia).
  split; [exact E|]. split; [exact Hok|]. split; [exact HL|].
  pose proof (gap_check_whole_seconds (H := utc_host) (fst (init "trades" 60 ten))
                _ _ [] E Hok HL) as Hc.
  cbv zeta in Hc. change (max_gap_seconds (fst (init "trades" 60 ten))) with 3600 in Hc.
  destruct (check_timestamp_gaps _ _ _) as [[rep|e] s']; [|exact Hc].
  destruct rep; try exact Hc.
  - destruct Hc as [Hlen _]. vm_compute in Hlen. discriminate Hlen.
  - destruct Hc as (_ & Hv & Hf & _). auto.
Defined.

End WholeSecondGaps.

(** ** Validating what the session filter kept *)

Module FilterThenValidate.
Import SessionFilter DataValidator SessionFilterMore.
#[local] Open Scope res_scope.

Section WithHost.
Context `{Host}.

Lemma in_any_session_int ts_ns session_enums :
  in_any_session ts_ns session_enums = Ok true -> exists t, py_int ts_ns = Ok t.
Proof.
  destruct session_enums as [|session rest]; [discriminate|]. cbn [in_any_session].
  destruct (py_int ts_ns) as [t|e]; [eauto|discriminate].
Qed.

Lemma extract_timestamps_kept session_enums kept :
  Forall (fun r => usable r = true /\
                   in_any_session (derived_ts r) session_enums = Ok true) kept ->
  exists ts, _extract_timestamps kept = Ok ts /\
             Forall2 (fun r t => py_int (derived_ts r) = Ok t) kept ts.
Proof.
  induction 1 as [|r kept [Hu Hin] _ (ts & IH & Hts)].
  - exists []. split; [reflexivity|constructor].
  - destruct (in_any_session_int _ _ Hin) as [t Ht].
    exists (t :: ts). cbn [_extract_timestamps]. fold (derived_ts r). fold (usable r).
    rewrite Hu, Ht. cbn [bind]. rewrite IH. split; [reflexivity|].
    constructor; assumption.
Qed.

(** X20: every record [filter_by_session] keeps has a timestamp the
    validator can extract: [_extract_timestamps] returns on a result of
    the filter, with one timestamp per record, the one the filter
    placed. *)
Theorem kept_records_have_timestamps (data : list record) (names : list string)
    (out : list record) :
  filter_by_session data names = Ok out ->
  exists ts, _extract_timestamps out = Ok ts /\
             Forall2 (fun r t => py_int (derived_ts r) = Ok t) out ts.
Proof.
  unfold filter_by_session.
  destruct (map_res sessions_getitem names) as [session_enums|e]; [|discriminate].
  cbn [bind].
  destruct (filter_by_session_loop session_enums data []) as [filtered|e] eqn:Eloop;
    [|discriminate].
  cbn [bind]. destruct (kept_percentage filtered data) as [f|e]; [|discriminate].
  cbn [bind]. intros [= <-].
  apply filter_by_session_loop_kept in Eloop as (kept & -> & Hk). cbn [app].
  exact (extract_timestamps_kept session_enums kept Hk).
Qed.

End WithHost.

Import UtcHost.

Lemma kept_records_have_timestamps_witness :
  filter_by_session (H := utc_host) [record_1600; record_0930] ["NY"] = Ok [record_0930] /\
  exists ts, _extract_timestamps (H := utc_host) [record_0930] = Ok ts /\
             Forall2 (fun r t => py_int (derived_ts r) = Ok t) [record_0930] ts.
Proof.
  assert (E : filter_by_session (H := utc_host) [record_1600; record_0930] ["NY"]
              = Ok [record_0930]) by (vm_compute; reflexivity).
  split; [exact E|]. exact (kept_records_have_timestamps (H := utc_host) _ _ _ E).
Defined.

End FilterThenValidate.
